(** * PromptPack for LangChain.js: template engine and guardrails

    A shallow embedding of the template engine (template-engine.ts), the
    built-in validators (validators.ts) and the validation runnable
    (validation-runnable.ts), with the properties of the specification
    that concern them; then of the tools (tools.ts), the multimodal
    content (multimodal.ts), the registry (registry.ts) and the prompt
    template (template.ts), with properties of their own.

    Modelling conventions.
    - A JavaScript string is a [string]: a sequence of code units below
      256.  [String.length] is the JavaScript [length].
    - The numbers of the model are the integers ([Z]) and [NaN]; the
      code only compares numbers, counts characters and prints them.
      The numbers a pack holds (bounds, limits) are integers.
    - An object used as a dictionary ([Record<string, T>]) is a
      [gmap string T] of its own properties.  Every such object is an
      ordinary object: a key that it does not own is read from
      [Object.prototype] ([ObjectPrototype.member]), and reads as
      [undefined] only when that has no such member.  Where the code
      enumerates the properties of an object, the object is the list of
      its properties in creation order ([JsObject]), and a [Map] the
      list of its entries ([JsMap]).
    - A call either returns, throws or leaves the model: see
      [outcome]. *)

From Stdlib Require Import ZArith Ascii String DecimalString Bool Lia.
From stdpp Require Import gmap strings list.

Set Warnings "-register-all".
Local Open Scope Z_scope.

(** ** Strings *)

Module Str.

Definition code (c : ascii) : nat := nat_of_ascii c.

Definition in_range (lo hi : nat) (c : ascii) : bool :=
  (lo <=? code c)%nat && (code c <=? hi)%nat.

Definition is_digit (c : ascii) : bool := in_range 48 57 c.
Definition is_upper (c : ascii) : bool := in_range 65 90 c.
Definition is_lower (c : ascii) : bool := in_range 97 122 c.
Definition is_alpha (c : ascii) : bool := is_upper c || is_lower c.
Definition is_underscore (c : ascii) : bool := (code c =? 95)%nat.

(** [\w]: letters, digits and the underscore. *)
Definition is_word (c : ascii) : bool :=
  is_alpha c || is_digit c || is_underscore c.

(** [[a-zA-Z_]] and [[a-zA-Z0-9_]], the two classes of the placeholder
    name. *)
Definition is_name_start (c : ascii) : bool := is_alpha c || is_underscore c.
Definition is_name_char (c : ascii) : bool := is_word c.

(** Simple case folding of a code unit below 256, as the [i] flag of a
    regular expression without the [u] flag applies it: [a-z] and the
    Latin-1 letters E0-FE (except F7) map to their capitals; nothing
    else below 256 has a capital below 256. *)
Definition canonicalize (c : ascii) : ascii :=
  if is_lower c || (in_range 224 254 c && negb (code c =? 247)%nat)
  then ascii_of_nat (code c - 32)
  else c.

Definition eqb_ci (a b : ascii) : bool :=
  Ascii.eqb (canonicalize a) (canonicalize b).

Definition quote_char : ascii := ascii_of_nat 34.
Definition backslash : ascii := ascii_of_nat 92.

Fixpoint join (sep : string) (l : list string) : string :=
  match l with
  | [] => EmptyString
  | [x] => x
  | x :: l' => x +:+ sep +:+ join sep l'
  end.

(** [t] occurs in [s] as a contiguous substring. *)
Definition occurs (t s : string) : Prop :=
  exists pre post, s = pre +:+ t +:+ post.

Fixpoint prefixb (t s : string) : bool :=
  match t, s with
  | EmptyString, _ => true
  | String a t', String b s' => Ascii.eqb a b && prefixb t' s'
  | String _ _, EmptyString => false
  end.

(** [String.prototype.includes]. *)
Fixpoint includes (s t : string) : bool :=
  prefixb t s ||
  match s with
  | EmptyString => false
  | String _ s' => includes s' t
  end.

(** Decimal digits of a number, as a template literal prints it. *)
Definition of_Z (n : Z) : string := NilZero.string_of_int (Z.to_int n).
Definition of_nat (n : nat) : string := of_Z (Z.of_nat n).

End Str.

(** ** JavaScript values *)

(** The values a variable map, an enumeration or a details object can
    hold.  Arrays and objects carry the identity the language compares
    them by ([ref]); an object lists its own properties in enumeration
    order.  [JFunction name] is a built-in function of the platform,
    known by its name, and [JObjectPrototype] the object
    [Object.prototype]: the values that a key can read from the
    prototype of an ordinary object. *)
Inductive jsvalue : Type :=
| JUndefined
| JNull
| JBool (b : bool)
| JNumber (n : Z)
| JNaN
| JString (s : string)
| JArray (ref : nat) (items : list jsvalue)
| JObject (ref : nat) (fields : list (string * jsvalue))
| JFunction (name : string)
| JObjectPrototype.

Module Js.

(** The [typeof] operator. *)
Definition typeof (v : jsvalue) : string :=
  match v with
  | JUndefined => "undefined"
  | JNull => "object"
  | JBool _ => "boolean"
  | JNumber _ => "number"
  | JString _ => "string"
  | JNaN => "number"
  | JArray _ _ => "object"
  | JObject _ _ => "object"
  | JFunction _ => "function"
  | JObjectPrototype => "object"
  end.

Definition isArray (v : jsvalue) : bool :=
  match v with JArray _ _ => true | _ => false end.

(** The text of a built-in function. *)
Definition native_code (name : string) : string :=
  "function " +:+ name +:+ "() { [native code] }".

(** [ToString], the conversion behind [String(v)], template literals
    and [Array.prototype.join]. *)
Fixpoint toString (v : jsvalue) : string :=
  match v with
  | JUndefined => "undefined"
  | JNull => "null"
  | JBool true => "true"
  | JBool false => "false"
  | JNumber n => Str.of_Z n
  | JNaN => "NaN"
  | JString s => s
  | JFunction name => native_code name
  | JObjectPrototype => "[object Object]"
  | JArray _ items =>
      Str.join ","
        ((fix each (l : list jsvalue) : list string :=
            match l with
            | [] => []
            | JUndefined :: l' => EmptyString :: each l'
            | JNull :: l' => EmptyString :: each l'
            | x :: l' => toString x :: each l'
            end) items)
  | JObject _ _ => "[object Object]"
  end.

(** [Array.prototype.join]: [undefined] and [null] print as nothing. *)
Definition join_element (v : jsvalue) : string :=
  match v with
  | JUndefined | JNull => EmptyString
  | _ => toString v
  end.

Definition array_join (sep : string) (items : list jsvalue) : string :=
  Str.join sep (map join_element items).

(** [SameValueZero], the comparison of [Array.prototype.includes]. *)
Definition sameValueZero (a b : jsvalue) : bool :=
  match a, b with
  | JUndefined, JUndefined => true
  | JNull, JNull => true
  | JBool x, JBool y => Bool.eqb x y
  | JNumber x, JNumber y => (x =? y)%Z
  | JNaN, JNaN => true
  | JString x, JString y => String.eqb x y
  | JArray r _, JArray r' _ => (r =? r')%nat
  | JObject r _, JObject r' _ => (r =? r')%nat
  | JFunction f, JFunction g => String.eqb f g
  | JObjectPrototype, JObjectPrototype => true
  | _, _ => false
  end.

(** [a < b] and [a > b] for two numbers: false when one is [NaN]. *)
Definition lt (a b : jsvalue) : bool :=
  match a, b with
  | JNumber x, JNumber y => (x <? y)%Z
  | _, _ => false
  end.

Definition gt (a b : jsvalue) : bool := lt b a.

(** Truthiness of a value. *)
Definition truthy (v : jsvalue) : bool :=
  match v with
  | JUndefined | JNull | JNaN => false
  | JBool b => b
  | JNumber n => negb (n =? 0)%Z
  | JString s => negb (String.eqb s EmptyString)
  | JArray _ _ | JObject _ _ | JFunction _ | JObjectPrototype => true
  end.

Definition array_includes (items : list jsvalue) (v : jsvalue) : bool :=
  existsb (fun x => sameValueZero x v) items.

Definition hex_digit (n : nat) : ascii :=
  if (n <? 10)%nat then ascii_of_nat (48 + n) else ascii_of_nat (87 + n).

(** One code unit inside a JSON string literal. *)
Definition json_escape (c : ascii) : string :=
  let n := Str.code c in
  if (n =? 34)%nat then String Str.backslash (String Str.quote_char EmptyString)
  else if (n =? 92)%nat then String Str.backslash (String Str.backslash EmptyString)
  else if (n =? 8)%nat then String Str.backslash "b"
  else if (n =? 9)%nat then String Str.backslash "t"
  else if (n =? 10)%nat then String Str.backslash "n"
  else if (n =? 12)%nat then String Str.backslash "f"
  else if (n =? 13)%nat then String Str.backslash "r"
  else if (n <? 32)%nat then
    String Str.backslash
      ("u00" +:+ String (hex_digit (n / 16)) (String (hex_digit (n mod 16)) EmptyString))
  else String c EmptyString.

Fixpoint json_escape_all (s : string) : string :=
  match s with
  | EmptyString => EmptyString
  | String c s' => json_escape c +:+ json_escape_all s'
  end.

Definition json_quote (s : string) : string :=
  String Str.quote_char (json_escape_all s +:+ String Str.quote_char EmptyString).

(** [JSON.stringify] without indentation; [None] is its [undefined]
    result.  [Object.prototype] has no enumerable property. *)
Fixpoint json_stringify (v : jsvalue) : option string :=
  match v with
  | JUndefined => None
  | JNull => Some "null"
  | JBool true => Some "true"
  | JBool false => Some "false"
  | JNumber n => Some (Str.of_Z n)
  | JNaN => Some "null"
  | JString s => Some (json_quote s)
  | JFunction _ => None
  | JObjectPrototype => Some "{}"
  | JArray _ items =>
      Some ("[" +:+
        Str.join ","
          ((fix each (l : list jsvalue) : list string :=
              match l with
              | [] => []
              | x :: l' =>
                  match json_stringify x with
                  | Some t => t
                  | None => "null"
                  end :: each l'
              end) items) +:+ "]")
  | JObject _ fields =>
      Some ("{" +:+
        Str.join ","
          ((fix each (l : list (string * jsvalue)) : list string :=
              match l with
              | [] => []
              | (k, x) :: l' =>
                  match json_stringify x with
                  | Some t => (json_quote k +:+ ":" +:+ t) :: each l'
                  | None => each l'
                  end
              end) fields) +:+ "}")
  end.

End Js.

(** ** The prototype of the objects *)

(** The object literals, the copies made by a spread and the results of
    [JSON.parse] that the code reads by key are ordinary objects:
    [o[key]] is the property of that name that [o] owns and, when it
    owns none, the member of that name of [Object.prototype]. *)
Module ObjectPrototype.

(** The functions of [Object.prototype] that carry the name of their
    key. *)
Definition functions : list string :=
  ["__defineGetter__"; "__defineSetter__"; "hasOwnProperty"; "__lookupGetter__";
   "__lookupSetter__"; "isPrototypeOf"; "propertyIsEnumerable"; "toString";
   "valueOf"; "toLocaleString"].

(** [Object.prototype[key]]: [constructor] is the function [Object],
    and [__proto__] answers the prototype of the object that is read,
    which is [Object.prototype] itself. *)
Definition member (key : string) : option jsvalue :=
  if String.eqb key "constructor" then Some (JFunction "Object")
  else if String.eqb key "__proto__" then Some JObjectPrototype
  else if existsb (String.eqb key) functions then Some (JFunction key)
  else None.

(** The keys that every ordinary object answers. *)
Definition names : list string := "constructor" :: "__proto__" :: functions.

(** [o[key]], from the property that [o] owns under [key], if any. *)
Definition read (own : option jsvalue) (key : string) : jsvalue :=
  match own with
  | Some v => v
  | None => default JUndefined (member key)
  end.

(** The same for an object whose own properties have the type [A]: it
    answers a property of its own, a member that it inherits, or
    [undefined]. *)
Inductive property (A : Type) : Type :=
| Own (a : A)
| Inherited (member : jsvalue)
| Absent.

Arguments Own {A} a.
Arguments Inherited {A} member.
Arguments Absent {A}.

Definition lookup {A : Type} (own : option A) (key : string) : property A :=
  match own with
  | Some a => Own a
  | None =>
      match member key with
      | Some member => Inherited member
      | None => Absent
      end
  end.

(** Truthiness of what the object answers, when its own properties are
    objects or functions. *)
Definition truthy {A : Type} (p : property A) : bool :=
  match p with
  | Own _ => true
  | Inherited member => Js.truthy member
  | Absent => false
  end.

Definition is_undefined {A : Type} (p : property A) : bool :=
  match p with
  | Own _ => false
  | Inherited member => match member with JUndefined => true | _ => false end
  | Absent => true
  end.

End ObjectPrototype.

(** ** Outcomes of a call *)

(** The errors the modelled code throws: [JsSyntaxError] is the
    platform's [SyntaxError] for a malformed regular expression,
    [JsTypeError] its [TypeError]; the others are raised by the
    library. *)
Inductive exn : Type :=
| TemplateError (message : string)
| ValidationError (message : string)
| GuardrailViolationError
    (message : string) (validatorType : string)
    (details : option (list (string * jsvalue)))
| Error (message : string)
| JsSyntaxError (message : string)
| JsTypeError (message : string).

(** A call returns a value, throws, or leaves the model: it runs into
    a regular expression that [RegExp] does not cover, or it gets a
    value that is no validation result where the code declares one
    (see [ValidationRunnable.call_member]). *)
Inductive outcome (A : Type) : Type :=
| Returns (a : A)
| Throws (e : exn)
| Unmodelled.

Arguments Returns {A} a.
Arguments Throws {A} e.
Arguments Unmodelled {A}.

#[global] Instance outcome_ret : MRet outcome := fun A a => Returns a.

#[global] Instance outcome_bind : MBind outcome := fun A B f c =>
  match c with
  | Returns a => f a
  | Throws e => Throws e
  | Unmodelled => Unmodelled
  end.

(** ** Regular expressions *)

(** The platform's [RegExp], for the patterns the validators build and
    for [test].  The module covers a fragment of the pattern language
    (without the [u] flag): pattern characters, [.], the escapes
    [\d \D \w \W \s \S \t \n \v \f \r], escaped punctuation, the
    assertions [^ $ \b \B], character classes, groups [( )] and [(?: )],
    alternation and the quantifiers [* + ?] (greedy or lazy).  A pattern
    that uses anything else (braces, look-around, back-references, named
    groups, other escapes) is [Unsupported], and the call that built it
    is [Unmodelled]. *)
Module RegExp.

Inductive class_item : Type :=
| CChar (c : ascii)
| CRange (lo hi : ascii)
| CDigit (negated : bool)
| CWord (negated : bool)
| CSpace (negated : bool).

Inductive re : Type :=
| Empty
| Char (c : ascii)
| Any
| Class (negated : bool) (items : list class_item)
| Bol
| Eol
| WordB
| NotWordB
| Seq (a b : re)
| Alt (a b : re)
| Star (a : re)
| Plus (a : re)
| Opt (a : re).

(** *** Matching *)

Definition is_line_terminator (c : ascii) : bool :=
  (Str.code c =? 10)%nat || (Str.code c =? 13)%nat.

Definition is_space (c : ascii) : bool :=
  Str.in_range 9 13 c || (Str.code c =? 32)%nat || (Str.code c =? 160)%nat.

Definition item_has (i : class_item) (c : ascii) : bool :=
  match i with
  | CChar a => Ascii.eqb a c
  | CRange lo hi => Str.in_range (Str.code lo) (Str.code hi) c
  | CDigit n => xorb n (Str.is_digit c)
  | CWord n => xorb n (Str.is_word c)
  | CSpace n => xorb n (is_space c)
  end.

Definition all_code_units : list ascii := map ascii_of_nat (seq 0 256).

(** Membership of a code unit in the set a class denotes; with the
    [i] flag a member matches every code unit of the same canonical
    form. *)
Definition set_has (ignoreCase : bool) (items : list class_item) (c : ascii) : bool :=
  if ignoreCase then
    existsb (fun a => existsb (fun i => item_has i a) items && Str.eqb_ci a c)
      all_code_units
  else existsb (fun i => item_has i c) items.

Definition char_matches (ignoreCase : bool) (a c : ascii) : bool :=
  if ignoreCase then Str.eqb_ci a c else Ascii.eqb a c.

Definition is_word_at (c : option ascii) : bool :=
  match c with Some a => Str.is_word a | None => false end.

Definition next_char (s : string) : option ascii :=
  match s with String c _ => Some c | EmptyString => None end.

Definition at_word_boundary (prev : option ascii) (s : string) : bool :=
  xorb (is_word_at prev) (is_word_at (next_char s)).

(** [matches_from ic r prev s k]: some match of [r] at the front of
    [s] (after the code unit [prev]) leaves a rest that the
    continuation [k] accepts.  An iteration of a starred expression
    must consume input. *)
Fixpoint matches_from (ic : bool) (r : re)
    (prev : option ascii) (s : string)
    (k : option ascii -> string -> bool) {struct r} : bool :=
  match r with
  | Empty => k prev s
  | Char a =>
      match s with
      | String c s' => char_matches ic a c && k (Some c) s'
      | EmptyString => false
      end
  | Any =>
      match s with
      | String c s' => negb (is_line_terminator c) && k (Some c) s'
      | EmptyString => false
      end
  | Class negated items =>
      match s with
      | String c s' => xorb negated (set_has ic items c) && k (Some c) s'
      | EmptyString => false
      end
  | Bol => match prev with None => k prev s | Some _ => false end
  | Eol => match s with EmptyString => k prev s | String _ _ => false end
  | WordB => at_word_boundary prev s && k prev s
  | NotWordB => negb (at_word_boundary prev s) && k prev s
  | Seq a b => matches_from ic a prev s (fun p' s' => matches_from ic b p' s' k)
  | Alt a b => matches_from ic a prev s k || matches_from ic b prev s k
  | Star a =>
      (fix loop (n : nat) (prev : option ascii) (s : string) : bool :=
         k prev s ||
         match n with
         | O => false
         | S n' =>
             matches_from ic a prev s
               (fun p' s' =>
                  (String.length s' <? String.length s)%nat && loop n' p' s')
         end) (String.length s) prev s
  | Plus a =>
      matches_from ic a prev s
        (fun p0 s0 =>
           (fix loop (n : nat) (prev : option ascii) (s : string) : bool :=
              k prev s ||
              match n with
              | O => false
              | S n' =>
                  matches_from ic a prev s
                    (fun p' s' =>
                       (String.length s' <? String.length s)%nat && loop n' p' s')
              end) (String.length s0) p0 s0)
  | Opt a => matches_from ic a prev s k || k prev s
  end.

(** A match starting at the current position or at a later one. *)
Fixpoint search (ic : bool) (r : re) (prev : option ascii) (s : string) : bool :=
  matches_from ic r prev s (fun _ _ => true) ||
  match s with
  | EmptyString => false
  | String c s' => search ic r (Some c) s'
  end.

(** *** Reading a pattern *)

Inductive parsed : Type :=
| Parsed (r : re)
| Malformed (reason : string)
| Unsupported.

(** One level of grouping under construction: the alternatives that
    are complete and the terms of the current one, both most recent
    first; a term is paired with whether a quantifier may follow. *)
Record frame : Type := {
  alts : list re;
  terms : list (re * bool)
}.

Definition empty_frame : frame := {| alts := []; terms := [] |}.

Definition push (t : re) (quantifiable : bool) (f : frame) : frame :=
  {| alts := alts f; terms := (t, quantifiable) :: terms f |}.

Definition sequence (ts : list (re * bool)) : re :=
  fold_left (fun acc t => Seq (fst t) acc) ts Empty.

Definition next_alternative (f : frame) : frame :=
  {| alts := sequence (terms f) :: alts f; terms := [] |}.

Definition close (f : frame) : re :=
  fold_left (fun acc a => Alt a acc) (alts f) (sequence (terms f)).

(** The syntax characters of a pattern. *)
Definition syntax_chars : list ascii :=
  ["^"; "$"; Str.backslash; "."; "*"; "+"; "?"; "("; ")"; "["; "]"; "{"; "}"; "|"]%char.

Definition is_syntax_char (c : ascii) : bool :=
  existsb (Ascii.eqb c) syntax_chars.

Definition is_alnum (c : ascii) : bool := Str.is_alpha c || Str.is_digit c.

Inductive escape : Type :=
| EClass (i : class_item)
| EChar (c : ascii)
| EWordB
| ENotWordB
| EUnsupported.

(** The meaning of a backslash followed by the code unit [c]. *)
Definition read_escape (c : ascii) : escape :=
  if Ascii.eqb c "d" then EClass (CDigit false)
  else if Ascii.eqb c "D" then EClass (CDigit true)
  else if Ascii.eqb c "w" then EClass (CWord false)
  else if Ascii.eqb c "W" then EClass (CWord true)
  else if Ascii.eqb c "s" then EClass (CSpace false)
  else if Ascii.eqb c "S" then EClass (CSpace true)
  else if Ascii.eqb c "t" then EChar (ascii_of_nat 9)
  else if Ascii.eqb c "n" then EChar (ascii_of_nat 10)
  else if Ascii.eqb c "v" then EChar (ascii_of_nat 11)
  else if Ascii.eqb c "f" then EChar (ascii_of_nat 12)
  else if Ascii.eqb c "r" then EChar (ascii_of_nat 13)
  else if Ascii.eqb c "b" then EWordB
  else if Ascii.eqb c "B" then ENotWordB
  else if is_alnum c then EUnsupported
  else EChar c.

(** Inside a class [\b] is the backspace and [\B] is not allowed. *)
Definition class_escape (c : ascii) : option class_item :=
  match read_escape c with
  | EClass i => Some i
  | EChar a => Some (CChar a)
  | EWordB => Some (CChar (ascii_of_nat 8))
  | ENotWordB | EUnsupported => None
  end.

Inductive mode : Type :=
| Top
| InClass (negated : bool) (items : list class_item).

Definition quantify (c : ascii) (r : re) : re :=
  if Ascii.eqb c "*" then Star r
  else if Ascii.eqb c "+" then Plus r
  else Opt r.

Definition is_quantifier (c : ascii) : bool :=
  Ascii.eqb c "*" || Ascii.eqb c "+" || Ascii.eqb c "?".

(** A dash that is followed by something other than the closing
    bracket: the middle of a range. *)
Definition range_follows (s : string) : bool :=
  match s with
  | String d (String h _) => Ascii.eqb d "-" && negb (Ascii.eqb h "]")
  | _ => false
  end.

(** The reader: [stack] holds the enclosing groups, [cur] the group
    being read. *)
Fixpoint parse (m : mode) (stack : list frame) (cur : frame) (s : string)
    {struct s} : parsed :=
  match m with
  | Top =>
      match s with
      | EmptyString =>
          match stack with
          | [] => Parsed (close cur)
          | _ :: _ => Malformed "Unterminated group"
          end
      | String c s' =>
          if negb (is_syntax_char c) then parse Top stack (push (Char c) true cur) s'
          else if Ascii.eqb c "." then parse Top stack (push Any true cur) s'
          else if Ascii.eqb c "^" then parse Top stack (push Bol false cur) s'
          else if Ascii.eqb c "$" then parse Top stack (push Eol false cur) s'
          else if Ascii.eqb c "|" then parse Top stack (next_alternative cur) s'
          else if Ascii.eqb c "(" then
            match s' with
            | String q s'' =>
                if Ascii.eqb q "?" then
                  match s'' with
                  | String d s''' =>
                      if Ascii.eqb d ":" then parse Top (cur :: stack) empty_frame s'''
                      else Unsupported
                  | EmptyString => Unsupported
                  end
                else parse Top (cur :: stack) empty_frame s'
            | EmptyString => parse Top (cur :: stack) empty_frame s'
            end
          else if Ascii.eqb c ")" then
            match stack with
            | [] => Malformed "Unmatched ')'"
            | parent :: stack' => parse Top stack' (push (close cur) true parent) s'
            end
          else if is_quantifier c then
            match terms cur with
            | (t, true) :: ts =>
                let cur' := {| alts := alts cur; terms := (quantify c t, false) :: ts |} in
                match s' with
                | String q s'' =>
                    if Ascii.eqb q "?" then parse Top stack cur' s''
                    else parse Top stack cur' s'
                | EmptyString => parse Top stack cur' s'
                end
            | _ => Malformed "Nothing to repeat"
            end
          else if Ascii.eqb c Str.backslash then
            match s' with
            | EmptyString => Malformed "\ at end of pattern"
            | String e s'' =>
                match read_escape e with
                | EClass i => parse Top stack (push (Class false [i]) true cur) s''
                | EChar a => parse Top stack (push (Char a) true cur) s''
                | EWordB => parse Top stack (push WordB false cur) s''
                | ENotWordB => parse Top stack (push NotWordB false cur) s''
                | EUnsupported => Unsupported
                end
            end
          else if Ascii.eqb c "[" then
            match s' with
            | String n s'' =>
                if Ascii.eqb n "^" then parse (InClass true []) stack cur s''
                else parse (InClass false []) stack cur s'
            | EmptyString => parse (InClass false []) stack cur s'
            end
          else Unsupported
      end
  | InClass negated items =>
      match s with
      | EmptyString => Malformed "Unterminated character class"
      | String c s' =>
          if Ascii.eqb c "]" then
            parse Top stack (push (Class negated (rev items)) true cur) s'
          else if Ascii.eqb c Str.backslash then
            match s' with
            | EmptyString => Malformed "\ at end of pattern"
            | String e s'' =>
                if range_follows s'' then Unsupported
                else
                  match class_escape e with
                  | Some i => parse (InClass negated (i :: items)) stack cur s''
                  | None => Unsupported
                  end
            end
          else
            match s' with
            | String d (String h s''') =>
                if range_follows s' then
                  if Ascii.eqb h Str.backslash then Unsupported
                  else if (Str.code h <? Str.code c)%nat then
                    Malformed "Range out of order in character class"
                  else parse (InClass negated (CRange c h :: items)) stack cur s'''
                else parse (InClass negated (CChar c :: items)) stack cur s'
            | _ => parse (InClass negated (CChar c :: items)) stack cur s'
            end
      end
  end.

Definition compile (pattern : string) : parsed :=
  parse Top [] empty_frame pattern.

(** The flags the library passes: none, or [i]. *)
Definition ignoreCase_of (flags : string) : option bool :=
  if String.eqb flags EmptyString then Some false
  else if String.eqb flags "i" then Some true
  else None.

(** The text of the [SyntaxError] (the wording is the engine's; this
    is V8's). *)
Definition syntax_error (pattern flags reason : string) : exn :=
  JsSyntaxError
    ("Invalid regular expression: /" +:+ pattern +:+ "/" +:+ flags +:+ ": " +:+ reason).

(** [new RegExp(pattern, flags).test(input)]. *)
Definition test (pattern flags input : string) : outcome bool :=
  match ignoreCase_of flags with
  | None => Unmodelled
  | Some ic =>
      match compile pattern with
      | Parsed r => Returns (search ic r None input)
      | Malformed reason => Throws (syntax_error pattern flags reason)
      | Unsupported => Unmodelled
      end
  end.

(** *** The pattern of a phrase between word boundaries *)

Fixpoint chars_re (w : string) (tail : re) : re :=
  match w with
  | EmptyString => tail
  | String c w' => Seq (Char c) (chars_re w' tail)
  end.

Definition phrase_re (w : string) : re :=
  Seq WordB (chars_re w (Seq WordB Empty)).

Fixpoint push_all (w : string) (f : frame) : frame :=
  match w with
  | EmptyString => f
  | String c w' => push_all w' (push (Char c) true f)
  end.

End RegExp.

(** ** validators.ts *)

Module Validators.

(** [Validator.params], read through the casts of the built-in
    validators; [other] holds what custom validators read. *)
Record Params : Type := {
  words : option (list string);
  max_characters : option Z;
  max_tokens : option Z;
  min_characters : option Z;
  min_tokens : option Z;
  pattern : option string;
  must_match : option bool;
  other : list (string * jsvalue)
}.

Definition no_params : Params :=
  {| words := None; max_characters := None; max_tokens := None;
     min_characters := None; min_tokens := None; pattern := None;
     must_match := None; other := [] |}.

(** A guardrail descriptor (types.ts). *)
Record Validator : Type := {
  type : string;
  enabled : bool;
  fail_on_violation : option bool;
  params : option Params
}.

Record ValidationResult : Type := {
  passed : bool;
  validatorType : string;
  message : option string;
  details : option (list (string * jsvalue))
}.

(** Truthiness of an optional flag and of an optional string. *)
Definition truthy_flag (b : option bool) : bool :=
  match b with Some true => true | _ => false end.

Definition truthy_string (s : option string) : option string :=
  match s with
  | Some EmptyString | None => None
  | Some t => Some t
  end.

(** [validator.params?.field]. *)
Definition param {A : Type} (field : Params -> option A) (validator : Validator) : option A :=
  match params validator with
  | Some p => field p
  | None => None
  end.

(** The identity of an array the library allocates; no modelled code
    compares it. *)
Definition fresh : nat := 0%nat.

Definition OOTB_VALIDATORS : list string :=
  ["banned_words"; "max_length"; "min_length"; "regex_match"].

Definition isOOTBValidator (type : string) : bool :=
  existsb (String.eqb type) OOTB_VALIDATORS.

(** The loop of [validateBannedWords] over the configured words. *)
Fixpoint findBannedWords (response : string) (words foundWords : list string)
    : outcome (list string) :=
  match words with
  | [] => Returns foundWords
  | word :: rest =>
      found ← RegExp.test ("\b" +:+ word +:+ "\b") "i" response;
      findBannedWords response rest
        (if found : bool then foundWords ++ [word] else foundWords)
  end.

Definition validateBannedWords (response : string) (validator : Validator)
    : outcome ValidationResult :=
  let words := default [] (param words validator) in
  foundWords ← findBannedWords response words [];
  if (0 <? length foundWords)%nat then
    Returns
      {| passed := false;
         validatorType := "banned_words";
         message := Some ("Response contains banned words: " +:+ Str.join ", " foundWords);
         details := Some [("banned_words", JArray fresh (map JString foundWords))] |}
  else
    Returns
      {| passed := true; validatorType := "banned_words";
         message := None; details := None |}.

(** [Math.ceil(a / b)] for a positive [b]. *)
Definition ceil_div (a b : Z) : Z := - ((- a) / b).

Definition estimatedTokens (response : string) : Z :=
  ceil_div (Z.of_nat (String.length response)) 4.

Definition response_length (response : string) : Z :=
  Z.of_nat (String.length response).

Definition validateMaxLength (response : string) (validator : Validator)
    : ValidationResult :=
  let maxChars := param max_characters validator in
  let maxTokens := param max_tokens validator in
  let pass :=
    {| passed := true; validatorType := "max_length";
       message := None; details := None |} in
  let token_check :=
    match maxTokens with
    | Some maxTokens =>
        if maxTokens <? estimatedTokens response then
          {| passed := false;
             validatorType := "max_length";
             message := Some ("Response exceeds maximum tokens: ~"
                              +:+ Str.of_Z (estimatedTokens response) +:+ " > "
                              +:+ Str.of_Z maxTokens +:+ " tokens");
             details := Some [("estimated_tokens", JNumber (estimatedTokens response));
                              ("max_tokens", JNumber maxTokens)] |}
        else pass
    | None => pass
    end in
  match maxChars with
  | Some maxChars =>
      if maxChars <? response_length response then
        {| passed := false;
           validatorType := "max_length";
           message := Some ("Response exceeds maximum length: "
                            +:+ Str.of_Z (response_length response) +:+ " > "
                            +:+ Str.of_Z maxChars +:+ " characters");
           details := Some [("length", JNumber (response_length response));
                            ("max_characters", JNumber maxChars)] |}
      else token_check
  | None => token_check
  end.

Definition validateMinLength (response : string) (validator : Validator)
    : ValidationResult :=
  let minChars := param min_characters validator in
  let minTokens := param min_tokens validator in
  let pass :=
    {| passed := true; validatorType := "min_length";
       message := None; details := None |} in
  let token_check :=
    match minTokens with
    | Some minTokens =>
        if estimatedTokens response <? minTokens then
          {| passed := false;
             validatorType := "min_length";
             message := Some ("Response below minimum tokens: ~"
                              +:+ Str.of_Z (estimatedTokens response) +:+ " < "
                              +:+ Str.of_Z minTokens +:+ " tokens");
             details := Some [("estimated_tokens", JNumber (estimatedTokens response));
                              ("min_tokens", JNumber minTokens)] |}
        else pass
    | None => pass
    end in
  match minChars with
  | Some minChars =>
      if response_length response <? minChars then
        {| passed := false;
           validatorType := "min_length";
           message := Some ("Response below minimum length: "
                            +:+ Str.of_Z (response_length response) +:+ " < "
                            +:+ Str.of_Z minChars +:+ " characters");
           details := Some [("length", JNumber (response_length response));
                            ("min_characters", JNumber minChars)] |}
      else token_check
  | None => token_check
  end.

(** [String(error)] for the errors of the platform. *)
Definition error_toString (e : exn) : string :=
  match e with
  | TemplateError m => "TemplateError: " +:+ m
  | ValidationError m => "ValidationError: " +:+ m
  | GuardrailViolationError m _ _ => "GuardrailViolationError: " +:+ m
  | Error m => "Error: " +:+ m
  | JsSyntaxError m => "SyntaxError: " +:+ m
  | JsTypeError m => "TypeError: " +:+ m
  end.

Definition validateRegexMatch (response : string) (validator : Validator)
    : outcome ValidationResult :=
  let mustMatch :=
    match param must_match validator with Some false => false | _ => true end in
  match truthy_string (param pattern validator) with
  | None =>
      Returns
        {| passed := true; validatorType := "regex_match";
           message := Some "No pattern specified"; details := None |}
  | Some pattern =>
      match RegExp.test pattern EmptyString response with
      | Returns matches =>
          if mustMatch && negb matches then
            Returns
              {| passed := false; validatorType := "regex_match";
                 message := Some ("Response does not match required pattern: " +:+ pattern);
                 details := Some [("pattern", JString pattern)] |}
          else if negb mustMatch && matches then
            Returns
              {| passed := false; validatorType := "regex_match";
                 message := Some ("Response matches forbidden pattern: " +:+ pattern);
                 details := Some [("pattern", JString pattern)] |}
          else
            Returns
              {| passed := true; validatorType := "regex_match";
                 message := None; details := None |}
      | Throws error =>
          Returns
            {| passed := false; validatorType := "regex_match";
               message := Some ("Invalid regex pattern: " +:+ pattern);
               details := Some [("error", JString (error_toString error))] |}
      | Unmodelled => Unmodelled
      end
  end.

Definition runValidator (response : string) (validator : Validator)
    : outcome ValidationResult :=
  if String.eqb (type validator) "banned_words" then validateBannedWords response validator
  else if String.eqb (type validator) "max_length" then Returns (validateMaxLength response validator)
  else if String.eqb (type validator) "min_length" then Returns (validateMinLength response validator)
  else if String.eqb (type validator) "regex_match" then validateRegexMatch response validator
  else
    Returns
      {| passed := true;
         validatorType := type validator;
         message := Some ("Unknown validator type: " +:+ type validator);
         details := None |}.

(** [result.message || 'Validation failed']. *)
Definition message_or_default (result : ValidationResult) : string :=
  match truthy_string (message result) with
  | Some m => m
  | None => "Validation failed"
  end.

(** The [for] loop of [validateResponse], from the validators still to
    visit and the results pushed so far. *)
Fixpoint validateResponse_from (response : string) (validators : list Validator)
    (results : list ValidationResult) : outcome (list ValidationResult) :=
  match validators with
  | [] => Returns results
  | validator :: rest =>
      if negb (enabled validator) then validateResponse_from response rest results
      else
        result ← runValidator response validator;
        let results := results ++ [result] in
        if negb (passed result) && truthy_flag (fail_on_violation validator) then
          Throws (GuardrailViolationError
                    (message_or_default result) (type validator) (details result))
        else validateResponse_from response rest results
  end.

Definition validateResponse (response : string) (validators : list Validator)
    : outcome (list ValidationResult) :=
  validateResponse_from response validators [].

Definition allValidatorsPassed (results : list ValidationResult) : bool :=
  forallb passed results.

Definition getFailedValidators (results : list ValidationResult)
    : list ValidationResult :=
  List.filter (fun r => negb (passed r)) results.

(** *** The specification's reading of a banned phrase *)

(** [strip_ci phrase s prev]: [s] starts with [phrase] up to letter
    case; the result is the last code unit read (or [prev]) and the
    rest of [s]. *)
Fixpoint strip_ci (phrase s : string) (prev : option ascii)
    : option (option ascii * string) :=
  match phrase with
  | EmptyString => Some (prev, s)
  | String a phrase' =>
      match s with
      | String c s' => if Str.eqb_ci a c then strip_ci phrase' s' (Some c) else None
      | EmptyString => None
      end
  end.

(** The phrase stands at the front of [s], between two word
    boundaries. *)
Definition phrase_at (phrase : string) (prev : option ascii) (s : string) : bool :=
  RegExp.at_word_boundary prev s &&
  match strip_ci phrase s prev with
  | Some (last, rest) => RegExp.at_word_boundary last rest
  | None => false
  end.

Fixpoint phrase_occurs_from (phrase : string) (prev : option ascii) (s : string) : bool :=
  phrase_at phrase prev s ||
  match s with
  | EmptyString => false
  | String c s' => phrase_occurs_from phrase (Some c) s'
  end.

(** [phrase] occurs in [response], whatever the letter case, as whole
    words. *)
Definition phrase_occurs (phrase response : string) : bool :=
  phrase_occurs_from phrase None response.

(** A phrase without syntax characters of the pattern language. *)
Fixpoint plain (phrase : string) : bool :=
  match phrase with
  | EmptyString => true
  | String c phrase' => negb (RegExp.is_syntax_char c) && plain phrase'
  end.

(** The outcome of the banned-phrase validator for the phrases found. *)
Definition banned_outcome (foundWords : list string) : ValidationResult :=
  match foundWords with
  | [] =>
      {| passed := true; validatorType := "banned_words";
         message := None; details := None |}
  | _ :: _ =>
      {| passed := false;
         validatorType := "banned_words";
         message := Some ("Response contains banned words: " +:+ Str.join ", " foundWords);
         details := Some [("banned_words", JArray fresh (map JString foundWords))] |}
  end.

(** Three descriptors for the examples: a failure without
    [fail_on_violation], a failure with it, and a word list that is not
    a well-formed pattern. *)
Definition quiet_then_critical : list Validator :=
  [ {| type := "banned_words"; enabled := true; fail_on_violation := Some false;
       params := Some {| words := Some ["bad"]; max_characters := None;
                         max_tokens := None; min_characters := None;
                         min_tokens := None; pattern := None; must_match := None;
                         other := [] |} |};
    {| type := "max_length"; enabled := true; fail_on_violation := Some true;
       params := Some {| words := None; max_characters := Some 5;
                         max_tokens := None; min_characters := None;
                         min_tokens := None; pattern := None; must_match := None;
                         other := [] |} |};
    {| type := "banned_words"; enabled := true; fail_on_violation := Some true;
       params := Some {| words := Some ["("]; max_characters := None;
                         max_tokens := None; min_characters := None;
                         min_tokens := None; pattern := None; must_match := None;
                         other := [] |} |} ].


Definition length_validator (kind : string) (bound : Z) (critical : bool) : Validator :=
  {| type := kind; enabled := true; fail_on_violation := Some critical;
     params := Some {| words := None;
                       max_characters := Some bound; max_tokens := None;
                       min_characters := Some bound; min_tokens := None;
                       pattern := None; must_match := None; other := [] |} |}.

Definition banned_validator (phrases : list string) (critical : bool) : Validator :=
  {| type := "banned_words"; enabled := true; fail_on_violation := Some critical;
     params := Some {| words := Some phrases;
                       max_characters := None; max_tokens := None;
                       min_characters := None; min_tokens := None;
                       pattern := None; must_match := None; other := [] |} |}.

Definition custom_validator (kind : string) : Validator :=
  {| type := kind; enabled := true; fail_on_violation := Some false; params := None |}.

Definition critical_custom_validator (kind : string) : Validator :=
  {| type := kind; enabled := true; fail_on_violation := Some true; params := None |}.

End Validators.

(** ** validation-runnable.ts *)

Module ValidationRunnable.

Import Validators.

(** A custom validator is a function of the response and the
    descriptor. *)
Abbreviation CustomValidatorFn := (string -> Validator -> ValidationResult).

Record ValidationRunnableOptions : Type := {
  validators : list Validator;
  customValidators : option (gmap string CustomValidatorFn);
  throwOnFailure : option bool;
  validationKey : option string
}.

(** The private fields of an instance. *)
Record ValidationRunnable : Type := {
  this_validators : list Validator;
  this_customValidators : gmap string CustomValidatorFn;
  this_throwOnFailure : bool;
  this_validationKey : string
}.

Record Validation : Type := {
  validation_passed : bool;
  validation_results : list ValidationResult;
  validation_failed : list ValidationResult
}.

Record ValidatedOutput : Type := {
  content : jsvalue;
  validation : Validation
}.

(** [this.customValidators[type]]: the implementation that the map
    owns under that key, else the member of that name of
    [Object.prototype], else [undefined]. *)
Definition implementation_of (custom : gmap string CustomValidatorFn) (type : string)
    : ObjectPrototype.property CustomValidatorFn :=
  ObjectPrototype.lookup (custom !! type) type.

(** The loop of [validateValidatorImplementations]: the types pushed
    to [missingValidators]. *)
Fixpoint missingValidators (custom : gmap string CustomValidatorFn)
    (validators : list Validator) : list string :=
  match validators with
  | [] => []
  | validator :: rest =>
      if negb (enabled validator) then missingValidators custom rest
      else if isOOTBValidator (type validator) then missingValidators custom rest
      else if negb (ObjectPrototype.truthy (implementation_of custom (type validator)))
      then type validator :: missingValidators custom rest
      else missingValidators custom rest
  end.

Definition missing_message (missing : list string) : string :=
  "Missing validator implementations: " +:+ Str.join ", " missing +:+ ". "
  +:+ "These validators are required by the PromptPack but no implementation was provided.".

Definition validateValidatorImplementations (this : ValidationRunnable) : outcome unit :=
  let missing := missingValidators (this_customValidators this) (this_validators this) in
  if (0 <? length missing)%nat then Throws (Error (missing_message missing))
  else Returns tt.

(** The constructor. *)
Definition new (options : ValidationRunnableOptions) : outcome ValidationRunnable :=
  let this :=
    {| this_validators := validators options;
       this_customValidators := default ∅ (customValidators options);
       this_throwOnFailure := default false (throwOnFailure options);
       this_validationKey := default "_validation" (validationKey options) |} in
  _ ← validateValidatorImplementations this;
  Returns this.

Fixpoint lookup_field (key : string) (fields : list (string * jsvalue)) : option jsvalue :=
  match fields with
  | [] => None
  | (k, v) :: rest => if String.eqb k key then Some v else lookup_field key rest
  end.

Definition extractContent (input : jsvalue) : string :=
  match input with
  | JString s => s
  | JObject _ fields =>
      match lookup_field "content" fields with
      | Some v => Js.toString v
      | None =>
          match lookup_field "text" fields with
          | Some v => Js.toString v
          | None => default "[object Object]" (Js.json_stringify input)
          end
      end
  | JArray _ _ | JObjectPrototype => default "[object Object]" (Js.json_stringify input)
  | _ => Js.toString input
  end.

(** [validateResponse(content, [validator])[0]]; reading [passed] of
    a missing first element would be a [TypeError]. *)
Definition first_result (results : list ValidationResult) : outcome ValidationResult :=
  match results with
  | result :: _ => Returns result
  | [] => Throws (JsTypeError "Cannot read properties of undefined (reading 'passed')")
  end.

(** [customValidator(content, validator)] for a member of
    [Object.prototype]: a call without receiver, of a string and an
    object.  A value that is no function cannot be called.  Of the
    functions, [Object] answers a wrapper of the string, [toString]
    the string [[object Undefined]] and [isPrototypeOf] the boolean
    [false]: none is a validation result, and what the code does with
    it is outside the model.  The other functions of
    [Object.prototype] convert the receiver to an object, and throw
    since there is none.  The texts are those of V8. *)
Definition call_member (member : jsvalue) : outcome ValidationResult :=
  match member with
  | JFunction name =>
      if String.eqb name "toLocaleString" then
        Throws (JsTypeError "Object.prototype.toLocaleString called on null or undefined")
      else if existsb (String.eqb name)
                ["__defineGetter__"; "__defineSetter__"; "hasOwnProperty";
                 "__lookupGetter__"; "__lookupSetter__"; "propertyIsEnumerable"; "valueOf"]
      then Throws (JsTypeError "Cannot convert undefined or null to object")
      else Unmodelled
  | _ => Throws (JsTypeError "customValidator is not a function")
  end.

(** The built-in evaluation of one validator:
    [validateResponse(content, [validator])[0]]. *)
Definition builtin (content : string) (validator : Validator) : outcome ValidationResult :=
  validateResponse content [validator] ≫= first_result.

(** [customValidator(content, validator)], for what the map answers. *)
Definition call_implementation (customValidator : ObjectPrototype.property CustomValidatorFn)
    (content : string) (validator : Validator) : outcome ValidationResult :=
  match customValidator with
  | ObjectPrototype.Own implementation => Returns (implementation content validator)
  | ObjectPrototype.Inherited member => call_member member
  | ObjectPrototype.Absent => Throws (JsTypeError "customValidator is not a function")
  end.

(** What [runValidation] computes for one enabled validator:
    [customValidator ? customValidator(content, validator)
                     : validateResponse(content, [validator])[0]]. *)
Definition dispatch (custom : gmap string CustomValidatorFn)
    (content : string) (validator : Validator) : outcome ValidationResult :=
  let customValidator := implementation_of custom (type validator) in
  if ObjectPrototype.truthy customValidator
  then call_implementation customValidator content validator
  else builtin content validator.

Fixpoint runValidation_from (custom : gmap string CustomValidatorFn)
    (content : string) (validators : list Validator)
    (results : list ValidationResult) : outcome (list ValidationResult) :=
  match validators with
  | [] => Returns results
  | validator :: rest =>
      if negb (enabled validator) then runValidation_from custom content rest results
      else
        result ← dispatch custom content validator;
        runValidation_from custom content rest (results ++ [result])
  end.

Definition runValidation (this : ValidationRunnable) (content : string)
    : outcome (list ValidationResult) :=
  runValidation_from (this_customValidators this) content (this_validators this) [].

(** [this.validators.find(v => v.type === r.validatorType)?.fail_on_violation]. *)
Definition is_critical (validators : list Validator) (r : ValidationResult) : bool :=
  match List.find (fun v => String.eqb (type v) (validatorType r)) validators with
  | Some v => truthy_flag (fail_on_violation v)
  | None => false
  end.

(** [invoke]; a rejected promise is a [Throws]. *)
Definition invoke (this : ValidationRunnable) (input : jsvalue) : outcome ValidatedOutput :=
  let content := extractContent input in
  results ← runValidation this content;
  let passed := allValidatorsPassed results in
  let failed := getFailedValidators results in
  let output :=
    {| content := input;
       validation := {| validation_passed := passed;
                        validation_results := results;
                        validation_failed := failed |} |} in
  if negb passed && this_throwOnFailure this then
    let criticalFailures := List.filter (is_critical (this_validators this)) failed in
    match criticalFailures with
    | first :: _ =>
        Throws (GuardrailViolationError
                  (message_or_default first) (validatorType first) (details first))
    | [] => Returns output
    end
  else Returns output.

Definition createValidationRunnable (validators : list Validator)
    (customValidators : option (gmap string CustomValidatorFn))
    : outcome ValidationRunnable :=
  new {| validators := validators; customValidators := customValidators;
         throwOnFailure := Some false; validationKey := None |}.

Definition createStrictValidationRunnable (validators : list Validator)
    (customValidators : option (gmap string CustomValidatorFn))
    : outcome ValidationRunnable :=
  new {| validators := validators; customValidators := customValidators;
         throwOnFailure := Some true; validationKey := None |}.

(** An enabled descriptor of a type that is not built in, for which
    the implementation map owns no entry and [Object.prototype] has no
    member. *)
Definition unresolved (custom : gmap string CustomValidatorFn) (v : Validator) : bool :=
  enabled v && negb (isOOTBValidator (type v))
  && match custom !! type v with Some _ => false | None => true end
  && negb (existsb (String.eqb (type v)) ObjectPrototype.names).



(** *** Descriptors and runnables of the examples *)

Definition always_passes : CustomValidatorFn := fun _ validator =>
  {| passed := true; validatorType := type validator;
     message := None; details := None |}.

Definition runnable_of (vs : list Validator)
    (custom : gmap string CustomValidatorFn) (throw : bool) : ValidationRunnable :=
  {| this_validators := vs; this_customValidators := custom;
     this_throwOnFailure := throw; this_validationKey := "_validation" |}.

Definition always_fails (text : string) : CustomValidatorFn := fun _ validator =>
  {| passed := false; validatorType := type validator;
     message := Some text; details := None |}.

End ValidationRunnable.

(** ** template-engine.ts *)

Module TemplateEngine.

(** [TemplateEngine] (types.ts): the configured placeholder syntax,
    for instance [{{variable}}]. *)
Record TemplateEngine : Type := {
  version : string;
  syntax : string
}.

Record VariableValidation : Type := {
  pattern : option string;
  min_length : option Z;
  max_length : option Z;
  minimum : option Z;
  maximum : option Z;
  enum : option (list jsvalue)
}.

(** The interface [Variable] of types.ts ([Variable] is a reserved word
    here); [type] is the declared type name. *)
Record VariableDefinition : Type := {
  name : string;
  type : string;
  required : bool;
  default_value : option jsvalue;
  validation : option VariableValidation
}.

Record RenderOptions : Type := {
  variables : option (gmap string jsvalue);
  fragments : option (gmap string string);
  validate : option bool;
  allowUndefined : option bool
}.

(** [values[key]]: the property that the object owns, else the member
    of [Object.prototype], else [undefined]. *)
Definition get (values : gmap string jsvalue) (key : string) : jsvalue :=
  ObjectPrototype.read (values !! key) key.

Definition is_undefined (v : jsvalue) : bool :=
  match v with JUndefined => true | _ => false end.

(** *** The placeholder pattern *)

(** The regular expression of [getSyntaxPattern] is a sequence of
    literal code units and of name groups (a capturing group for a
    letter or underscore followed by letters, digits and underscores):
    the source escapes every syntax character of the configured
    syntax, so that each of its code units stands for itself, and
    then puts a name group in the place of every occurrence of the
    word variable, in any letter case. *)
Inductive pitem : Type :=
| PLit (c : ascii)
| PName.

Fixpoint prefixb_ci (t s : string) : bool :=
  match t, s with
  | EmptyString, _ => true
  | String a t', String b s' => Str.eqb_ci a b && prefixb_ci t' s'
  | String _ _, EmptyString => false
  end.

Fixpoint syntax_items (skip : nat) (s : string) : list pitem :=
  match s with
  | EmptyString => []
  | String c s' =>
      match skip with
      | S k => syntax_items k s'
      | O =>
          if prefixb_ci "variable" s then PName :: syntax_items 7 s'
          else PLit c :: syntax_items 0 s'
      end
  end.

Definition getSyntaxPattern (engine : TemplateEngine) : list pitem :=
  syntax_items 0 (syntax engine).

(** The ways a name group can match at the front of [s], in the order
    the greedy star tries them: longest first. *)
Fixpoint name_tails (s : string) : list (string * string) :=
  match s with
  | String c s' =>
      if Str.is_name_char c
      then map (fun p => (String c (fst p), snd p)) (name_tails s') ++ [(EmptyString, s)]
      else [(EmptyString, s)]
  | EmptyString => [(EmptyString, EmptyString)]
  end.

Definition name_splits (s : string) : list (string * string) :=
  match s with
  | String c s' =>
      if Str.is_name_start c
      then map (fun p => (String c (fst p), snd p)) (name_tails s')
      else []
  | EmptyString => []
  end.

Fixpoint first_some {A B : Type} (f : A -> option B) (l : list A) : option B :=
  match l with
  | [] => None
  | x :: l' => match f x with Some y => Some y | None => first_some f l' end
  end.

(** The first match of the pattern at the front of [s], with
    backtracking: the captured names and the rest of [s]. *)
Fixpoint match_items (items : list pitem) (s : string) : option (list string * string) :=
  match items with
  | [] => Some ([], s)
  | PLit a :: items' =>
      match s with
      | String c s' => if Ascii.eqb a c then match_items items' s' else None
      | EmptyString => None
      end
  | PName :: items' =>
      first_some
        (fun p =>
           match match_items items' (snd p) with
           | Some (captures, rest) => Some (fst p :: captures, rest)
           | None => None
           end)
        (name_splits s)
  end.

Fixpoint take (n : nat) (s : string) : string :=
  match n, s with
  | S n', String c s' => String c (take n' s')
  | _, _ => EmptyString
  end.

(** What a global [replace] sees in its subject: code units that stay
    and the successive matches, left to right. *)
Inductive segment : Type :=
| Text (c : ascii)
| Match (matched : string) (captures : list string) (offset : nat).

(** [scan items s offset skip]: [s] is the subject from [offset] on;
    its first [skip] code units belong to the previous match.  After
    an empty match the search resumes one code unit later. *)
Fixpoint scan (items : list pitem) (s : string) (offset skip : nat) : list segment :=
  match s with
  | EmptyString =>
      match skip, match_items items EmptyString with
      | O, Some (captures, _) => [Match EmptyString captures offset]
      | _, _ => []
      end
  | String c s' =>
      match skip with
      | S k => scan items s' (S offset) k
      | O =>
          match match_items items s with
          | Some (captures, rest) =>
              let len := (String.length s - String.length rest)%nat in
              Match (take len s) captures offset ::
                match len with
                | O => Text c :: scan items s' (S offset) 0
                | S k => scan items s' (S offset) k
                end
          | None => Text c :: scan items s' (S offset) 0
          end
      end
  end.

(** The second argument of the replacement callback: the first
    captured name, or the offset of the match when the pattern has no
    group. *)
Definition callback_name (captures : list string) (offset : nat) : string :=
  match captures with
  | name :: _ => name
  | [] => Str.of_nat offset
  end.

(** *** Fragments *)

(** [fragments[name]]: a fragment of the map, or a member that the
    map inherits from [Object.prototype]. *)
Definition fragment_value (fragments : gmap string string) (name : string) : jsvalue :=
  ObjectPrototype.read (JString <$> fragments !! name) name.

(** One [result.replace(pattern, ...)] of [substituteFragments]: the
    new text and whether the callback set [hasMore].  What the
    callback returns is converted to a string. *)
Fixpoint replace_fragments (fragments : gmap string string) (segments : list segment)
    : string * bool :=
  match segments with
  | [] => (EmptyString, false)
  | Text c :: rest =>
      let r := replace_fragments fragments rest in (String c (fst r), snd r)
  | Match matched captures offset :: rest =>
      let r := replace_fragments fragments rest in
      let fragment := fragment_value fragments (callback_name captures offset) in
      if negb (is_undefined fragment) then (Js.toString fragment +:+ fst r, true)
      else (matched +:+ fst r, snd r)
  end.

Definition maxDepth : nat := 10.

(** The variables of the loop of [substituteFragments]. *)
Record loop_state : Type := {
  result : string;
  depth : nat;
  hasMore : bool
}.

Definition loop_condition (st : loop_state) : bool :=
  hasMore st && (depth st <? maxDepth)%nat.

(** One pass over [text]: the text it produces and whether it
    replaced a fragment. *)
Definition pass (engine : TemplateEngine) (fragments : gmap string string)
    (text : string) : string * bool :=
  replace_fragments fragments (scan (getSyntaxPattern engine) text 0 0).

Definition loop_body (engine : TemplateEngine) (fragments : gmap string string)
    (st : loop_state) : loop_state :=
  let r := pass engine fragments (result st) in
  {| result := fst r; depth := S (depth st); hasMore := snd r |}.

(** The [while] loop, unrolled at most [fuel] times. *)
Fixpoint while_loop (fuel : nat) (engine : TemplateEngine)
    (fragments : gmap string string) (st : loop_state) : loop_state :=
  match fuel with
  | O => st
  | S fuel' =>
      if loop_condition st
      then while_loop fuel' engine fragments (loop_body engine fragments st)
      else st
  end.

Definition depth_error : exn :=
  TemplateError "Maximum fragment substitution depth exceeded (possible circular reference)".

(** The state in which [substituteFragments] leaves its loop. *)
Definition fragments_loop (engine : TemplateEngine) (template : string)
    (fragments : gmap string string) : loop_state :=
  while_loop maxDepth engine fragments
    {| result := template; depth := 0; hasMore := true |}.

Definition substituteFragments (engine : TemplateEngine) (template : string)
    (fragments : gmap string string) : outcome string :=
  let st := fragments_loop engine template fragments in
  if (maxDepth <=? depth st)%nat then Throws depth_error
  else Returns (result st).

(** *** Variables *)

Definition valueToString (value : jsvalue) : string :=
  match value with
  | JString s => s
  | JNumber _ | JNaN | JBool _ => Js.toString value
  | JArray _ _ | JObject _ _ | JObjectPrototype =>
      default (Js.toString value) (Js.json_stringify value)
  | JNull | JUndefined | JFunction _ => Js.toString value
  end.

Definition undefined_variable (name : string) : exn :=
  TemplateError ("Variable '" +:+ name +:+ "' is not defined").

Fixpoint replace_variables (variables : gmap string jsvalue) (allowUndefined : bool)
    (segments : list segment) : outcome string :=
  match segments with
  | [] => Returns EmptyString
  | Text c :: rest =>
      out ← replace_variables variables allowUndefined rest;
      Returns (String c out)
  | Match matched captures offset :: rest =>
      let name := callback_name captures offset in
      let value := get variables name in
      piece ← (if is_undefined value then
                 if allowUndefined then Returns matched
                 else Throws (undefined_variable name)
               else Returns (valueToString value));
      out ← replace_variables variables allowUndefined rest;
      Returns (piece +:+ out)
  end.

Definition substituteVariables (engine : TemplateEngine) (template : string)
    (variables : gmap string jsvalue) (allowUndefined : bool) : outcome string :=
  replace_variables variables allowUndefined (scan (getSyntaxPattern engine) template 0 0).

Definition no_options : RenderOptions :=
  {| variables := None; fragments := None; validate := None; allowUndefined := None |}.

Definition render (engine : TemplateEngine) (template : string) (options : RenderOptions)
    : outcome string :=
  let variables := default ∅ (variables options) in
  let fragments := default ∅ (fragments options) in
  let allowUndefined := default false (allowUndefined options) in
  result ← substituteFragments engine template fragments;
  substituteVariables engine result variables allowUndefined.

(** *** Validation of the variables *)

Definition validateType (name : string) (value : jsvalue) (expectedType : string)
    : outcome unit :=
  let actualType := Js.typeof value in
  let mismatch (article : string) :=
    Throws (ValidationError
              ("Variable '" +:+ name +:+ "' must be " +:+ article +:+ ", got " +:+ actualType)) in
  if String.eqb expectedType "string" then
    if negb (String.eqb actualType "string") then mismatch "a string" else Returns tt
  else if String.eqb expectedType "number" then
    if negb (String.eqb actualType "number") then mismatch "a number" else Returns tt
  else if String.eqb expectedType "boolean" then
    if negb (String.eqb actualType "boolean") then mismatch "a boolean" else Returns tt
  else if String.eqb expectedType "object" then
    if negb (String.eqb actualType "object") || match value with JNull => true | _ => false end
       || Js.isArray value
    then mismatch "an object" else Returns tt
  else if String.eqb expectedType "array" then
    if negb (Js.isArray value) then mismatch "an array" else Returns tt
  else Returns tt.

Definition validateStringRules (name : string) (value : string)
    (validation : VariableValidation) : outcome unit :=
  _ ← match Validators.truthy_string (pattern validation) with
      | Some pattern =>
          matches ← RegExp.test pattern EmptyString value;
          if negb matches then
            Throws (ValidationError
                      ("Variable '" +:+ name +:+ "' does not match pattern " +:+ pattern))
          else Returns tt
      | None => Returns tt
      end;
  let length := Z.of_nat (String.length value) in
  _ ← match min_length validation with
      | Some min_length =>
          if length <? min_length then
            Throws (ValidationError
                      ("Variable '" +:+ name +:+ "' must be at least " +:+ Str.of_Z min_length
                       +:+ " characters, got " +:+ Str.of_Z length))
          else Returns tt
      | None => Returns tt
      end;
  match max_length validation with
  | Some max_length =>
      if max_length <? length then
        Throws (ValidationError
                  ("Variable '" +:+ name +:+ "' must be at most " +:+ Str.of_Z max_length
                   +:+ " characters, got " +:+ Str.of_Z length))
      else Returns tt
  | None => Returns tt
  end.

(** [value] is a number: an integer or [NaN]. *)
Definition validateNumberRules (name : string) (value : jsvalue)
    (validation : VariableValidation) : outcome unit :=
  _ ← match minimum validation with
      | Some minimum =>
          if Js.lt value (JNumber minimum) then
            Throws (ValidationError
                      ("Variable '" +:+ name +:+ "' must be at least " +:+ Str.of_Z minimum
                       +:+ ", got " +:+ Js.toString value))
          else Returns tt
      | None => Returns tt
      end;
  match maximum validation with
  | Some maximum =>
      if Js.gt value (JNumber maximum) then
        Throws (ValidationError
                  ("Variable '" +:+ name +:+ "' must be at most " +:+ Str.of_Z maximum
                   +:+ ", got " +:+ Js.toString value))
      else Returns tt
  | None => Returns tt
  end.

Definition validateEnumRule (name : string) (value : jsvalue) (enumValues : list jsvalue)
    : outcome unit :=
  if negb (Js.array_includes enumValues value) then
    Throws (ValidationError
              ("Variable '" +:+ name +:+ "' must be one of: " +:+ Js.array_join ", " enumValues))
  else Returns tt.

Definition validateRules (name : string) (value : jsvalue)
    (validation : VariableValidation) (type : string) : outcome unit :=
  _ ← match value with
      | JString s =>
          if String.eqb type "string" then validateStringRules name s validation
          else Returns tt
      | _ => Returns tt
      end;
  _ ← match value with
      | JNumber _ | JNaN =>
          if String.eqb type "number" then validateNumberRules name value validation
          else Returns tt
      | _ => Returns tt
      end;
  match enum validation with
  | Some enumValues => validateEnumRule name value enumValues
  | None => Returns tt
  end.

(** The body of the loop of [validateVariables] for one definition. *)
Definition checkVariable (varDef : VariableDefinition) (values : gmap string jsvalue)
    : outcome unit :=
  let value := get values (name varDef) in
  if required varDef && is_undefined value then
    Throws (ValidationError ("Required variable '" +:+ name varDef +:+ "' is missing"))
  else if is_undefined value then Returns tt
  else
    _ ← validateType (name varDef) value (type varDef);
    match validation varDef with
    | Some rules => validateRules (name varDef) value rules (type varDef)
    | None => Returns tt
    end.

Fixpoint validateVariables_from (variableDefinitions : list VariableDefinition)
    (values : gmap string jsvalue) : outcome unit :=
  match variableDefinitions with
  | [] => Returns tt
  | varDef :: rest =>
      _ ← checkVariable varDef values;
      validateVariables_from rest values
  end.

Definition validateVariables (variableDefinitions : option (list VariableDefinition))
    (values : gmap string jsvalue) : outcome unit :=
  match variableDefinitions with
  | None => Returns tt
  | Some defs => validateVariables_from defs values
  end.

Fixpoint applyDefaults_from (variableDefinitions : list VariableDefinition)
    (result : gmap string jsvalue) : gmap string jsvalue :=
  match variableDefinitions with
  | [] => result
  | varDef :: rest =>
      applyDefaults_from rest
        (match default_value varDef with
         | Some d =>
             if is_undefined (get result (name varDef)) && negb (is_undefined d)
             then <[name varDef := d]> result
             else result
         | None => result
         end)
  end.

Definition applyDefaults (variableDefinitions : option (list VariableDefinition))
    (values : gmap string jsvalue) : gmap string jsvalue :=
  match variableDefinitions with
  | None => values
  | Some defs => applyDefaults_from defs values
  end.

(** *** Placeholder tokens *)

Fixpoint all_name_chars (s : string) : bool :=
  match s with
  | EmptyString => true
  | String c s' => Str.is_name_char c && all_name_chars s'
  end.

(** A name: a letter or an underscore, then letters, digits and
    underscores. *)
Definition is_name (s : string) : bool :=
  match s with
  | String c s' => Str.is_name_start c && all_name_chars s'
  | EmptyString => false
  end.

(** The strings a pattern denotes: its literal code units in order,
    with a name in the place of each name group. *)
Inductive matches_items : list pitem -> string -> Prop :=
| matches_nil : matches_items [] EmptyString
| matches_lit c items s :
    matches_items items s -> matches_items (PLit c :: items) (String c s)
| matches_name n items s :
    is_name n = true -> matches_items items s ->
    matches_items (PName :: items) (n +:+ s).

(** A placeholder token of the engine, and a text that contains one. *)
Definition is_placeholder (engine : TemplateEngine) (token : string) : Prop :=
  matches_items (getSyntaxPattern engine) token.

Definition has_placeholder (engine : TemplateEngine) (s : string) : Prop :=
  exists pre token post, s = pre +:+ token +:+ post /\ is_placeholder engine token.

Definition is_match (seg : segment) : bool :=
  match seg with Match _ _ _ => true | Text _ => false end.

(** The engine of the examples: the default syntax. *)
Definition default_engine : TemplateEngine :=
  {| version := "v1"; syntax := "{{variable}}" |}.

(** *** Passes and inclusion of fragments *)

(** The text after [n] passes, and whether the pass that follows
    replaces a fragment. *)
Fixpoint after_passes (n : nat) (engine : TemplateEngine)
    (fragments : gmap string string) (text : string) : string :=
  match n with
  | O => text
  | S n' => after_passes n' engine fragments (fst (pass engine fragments text))
  end.

Definition replaces_after (n : nat) (engine : TemplateEngine)
    (fragments : gmap string string) (text : string) : bool :=
  snd (pass engine fragments (after_passes n engine fragments text)).

(** The pattern of the default syntax. *)
Definition default_items : list pitem :=
  [PLit "{"; PLit "{"; PName; PLit "}"; PLit "}"]%char.

(** The placeholder of [name] in the default syntax. *)
Definition placeholder_of (name : string) : string := "{{" +:+ name +:+ "}}".

(** The text of the fragment [a] contains the placeholder of [b]. *)
Definition includes (fragments : gmap string string) (a b : string) : Prop :=
  is_name b = true
  /\ exists text, fragments !! a = Some text /\ Str.occurs (placeholder_of b) text.

(** [a] includes itself, directly or through other fragments. *)
Definition includes_itself (fragments : gmap string string) (a : string) : Prop :=
  tc (includes fragments) a a.

Fixpoint drop (n : nat) (s : string) : string :=
  match n, s with
  | S n', String _ s' => drop n' s'
  | _, _ => s
  end.

(** The text a list of segments stands for. *)
Fixpoint segments_text (segments : list segment) : string :=
  match segments with
  | [] => EmptyString
  | Text c :: rest => String c (segments_text rest)
  | Match matched _ _ :: rest => matched +:+ segments_text rest
  end.


(** Two fragments that include each other. *)
Definition two_cycle : gmap string string :=
  list_to_map [("a", "x{{b}}"); ("b", "{{a}}")].






(** *** Names of the variables of a template *)

(** [Set.prototype.add]: a set lists its values in insertion order. *)
Definition set_add (name : string) (variables : list string) : list string :=
  if existsb (String.eqb name) variables then variables else variables ++ [name].

(** The loop of [extractVariables] over the matches: [match[1]] is the
    first captured name, and is missing when the pattern has no
    group. *)
Fixpoint extract_names (segments : list segment) (variables : list string) : list string :=
  match segments with
  | [] => variables
  | Text _ :: rest => extract_names rest variables
  | Match _ captures _ :: rest =>
      match captures with
      | String c name :: _ => extract_names rest (set_add (String c name) variables)
      | _ => extract_names rest variables
      end
  end.

Definition extractVariables (engine : TemplateEngine) (template : string) : list string :=
  extract_names (scan (getSyntaxPattern engine) template 0 0) [].

(** The first capture of a match, when it is not empty. *)
Definition first_capture (seg : segment) : option string :=
  match seg with
  | Match _ (String c name :: _) _ => Some (String c name)
  | _ => None
  end.

(** The configured syntax holds the word variable: the pattern has a
    name group. *)
Definition has_name_group (items : list pitem) : bool :=
  existsb (fun item => match item with PName => true | PLit _ => false end) items.

(** The default that a list of definitions holds for [key]: that of
    the first definition of that name whose default is not
    [undefined]. *)
Fixpoint first_default (variableDefinitions : list VariableDefinition) (key : string)
    : option jsvalue :=
  match variableDefinitions with
  | [] => None
  | varDef :: rest =>
      match default_value varDef with
      | Some d =>
          if String.eqb (name varDef) key && negb (is_undefined d) then Some d
          else first_default rest key
      | None => first_default rest key
      end
  end.

(** The options of a rendering with the given maps. *)
Definition render_with (variables : gmap string jsvalue) (fragments : gmap string string)
    (allowUndefined : bool) : RenderOptions :=
  {| variables := Some variables; fragments := Some fragments;
     validate := None; allowUndefined := Some allowUndefined |}.

(** *** What the validation of the variables accepts *)

(** The values of a declared type; a type name that is not one of
    the five admits every value. *)
Definition has_type (type : string) (value : jsvalue) : bool :=
  if String.eqb type "string" then match value with JString _ => true | _ => false end
  else if String.eqb type "number" then
    match value with JNumber _ | JNaN => true | _ => false end
  else if String.eqb type "boolean" then match value with JBool _ => true | _ => false end
  else if String.eqb type "object" then
    match value with JObject _ _ | JObjectPrototype => true | _ => false end
  else if String.eqb type "array" then match value with JArray _ _ => true | _ => false end
  else true.

(** A value that keeps the rules of a variable of the declared type:
    pattern and lengths for a string declared as a string, bounds for
    a number declared as a number, and the enumeration for all. *)
Definition satisfies (rules : VariableValidation) (type : string) (value : jsvalue) : Prop :=
  (forall s, type = "string" -> value = JString s ->
     (forall p, Validators.truthy_string (pattern rules) = Some p ->
                RegExp.test p EmptyString s = Returns true)
     /\ (forall n, min_length rules = Some n -> n <= Z.of_nat (String.length s))
     /\ (forall n, max_length rules = Some n -> Z.of_nat (String.length s) <= n))
  /\ (forall x, type = "number" -> value = JNumber x ->
        (forall n, minimum rules = Some n -> n <= x)
        /\ (forall n, maximum rules = Some n -> x <= n))
  /\ (forall allowed, enum rules = Some allowed -> Js.array_includes allowed value = true).

End TemplateEngine.

(** ** Objects and maps of the platform *)

(** An object as the list of its own enumerable properties with string
    keys, in creation order; no key occurs twice in the list of an
    object that the operations below built. *)
Module JsObject.

Section Properties.

Context {A : Type}.

(** [o[key]]. *)
Fixpoint get (o : list (string * A)) (key : string) : option A :=
  match o with
  | [] => None
  | (k, v) :: rest => if String.eqb k key then Some v else get rest key
  end.

(** [o[key] = v]: a property that exists keeps its place. *)
Fixpoint set (o : list (string * A)) (key : string) (v : A) : list (string * A) :=
  match o with
  | [] => [(key, v)]
  | (k, x) :: rest =>
      if String.eqb k key then (k, v) :: rest else (k, x) :: set rest key v
  end.

(** [Object.fromEntries]. *)
Definition fromEntries (entries : list (string * A)) : list (string * A) :=
  fold_left (fun o entry => set o entry.1 entry.2) entries [].

Fixpoint digits (s : string) (acc : N) : option N :=
  match s with
  | EmptyString => Some acc
  | String c s' =>
      if Str.is_digit c then digits s' (10 * acc + N.of_nat (Str.code c - 48))%N else None
  end.

(** An array index: the canonical decimal form of an integer below
    [2^32 - 1]. *)
Definition array_index (key : string) : option N :=
  match key with
  | EmptyString => None
  | String c rest =>
      if (Str.code c =? 48)%nat && negb (String.eqb rest EmptyString) then None
      else
        match digits key 0 with
        | Some n => if (n <? 4294967295)%N then Some n else None
        | None => None
        end
  end.

Fixpoint insert_indexed (n : N) (p : string * A) (sorted : list (N * (string * A)))
    : list (N * (string * A)) :=
  match sorted with
  | [] => [(n, p)]
  | (m, q) :: rest =>
      if (n <? m)%N then (n, p) :: sorted else (m, q) :: insert_indexed n p rest
  end.

(** The properties whose key is an array index, in ascending order of
    the index. *)
Fixpoint indexed (o : list (string * A)) : list (N * (string * A)) :=
  match o with
  | [] => []
  | (k, v) :: rest =>
      match array_index k with
      | Some n => insert_indexed n (k, v) (indexed rest)
      | None => indexed rest
      end
  end.

Definition named (o : list (string * A)) : list (string * A) :=
  List.filter (fun p => match array_index p.1 with Some _ => false | None => true end) o.

(** The order in which the properties are enumerated: array indices in
    ascending order, then the other keys in creation order. *)
Definition ownProperties (o : list (string * A)) : list (string * A) :=
  map snd (indexed o) ++ named o.

(** [Object.keys] and [Object.values]. *)
Definition keys (o : list (string * A)) : list string := map fst (ownProperties o).
Definition values (o : list (string * A)) : list A := map snd (ownProperties o).

End Properties.

End JsObject.

(** ** tools.ts *)

Module Tools.

(** The interface [Tool] of types.ts; [parameters] is copied, never
    read. *)
Record Tool : Type := {
  name : string;
  description : string;
  parameters : option jsvalue
}.

(** [LangChainTool]: the three properties are copied from what the
    code takes for a tool, and are [undefined] where that has none. *)
Record LangChainTool : Type := {
  lc_name : option string;
  lc_description : option string;
  lc_parameters : option jsvalue
}.

Record ToolPolicy : Type := {
  tool_choice : option string;
  max_rounds : option Z;
  max_tool_calls_per_turn : option Z;
  blocklist : option (list string)
}.

(** What the code holds for a tool: a property of the object of
    tools, a [Tool], or a member of [Object.prototype] that the object
    answered under the name of an inherited key. *)
Abbreviation found_tool := (ObjectPrototype.property Tool).

(** [tool.name], [tool.description] and [tool.parameters]: a function
    has a name, and [Object.prototype] none of the three. *)
Definition tool_name (tool : found_tool) : option string :=
  match tool with
  | ObjectPrototype.Own tool => Some (name tool)
  | ObjectPrototype.Inherited (JFunction name) => Some name
  | _ => None
  end.

Definition tool_description (tool : found_tool) : option string :=
  match tool with
  | ObjectPrototype.Own tool => Some (description tool)
  | _ => None
  end.

Definition tool_parameters (tool : found_tool) : option jsvalue :=
  match tool with
  | ObjectPrototype.Own tool => parameters tool
  | _ => None
  end.

Definition convertTool (tool : found_tool) : LangChainTool :=
  {| lc_name := tool_name tool; lc_description := tool_description tool;
     lc_parameters := tool_parameters tool |}.

Definition convertTools (tools : list (string * found_tool)) : list LangChainTool :=
  map convertTool (JsObject.values tools).

(** An object of tools, as [convertTools] takes it. *)
Definition declared (tools : list (string * Tool)) : list (string * found_tool) :=
  map (fun entry => (entry.1, ObjectPrototype.Own entry.2)) tools.

(** [policy?.blocklist && policy.blocklist.length > 0]: the list that
    applies. *)
Definition active_blocklist (policy : option ToolPolicy) : list string :=
  match policy with
  | Some p => default [] (blocklist p)
  | None => []
  end.

(** [blocklist.includes(tool.name)], for a list of strings. *)
Definition blocked_by (blocked : list string) (tool : found_tool) : bool :=
  match tool_name tool with
  | Some name => existsb (String.eqb name) blocked
  | None => false
  end.

(** The key that [Object.fromEntries] makes of [tool.name]. *)
Definition entry_key (tool : found_tool) : string :=
  default "undefined" (tool_name tool).

Definition filterToolsForPrompt (allTools : list (string * Tool))
    (promptTools : option (list string)) (policy : option ToolPolicy) : list LangChainTool :=
  match promptTools with
  | None | Some [] => []
  | Some names =>
      let allowedTools :=
        List.filter (fun tool => negb (ObjectPrototype.is_undefined tool))
          (map (fun name => ObjectPrototype.lookup (JsObject.get allTools name) name) names) in
      let allowedTools :=
        match active_blocklist policy with
        | [] => allowedTools
        | blocked => List.filter (fun tool => negb (blocked_by blocked tool)) allowedTools
        end in
      convertTools (JsObject.fromEntries (map (fun tool => (entry_key tool, tool)) allowedTools))
  end.

Definition getToolChoice (policy : option ToolPolicy) : string :=
  match policy with
  | Some p =>
      match Validators.truthy_string (tool_choice p) with
      | Some choice => choice
      | None => "auto"
      end
  | None => "auto"
  end.

(** [n || d] for an optional number. *)
Definition or_default (n : option Z) (d : Z) : Z :=
  match n with
  | Some 0 | None => d
  | Some m => m
  end.

(** The state of a [ToolExecutionManager]. *)
Record ToolExecutionManager : Type := {
  policy : ToolPolicy;
  roundCount : Z;
  callCount : Z
}.

Definition default_policy : ToolPolicy :=
  {| tool_choice := Some "auto"; max_rounds := Some 5;
     max_tool_calls_per_turn := Some 10; blocklist := None |}.

Definition new (policy : option ToolPolicy) : ToolExecutionManager :=
  {| policy := default default_policy policy; roundCount := 0; callCount := 0 |}.

Definition maxRounds (this : ToolExecutionManager) : Z :=
  or_default (max_rounds (policy this)) 5.

Definition maxCalls (this : ToolExecutionManager) : Z :=
  or_default (max_tool_calls_per_turn (policy this)) 10.

Definition canExecuteRound (this : ToolExecutionManager) : bool :=
  roundCount this <? maxRounds this.

Definition canExecuteCall (this : ToolExecutionManager) : bool :=
  callCount this <? maxCalls this.

Definition startRound (this : ToolExecutionManager) : ToolExecutionManager :=
  {| policy := policy this; roundCount := roundCount this + 1; callCount := callCount this |}.

Definition recordCall (this : ToolExecutionManager) : ToolExecutionManager :=
  {| policy := policy this; roundCount := roundCount this; callCount := callCount this + 1 |}.

Definition reset (this : ToolExecutionManager) : ToolExecutionManager :=
  {| policy := policy this; roundCount := 0; callCount := 0 |}.

Record Status : Type := {
  status_roundCount : Z;
  status_callCount : Z;
  status_maxRounds : Z;
  status_maxCalls : Z
}.

Definition getStatus (this : ToolExecutionManager) : Status :=
  {| status_roundCount := roundCount this; status_callCount := callCount this;
     status_maxRounds := maxRounds this; status_maxCalls := maxCalls this |}.

(** The calls that change a manager, and a run of them in order. *)
Inductive call : Type := StartRound | RecordCall | Reset.

Definition perform (this : ToolExecutionManager) (c : call) : ToolExecutionManager :=
  match c with
  | StartRound => startRound this
  | RecordCall => recordCall this
  | Reset => reset this
  end.

Definition run (calls : list call) (this : ToolExecutionManager) : ToolExecutionManager :=
  fold_left perform calls this.

(** The numbers of [startRound] and of [recordCall] among the calls. *)
Definition rounds_in (calls : list call) : Z :=
  Z.of_nat (length (List.filter (fun c => match c with StartRound => true | _ => false end) calls)).

Definition calls_in (calls : list call) : Z :=
  Z.of_nat (length (List.filter (fun c => match c with RecordCall => true | _ => false end) calls)).

Definition is_reset (c : call) : bool :=
  match c with Reset => true | _ => false end.

End Tools.

(** ** multimodal.ts *)

Module Multimodal.

(** The interfaces of types.ts.  [mime_type] is declared as a string;
    the code allows for its absence. *)
Record MediaReference : Type := {
  file_path : option string;
  url : option string;
  base64 : option string;
  mime_type : option string;
  detail : option string;
  caption : option string
}.

Record ContentPart : Type := {
  type : string;
  text : option string;
  media : option MediaReference
}.

Record ImageConfig : Type := {
  image_allowed_formats : option (list string);
  image_require_caption : option bool;
  max_images_per_msg : option Z
}.

(** The configuration of audio, video and documents.  The interfaces
    declare no [require_caption] for them, but the code reads it from
    the configuration of any media type. *)
Record FormatConfig : Type := {
  allowed_formats : option (list string);
  require_caption : option bool
}.

(** [custom] holds the configurations of the media types that the
    index signature allows. *)
Record MediaConfig : Type := {
  enabled : bool;
  supported_types : option (list string);
  image : option ImageConfig;
  audio : option FormatConfig;
  video : option FormatConfig;
  document : option FormatConfig;
  custom : list (string * jsvalue)
}.

(** The content blocks and the message content of the host library
    that the module produces. *)
Inductive ContentBlock : Type :=
| TextBlock (text : string)
| ImageUrlBlock (url : string) (detail : string).

Inductive MessageContent : Type :=
| PlainText (text : string)
| Blocks (blocks : list ContentBlock).

(** A call returns or throws a [MediaValidationError]. *)
Inductive result (A : Type) : Type :=
| Ok (a : A)
| MediaValidationError (message : string).

Arguments Ok {A} a.
Arguments MediaValidationError {A} message.

Definition and_then {A B : Type} (r : result A) (f : A -> result B) : result B :=
  match r with
  | Ok a => f a
  | MediaValidationError message => MediaValidationError message
  end.

Abbreviation truthy := Js.truthy.

Definition convertImageMedia (media : MediaReference) : result ContentBlock :=
  let detail := default "auto" (Validators.truthy_string (detail media)) in
  match Validators.truthy_string (url media) with
  | Some url => Ok (ImageUrlBlock url detail)
  | None =>
      match Validators.truthy_string (base64 media) with
      | Some data =>
          Ok (ImageUrlBlock
                ("data:" +:+ default "undefined" (mime_type media) +:+ ";base64," +:+ data)
                detail)
      | None => MediaValidationError "Image media must have either url or base64 data"
      end
  end.

Definition convertContentPart (part : ContentPart) : result ContentBlock :=
  match String.eqb (type part) "text", Validators.truthy_string (text part) with
  | true, Some text => Ok (TextBlock text)
  | _, _ =>
      match String.eqb (type part) "image", media part with
      | true, Some media => convertImageMedia media
      | _, _ =>
          Ok (TextBlock
                ("[" +:+ type part +:+ " content]" +:+
                 match media part with
                 | Some media =>
                     match Validators.truthy_string (caption media) with
                     | Some caption => ": " +:+ caption
                     | None => EmptyString
                     end
                 | None => EmptyString
                 end))
      end
  end.

(** [parts.map(convertContentPart)]: the first part that throws ends
    the call. *)
Fixpoint convertAll (parts : list ContentPart) : result (list ContentBlock) :=
  match parts with
  | [] => Ok []
  | part :: rest =>
      and_then (convertContentPart part) (fun block =>
      and_then (convertAll rest) (fun blocks => Ok (block :: blocks)))
  end.

Definition createMultimodalContent (parts : list ContentPart) : result MessageContent :=
  match parts with
  | [part] =>
      if String.eqb (type part) "text"
      then Ok (PlainText (default EmptyString (Validators.truthy_string (text part))))
      else and_then (convertAll parts) (fun blocks => Ok (Blocks blocks))
  | _ => and_then (convertAll parts) (fun blocks => Ok (Blocks blocks))
  end.

(** [mime_type.split('/')[1]]: what stands between the first slash
    and the next one. *)
Fixpoint after_slash (s : string) : option string :=
  match s with
  | EmptyString => None
  | String c s' => if Ascii.eqb c "/" then Some s' else after_slash s'
  end.

Fixpoint until_slash (s : string) : string :=
  match s with
  | EmptyString => EmptyString
  | String c s' => if Ascii.eqb c "/" then EmptyString else String c (until_slash s')
  end.

Definition format_of (mime_type : string) : option string :=
  match after_slash mime_type with
  | Some rest => Some (until_slash rest)
  | None => None
  end.

(** The four validators of a format differ by the first word of their
    message; they run after the MIME type was found to hold a slash. *)
Definition validateFormat (kind : string) (media : MediaReference)
    (allowed_formats : option (list string)) : result unit :=
  match allowed_formats with
  | Some allowed =>
      let format := format_of (default EmptyString (mime_type media)) in
      if match format with
         | Some f => existsb (String.eqb f) allowed
         | None => false
         end
      then Ok tt
      else MediaValidationError
             (kind +:+ " format '" +:+ default "undefined" format +:+ "' not allowed. Allowed: "
              +:+ Str.join ", " allowed)
  | None => Ok tt
  end.

Definition validateImageMedia (media : MediaReference) (config : ImageConfig) : result unit :=
  validateFormat "Image" media (image_allowed_formats config).

Definition validateAudioMedia (media : MediaReference) (config : FormatConfig) : result unit :=
  validateFormat "Audio" media (allowed_formats config).

Definition validateVideoMedia (media : MediaReference) (config : FormatConfig) : result unit :=
  validateFormat "Video" media (allowed_formats config).

Definition validateDocumentMedia (media : MediaReference) (config : FormatConfig) : result unit :=
  validateFormat "Document" media (allowed_formats config).

(** [typeConfig && typeof typeConfig === 'object' && 'require_caption'
    in typeConfig && typeConfig.require_caption] for [config[type]]:
    the declared keys first, then the custom ones. *)
Definition requires_caption (type : string) (config : MediaConfig) : bool :=
  let of_config (c : option FormatConfig) :=
    match c with
    | Some c => Validators.truthy_flag (require_caption c)
    | None => false
    end in
  if String.eqb type "image" then
    match image config with
    | Some c => Validators.truthy_flag (image_require_caption c)
    | None => false
    end
  else if String.eqb type "audio" then of_config (audio config)
  else if String.eqb type "video" then of_config (video config)
  else if String.eqb type "document" then of_config (document config)
  else if String.eqb type "enabled" || String.eqb type "supported_types"
          || String.eqb type "examples" then false
  else
    match ValidationRunnable.lookup_field type (custom config) with
    | Some (JObject _ fields) =>
        match ValidationRunnable.lookup_field "require_caption" fields with
        | Some v => truthy v
        | None => false
        end
    | _ => false
    end.

Definition has_slash (mime_type : option string) : bool :=
  match mime_type with
  | Some m => Str.includes m "/"
  | None => false
  end.

Definition validateMediaReference (type : string) (media : MediaReference)
    (config : MediaConfig) : result unit :=
  if negb (has_slash (mime_type media)) then MediaValidationError "Invalid MIME type"
  else
    and_then
      (if String.eqb type "image" then
         match image config with
         | Some c => validateImageMedia media c
         | None => Ok tt
         end
       else if String.eqb type "audio" then
         match audio config with
         | Some c => validateAudioMedia media c
         | None => Ok tt
         end
       else if String.eqb type "video" then
         match video config with
         | Some c => validateVideoMedia media c
         | None => Ok tt
         end
       else if String.eqb type "document" then
         match document config with
         | Some c => validateDocumentMedia media c
         | None => Ok tt
         end
       else Ok tt)
      (fun _ =>
         if requires_caption type config
            && match Validators.truthy_string (caption media) with
               | Some _ => false
               | None => true
               end
         then MediaValidationError ("Caption is required for " +:+ type +:+ " media")
         else Ok tt).

(** The loop of [validateMediaContent] over the parts. *)
Fixpoint validateParts (parts : list ContentPart) (supportedTypes : list string)
    (config : MediaConfig) : result unit :=
  match parts with
  | [] => Ok tt
  | part :: rest =>
      if String.eqb (type part) "text" then validateParts rest supportedTypes config
      else if negb (existsb (String.eqb (type part)) supportedTypes) then
        MediaValidationError
          ("Media type '" +:+ type part +:+ "' is not supported. Supported types: "
           +:+ Str.join ", " supportedTypes)
      else
        and_then
          (match media part with
           | Some media => validateMediaReference (type part) media config
           | None => Ok tt
           end)
          (fun _ => validateParts rest supportedTypes config)
  end.

Definition imageCount (parts : list ContentPart) : Z :=
  Z.of_nat (length (List.filter (fun p => String.eqb (type p) "image") parts)).

Definition validateMediaContent (parts : list ContentPart) (config : MediaConfig)
    : result unit :=
  if negb (enabled config) then
    if existsb (fun part => negb (String.eqb (type part) "text")) parts
    then MediaValidationError "Multimodal content is not enabled for this prompt"
    else Ok tt
  else
    let supportedTypes := default [] (supported_types config) in
    and_then (validateParts parts supportedTypes config) (fun _ =>
      match image config with
      | Some c =>
          match max_images_per_msg c with
          | Some limit =>
              if negb (limit =? 0) && (limit <? imageCount parts) then
                MediaValidationError
                  ("Too many images: " +:+ Str.of_Z (imageCount parts)
                   +:+ " (max: " +:+ Str.of_Z limit +:+ ")")
              else Ok tt
          | None => Ok tt
          end
      | None => Ok tt
      end).

(** The formats that the configuration allows for a media type, when
    it restricts them. *)
Definition formats_for (type : string) (config : MediaConfig) : option (list string) :=
  let of_config (c : option FormatConfig) :=
    match c with Some c => allowed_formats c | None => None end in
  if String.eqb type "image" then
    match image config with Some c => image_allowed_formats c | None => None end
  else if String.eqb type "audio" then of_config (audio config)
  else if String.eqb type "video" then of_config (video config)
  else if String.eqb type "document" then of_config (document config)
  else None.

(** A media reference that the configuration accepts for a media
    type: its MIME type has a slash, its format is among the allowed
    ones when the configuration restricts them, and it has a caption
    when the configuration requires one. *)
Definition acceptable (type : string) (media : MediaReference) (config : MediaConfig) : Prop :=
  has_slash (mime_type media) = true
  /\ (forall allowed, formats_for type config = Some allowed ->
        exists format, format_of (default EmptyString (mime_type media)) = Some format
                       /\ In format allowed)
  /\ (requires_caption type config = true ->
      exists text, Validators.truthy_string (caption media) = Some text).

(** An image part whose media has neither an address nor data. *)
Definition unconvertible (part : ContentPart) : Prop :=
  type part = "image"
  /\ exists media, Multimodal.media part = Some media
                   /\ Validators.truthy_string (url media) = None
                   /\ Validators.truthy_string (base64 media) = None.

(** The limit on the images of one message, when there is one. *)
Definition image_limit (config : MediaConfig) : option Z :=
  match image config with
  | Some c =>
      match max_images_per_msg c with
      | Some 0 | None => None
      | Some limit => Some limit
      end
  | None => None
  end.

End Multimodal.

(** A [Map] with string keys: its entries in insertion order. *)
Module JsMap.

Section Entries.

Context {A : Type}.

Fixpoint get (m : list (string * A)) (key : string) : option A :=
  match m with
  | [] => None
  | (k, v) :: rest => if String.eqb k key then Some v else get rest key
  end.

Definition has (m : list (string * A)) (key : string) : bool :=
  match get m key with Some _ => true | None => false end.

(** [set] on a key that is present keeps its place. *)
Fixpoint set (m : list (string * A)) (key : string) (v : A) : list (string * A) :=
  match m with
  | [] => [(key, v)]
  | (k, x) :: rest =>
      if String.eqb k key then (k, v) :: rest else (k, x) :: set rest key v
  end.

Definition delete (m : list (string * A)) (key : string) : list (string * A) :=
  List.filter (fun entry => negb (String.eqb entry.1 key)) m.

Definition keys (m : list (string * A)) : list string := map fst m.

Definition size (m : list (string * A)) : Z := Z.of_nat (length m).

End Entries.

End JsMap.

(** ** types.ts: prompts and packs *)

Module ModelOverride.

Record t : Type := {
  system_template_prefix : option string;
  system_template_suffix : option string;
  system_template : option string;
  parameters : option (list (string * jsvalue))
}.

(** What the code reads from a value that has none of the four
    properties. *)
Definition none : t :=
  {| system_template_prefix := None; system_template_suffix := None;
     system_template := None; parameters := None |}.

End ModelOverride.

Module Prompt.

(** [Prompt]; [parameters] is an object of numbers, [model_overrides]
    a dictionary. *)
Record t : Type := {
  id : string;
  name : string;
  description : option string;
  version : string;
  system_template : string;
  variables : option (list TemplateEngine.VariableDefinition);
  tools : option (list string);
  tool_policy : option Tools.ToolPolicy;
  parameters : option (list (string * jsvalue));
  validators : option (list Validators.Validator);
  model_overrides : option (gmap string ModelOverride.t);
  media : option Multimodal.MediaConfig
}.

End Prompt.

Module PromptPack.

(** [PromptPack]; [prompts] and [tools] are objects, with their
    properties in creation order. *)
Record t : Type := {
  id : string;
  name : string;
  version : string;
  description : option string;
  template_engine : TemplateEngine.TemplateEngine;
  prompts : list (string * Prompt.t);
  fragments : option (gmap string string);
  tools : option (list (string * Tools.Tool))
}.

End PromptPack.

(** ** registry.ts *)

Module Registry.

(** A call returns or throws a [NotFoundError]. *)
Inductive result (A : Type) : Type :=
| Found (a : A)
| NotFoundError (message : string).

Arguments Found {A} a.
Arguments NotFoundError {A} message.

Record PromptPackRegistry : Type := {
  packs : list (string * PromptPack.t)
}.

Definition new : PromptPackRegistry := {| packs := [] |}.

Definition register (this : PromptPackRegistry) (pack : PromptPack.t) : PromptPackRegistry :=
  {| packs := JsMap.set (packs this) (PromptPack.id pack) pack |}.

Definition registerMany (this : PromptPackRegistry) (many : list PromptPack.t)
    : PromptPackRegistry :=
  fold_left register many this.

Definition getPack (this : PromptPackRegistry) (packId : string) : result PromptPack.t :=
  match JsMap.get (packs this) packId with
  | Some pack => Found pack
  | None => NotFoundError ("PromptPack '" +:+ packId +:+ "' not found in registry")
  end.

(** [getPrompt] returns what [pack.prompts[promptId]] answers when
    that is truthy: a prompt of the pack, or a member that the object
    of the prompts inherits from [Object.prototype]. *)
Definition getPrompt (this : PromptPackRegistry) (packId promptId : string)
    : result (ObjectPrototype.property Prompt.t) :=
  match getPack this packId with
  | Found pack =>
      let prompt :=
        ObjectPrototype.lookup (JsObject.get (PromptPack.prompts pack) promptId) promptId in
      if negb (ObjectPrototype.truthy prompt) then
        NotFoundError
          ("Prompt '" +:+ promptId +:+ "' not found in pack '" +:+ packId +:+ "'")
      else Found prompt
  | NotFoundError message => NotFoundError message
  end.

Definition hasPack (this : PromptPackRegistry) (packId : string) : bool :=
  JsMap.has (packs this) packId.

(** The [try] of [hasPrompt] catches whatever [getPrompt] throws. *)
Definition hasPrompt (this : PromptPackRegistry) (packId promptId : string) : bool :=
  match getPrompt this packId promptId with
  | Found _ => true
  | NotFoundError _ => false
  end.

Definition listPacks (this : PromptPackRegistry) : list string :=
  JsMap.keys (packs this).

Definition listPrompts (this : PromptPackRegistry) (packId : string) : result (list string) :=
  match getPack this packId with
  | Found pack => Found (JsObject.keys (PromptPack.prompts pack))
  | NotFoundError message => NotFoundError message
  end.

(** [unregister]: the answer of [Map.prototype.delete] and the
    registry it leaves. *)
Definition unregister (this : PromptPackRegistry) (packId : string)
    : bool * PromptPackRegistry :=
  (JsMap.has (packs this) packId, {| packs := JsMap.delete (packs this) packId |}).

Definition clear (this : PromptPackRegistry) : PromptPackRegistry := {| packs := [] |}.

Definition size (this : PromptPackRegistry) : Z := JsMap.size (packs this).

Record PackMetadata : Type := {
  metadata_id : string;
  metadata_name : string;
  metadata_version : string;
  metadata_description : option string;
  promptCount : Z
}.

Definition getPackMetadata (this : PromptPackRegistry) (packId : string) : result PackMetadata :=
  match getPack this packId with
  | Found pack =>
      Found {| metadata_id := PromptPack.id pack;
               metadata_name := PromptPack.name pack;
               metadata_version := PromptPack.version pack;
               metadata_description := PromptPack.description pack;
               promptCount := Z.of_nat (length (JsObject.keys (PromptPack.prompts pack))) |}
  | NotFoundError message => NotFoundError message
  end.

(** *** The structure check of a pack that was parsed *)

(** [v[key]] for the keys the check reads, none of which a string, a
    number, a boolean, an array or [Object.prototype] has; of a
    function they name its name. *)
Definition read (v : jsvalue) (key : string) : outcome jsvalue :=
  match v with
  | JUndefined =>
      Throws (JsTypeError ("Cannot read properties of undefined (reading '" +:+ key +:+ "')"))
  | JNull =>
      Throws (JsTypeError ("Cannot read properties of null (reading '" +:+ key +:+ "')"))
  | JObject _ fields => Returns (default JUndefined (ValidationRunnable.lookup_field key fields))
  | JFunction name => Returns (if String.eqb key "name" then JString name else JUndefined)
  | _ => Returns JUndefined
  end.

(** [x && typeof x === 'string'] and [x && typeof x === 'object']. *)
Definition valid_string (v : jsvalue) : bool :=
  match v with
  | JString s => negb (String.eqb s EmptyString)
  | _ => false
  end.

Definition valid_object (v : jsvalue) : bool :=
  match v with
  | JObject _ _ | JArray _ _ | JObjectPrototype => true
  | _ => false
  end.

Fixpoint indexed_from (i : nat) (items : list jsvalue) : list (string * jsvalue) :=
  match items with
  | [] => []
  | x :: rest => (Str.of_nat i, x) :: indexed_from (S i) rest
  end.

(** [Object.entries] of an object or an array. *)
Definition entries (v : jsvalue) : list (string * jsvalue) :=
  match v with
  | JObject _ fields => fields
  | JArray _ items => indexed_from 0 items
  | _ => []
  end.

Definition missing_fields (key : string) : exn :=
  Error ("Prompt '" +:+ key +:+ "' is missing required fields").

(** The loop of [validatePack] over the prompts. *)
Fixpoint validatePrompts (prompts : list (string * jsvalue)) : outcome unit :=
  match prompts with
  | [] => Returns tt
  | (key, prompt) :: rest =>
      id ← read prompt "id";
      if negb (Multimodal.truthy id) then Throws (missing_fields key)
      else
        name ← read prompt "name";
        if negb (Multimodal.truthy name) then Throws (missing_fields key)
        else
          version ← read prompt "version";
          if negb (Multimodal.truthy version) then Throws (missing_fields key)
          else
            system_template ← read prompt "system_template";
            if negb (Multimodal.truthy system_template) then Throws (missing_fields key)
            else validatePrompts rest
  end.

Definition validatePack (pack : jsvalue) : outcome unit :=
  id ← read pack "id";
  if negb (valid_string id) then Throws (Error "PromptPack must have a valid id")
  else
    name ← read pack "name";
    if negb (valid_string name) then Throws (Error "PromptPack must have a valid name")
    else
      version ← read pack "version";
      if negb (valid_string version) then Throws (Error "PromptPack must have a valid version")
      else
        template_engine ← read pack "template_engine";
        if negb (valid_object template_engine)
        then Throws (Error "PromptPack must have a template_engine configuration")
        else
          prompts ← read pack "prompts";
          if negb (valid_object prompts)
          then Throws (Error "PromptPack must have a prompts object")
          else if (length (entries prompts) =? 0)%nat
          then Throws (Error "PromptPack must have at least one prompt")
          else validatePrompts (entries prompts).

(** The field of an object, [undefined] when it has none. *)
Definition field (fields : list (string * jsvalue)) (key : string) : jsvalue :=
  default JUndefined (ValidationRunnable.lookup_field key fields).

(** A prompt that has the four fields the check asks for. *)
Definition complete_prompt (prompt : jsvalue) : Prop :=
  exists ref fields,
    prompt = JObject ref fields
    /\ Multimodal.truthy (field fields "id") = true
    /\ Multimodal.truthy (field fields "name") = true
    /\ Multimodal.truthy (field fields "version") = true
    /\ Multimodal.truthy (field fields "system_template") = true.

(** The calls that change a registry, and a run of them in order. *)
Inductive call : Type :=
| Register (pack : PromptPack.t)
| RegisterMany (many : list PromptPack.t)
| Unregister (packId : string)
| Clear.

Definition perform (this : PromptPackRegistry) (c : call) : PromptPackRegistry :=
  match c with
  | Register pack => register this pack
  | RegisterMany many => registerMany this many
  | Unregister packId => (unregister this packId).2
  | Clear => clear this
  end.

Definition run (calls : list call) : PromptPackRegistry :=
  fold_left perform calls new.

(** Every identifier is listed once, and every pack is stored under
    its own identifier. *)
Definition well_formed (this : PromptPackRegistry) : Prop :=
  NoDup (listPacks this)
  /\ Forall (fun entry => PromptPack.id entry.2 = entry.1) (packs this).

End Registry.

(** ** template.ts *)

Module PromptPackTemplate.

(** [Partial<RenderOptions>]: a key can be absent ([None]), or present
    with a value that can be [undefined] ([Some None]). *)
Record PartialRenderOptions : Type := {
  variables : option (option (gmap string jsvalue));
  fragments : option (option (gmap string string));
  validate : option (option bool);
  allowUndefined : option (option bool)
}.

(** The fields of an instance; the engine is that of the pack. *)
Record PromptPackTemplate : Type := {
  pack : PromptPack.t;
  promptConfig : Prompt.t;
  modelId : option string;
  renderOptions : PartialRenderOptions
}.

Definition engine (this : PromptPackTemplate) : TemplateEngine.TemplateEngine :=
  PromptPack.template_engine (pack this).

(** [this.modelId && this.promptConfig.model_overrides?.[this.modelId]],
    when it holds: an override of the prompt, or a member that the
    object of the overrides inherits from [Object.prototype], which
    has none of the four properties of an override. *)
Definition active_override (this : PromptPackTemplate) : option ModelOverride.t :=
  match Validators.truthy_string (modelId this) with
  | Some modelId =>
      match Prompt.model_overrides (promptConfig this) with
      | Some overrides =>
          let override := ObjectPrototype.lookup (overrides !! modelId) modelId in
          if ObjectPrototype.truthy override then
            match override with
            | ObjectPrototype.Own override => Some override
            | _ => Some ModelOverride.none
            end
          else None
      | None => None
      end
  | None => None
  end.

Definition getSystemTemplate (this : PromptPackTemplate) : string :=
  let template := Prompt.system_template (promptConfig this) in
  match active_override this with
  | Some override =>
      match Validators.truthy_string (ModelOverride.system_template override) with
      | Some replacement => replacement
      | None =>
          let template :=
            match Validators.truthy_string (ModelOverride.system_template_prefix override) with
            | Some prefix => prefix +:+ template
            | None => template
            end in
          match Validators.truthy_string (ModelOverride.system_template_suffix override) with
          | Some suffix => template +:+ suffix
          | None => template
          end
      end
  | None => template
  end.

(** [{...base, ...extra}]: the properties of [base], then those of
    [extra], each read in enumeration order. *)
Definition spread (base extra : option (list (string * jsvalue))) : list (string * jsvalue) :=
  let copy (target : list (string * jsvalue)) (source : option (list (string * jsvalue))) :=
    fold_left (fun o entry => JsObject.set o entry.1 entry.2)
      (JsObject.ownProperties (default [] source)) target in
  copy (copy [] base) extra.

Definition getParameters (this : PromptPackTemplate) : option (list (string * jsvalue)) :=
  let params := Prompt.parameters (promptConfig this) in
  match active_override this with
  | Some override =>
      match ModelOverride.parameters override with
      | Some extra => Some (spread params (Some extra))
      | None => params
      end
  | None => params
  end.

(** The options [format] passes to [render]: its own variables and
    the fragments of the pack, then the keys of [renderOptions]. *)
Definition format_options (this : PromptPackTemplate)
    (varsWithDefaults : gmap string jsvalue) : TemplateEngine.RenderOptions :=
  let given := renderOptions this in
  {| TemplateEngine.variables :=
       match variables given with Some v => v | None => Some varsWithDefaults end;
     TemplateEngine.fragments :=
       match fragments given with Some f => f | None => PromptPack.fragments (pack this) end;
     TemplateEngine.validate := mjoin (validate given);
     TemplateEngine.allowUndefined := mjoin (allowUndefined given) |}.

Definition format (this : PromptPackTemplate) (values : gmap string jsvalue)
    : outcome string :=
  let varsWithDefaults :=
    TemplateEngine.applyDefaults (Prompt.variables (promptConfig this)) values in
  _ ← match validate (renderOptions this) with
      | Some (Some false) => Returns tt
      | _ =>
          TemplateEngine.validateVariables
            (Prompt.variables (promptConfig this)) varsWithDefaults
      end;
  TemplateEngine.render (engine this) (getSystemTemplate this)
    (format_options this varsWithDefaults).

Definition getTools (this : PromptPackTemplate) : list string :=
  default [] (Prompt.tools (promptConfig this)).

Definition getToolPolicy (this : PromptPackTemplate) : option Tools.ToolPolicy :=
  Prompt.tool_policy (promptConfig this).

Definition getValidators (this : PromptPackTemplate) : list Validators.Validator :=
  default [] (Prompt.validators (promptConfig this)).

Definition isMultimodal (this : PromptPackTemplate) : bool :=
  match Prompt.media (promptConfig this) with
  | Some config => Multimodal.enabled config
  | None => false
  end.

(** [filterTools]: the tools it returns and the warnings it logs, for
    tools of any type with a name. *)
Definition filterTools {T : Type} (tool_name : T -> string) (this : PromptPackTemplate)
    (tools : list T) (warn : option bool) : list T * list string :=
  let allowedToolNames := getTools this in
  match allowedToolNames with
  | [] => (tools, [])
  | _ :: _ =>
      let allowed (tool : T) := existsb (String.eqb (tool_name tool)) allowedToolNames in
      let filtered := List.filter allowed tools in
      if default true warn then
        let providedNames := map tool_name tools in
        let missingTools :=
          List.filter (fun name => negb (existsb (String.eqb name) providedNames))
            allowedToolNames in
        let filteredOut := List.filter (fun tool => negb (allowed tool)) tools in
        (filtered,
         (if (0 <? length missingTools)%nat then
            ["[PromptPack] Tools defined in prompt '" +:+ Prompt.id (promptConfig this)
             +:+ "' but not provided: " +:+ Str.join ", " missingTools]
          else [])
         ++ (if (0 <? length filteredOut)%nat then
               ["[PromptPack] Filtered out " +:+ Str.of_nat (length filteredOut)
                +:+ " tool(s) not allowed by prompt '" +:+ Prompt.id (promptConfig this)
                +:+ "': " +:+ Str.join ", " (map tool_name filteredOut)]
             else []))
      else (filtered, [])
  end.

(** The prompt lists the name of the tool. *)
Definition listed {T : Type} (tool_name : T -> string) (this : PromptPackTemplate)
    (tool : T) : bool :=
  existsb (String.eqb (tool_name tool)) (getTools this).

Definition createValidationRunnable (this : PromptPackTemplate)
    (customValidators : option (gmap string ValidationRunnable.CustomValidatorFn))
    (strict : option bool) : outcome ValidationRunnable.ValidationRunnable :=
  if Validators.truthy_flag strict
  then ValidationRunnable.createStrictValidationRunnable (getValidators this) customValidators
  else ValidationRunnable.createValidationRunnable (getValidators this) customValidators.

(** A pack with one prompt, and a template for it, for the examples. *)
Definition greeting_prompt : Prompt.t :=
  {| Prompt.id := "greeting"; Prompt.name := "Greeting";
     Prompt.description := None; Prompt.version := "1.0.0";
     Prompt.system_template := "Hello {{name}}";
     Prompt.variables :=
       Some [{| TemplateEngine.name := "name"; TemplateEngine.type := "string";
                TemplateEngine.required := true;
                TemplateEngine.default_value := Some (JString "world");
                TemplateEngine.validation := None |}];
     Prompt.tools := Some ["search"]; Prompt.tool_policy := None;
     Prompt.parameters := None; Prompt.validators := None;
     Prompt.model_overrides := None; Prompt.media := None |}.

Definition greeting_pack : PromptPack.t :=
  {| PromptPack.id := "support"; PromptPack.name := "Support";
     PromptPack.version := "1.0.0"; PromptPack.description := None;
     PromptPack.template_engine := TemplateEngine.default_engine;
     PromptPack.prompts := [("greeting", greeting_prompt)];
     PromptPack.fragments := None; PromptPack.tools := None |}.


(** The same prompt with an override for one model. *)
Definition brief_override : ModelOverride.t :=
  {| ModelOverride.system_template_prefix := Some "Be brief. ";
     ModelOverride.system_template_suffix := Some " Thanks.";
     ModelOverride.system_template := None;
     ModelOverride.parameters := None |}.

Definition brief_prompt : Prompt.t :=
  {| Prompt.id := "greeting"; Prompt.name := "Greeting";
     Prompt.description := None; Prompt.version := "1.0.0";
     Prompt.system_template := "Hello {{name}}";
     Prompt.variables := None; Prompt.tools := None; Prompt.tool_policy := None;
     Prompt.parameters := None; Prompt.validators := None;
     Prompt.model_overrides := Some {["gpt-4" := brief_override]};
     Prompt.media := None |}.

Definition brief_template (modelId : option string) : PromptPackTemplate :=
  {| pack := greeting_pack; promptConfig := brief_prompt; modelId := modelId;
     renderOptions := {| variables := None; fragments := None; validate := None;
                         allowUndefined := None |} |}.

End PromptPackTemplate.

(** * Properties *)

(** ** Strings and outcomes *)

Module StrFacts.

Import Str.

Lemma app_nil_l (s : string) : EmptyString +:+ s = s.
Proof. reflexivity. Qed.

Lemma app_cons (c : ascii) (s t : string) :
  String c s +:+ t = String c (s +:+ t).
Proof. reflexivity. Qed.

Lemma app_nil_r (s : string) : s +:+ EmptyString = s.
Proof. induction s as [|c s IH]; [done|]. by rewrite app_cons, IH. Qed.

Lemma app_assoc (s t u : string) : (s +:+ t) +:+ u = s +:+ t +:+ u.
Proof. induction s as [|c s IH]; [done|]. by rewrite !app_cons, IH. Qed.

Lemma length_app (s t : string) :
  String.length (s +:+ t) = (String.length s + String.length t)%nat.
Proof.
  induction s as [|c s IH]; [done|]. rewrite app_cons. simpl. by rewrite IH.
Qed.

Lemma app_inv_head (s t u : string) : s +:+ t = s +:+ u -> t = u.
Proof.
  induction s as [|c s IH]; [done|]. rewrite !app_cons. intros [= H]. auto.
Qed.

Lemma occurs_refl (s : string) : occurs s s.
Proof. exists EmptyString, EmptyString. by rewrite app_nil_r. Qed.

Lemma occurs_app_l (t s u : string) : occurs t s -> occurs t (s +:+ u).
Proof.
  intros (pre & post & ->). exists pre, (post +:+ u).
  by rewrite !app_assoc.
Qed.

Lemma occurs_app_r (t s u : string) : occurs t s -> occurs t (u +:+ s).
Proof.
  intros (pre & post & ->). exists (u +:+ pre), post.
  by rewrite !app_assoc.
Qed.

Lemma occurs_join (sep t : string) (l : list string) :
  In t l -> occurs t (join sep l).
Proof.
  induction l as [|x l IH]; [done|]. intros [->|Hin].
  - destruct l as [|y l]; [apply occurs_refl|].
    change (join sep (t :: y :: l)) with (t +:+ sep +:+ join sep (y :: l)).
    apply occurs_app_l, occurs_refl.
  - destruct l as [|y l]; [done|].
    change (join sep (x :: y :: l)) with (x +:+ sep +:+ join sep (y :: l)).
    apply occurs_app_r, occurs_app_r. auto.
Qed.

End StrFacts.

Lemma bind_Returns {A B} (f : A -> outcome B) (a : A) :
  (Returns a ≫= f) = f a.
Proof. reflexivity. Qed.

Lemma bind_Throws {A B} (f : A -> outcome B) (e : exn) :
  (Throws e ≫= f) = Throws e.
Proof. reflexivity. Qed.

Example toString_array :
  Js.toString (JArray 0 [JNumber 1; JNull; JString "a"; JArray 1 [JBool true; JNumber (-2)]])
  = "1,,a,true,-2".
Proof. reflexivity. Qed.

Example json_stringify_object :
  Js.json_stringify
    (JObject 0 [("a", JNumber 1); ("b", JUndefined); ("c", JArray 1 [JUndefined; JString "x"])])
  = Some (String "{" (Js.json_quote "a" +:+ ":1," +:+ Js.json_quote "c" +:+ ":[null,"
          +:+ Js.json_quote "x" +:+ "]}")).
Proof. reflexivity. Qed.

Example regexp_test_word : RegExp.test "\bbad\b" "i" "This is BAD" = Returns true.
Proof. vm_compute. reflexivity. Qed.

(** ** The members of [Object.prototype] *)

Module ObjectPrototypeFacts.

Import ObjectPrototype.

Lemma existsb_eqb_In (key : string) (l : list string) :
  existsb (String.eqb key) l = true <-> In key l.
Proof.
  rewrite existsb_exists. split.
  - by intros (x & Hin & ->%String.eqb_eq).
  - intros Hin. exists key. by rewrite String.eqb_refl.
Qed.

Lemma existsb_eqb_not_In (key : string) (l : list string) :
  existsb (String.eqb key) l = false <-> ~ In key l.
Proof. by rewrite <- not_true_iff_false, existsb_eqb_In. Qed.

(** The keys that have a member are the twelve of [names]. *)
Lemma member_None (key : string) : member key = None <-> ~ In key names.
Proof.
  unfold member, names.
  destruct (String.eqb_spec key "constructor") as [->|Hc].
  { split; [done|]. intros H. destruct H. by left. }
  destruct (String.eqb_spec key "__proto__") as [->|Hp].
  { split; [done|]. intros H. destruct H. right. by left. }
  destruct (existsb (String.eqb key) functions) eqn:Hf.
  - split; [done|]. intros H. destruct H. right. right. by apply existsb_eqb_In.
  - split; [|done]. intros _ [H|[H|H]]; [done|done|].
    apply existsb_eqb_In in H. congruence.
Qed.

Lemma member_Some (key : string) : (exists m, member key = Some m) <-> In key names.
Proof.
  destruct (member key) as [m|] eqn:Hm.
  - split; [|by eauto]. intros _.
    destruct (in_dec String.string_dec key names) as [Hin|Hout]; [done|].
    apply member_None in Hout. congruence.
  - split; [by intros [m [=]]|]. intros Hin. by apply member_None in Hm.
Qed.

(** A member is a function or [Object.prototype]: it is neither
    [undefined] nor falsy. *)
Lemma member_cases (key : string) (m : jsvalue) :
  member key = Some m -> m = JObjectPrototype \/ exists name, m = JFunction name.
Proof.
  unfold member. repeat case_match; intros [= <-]; eauto.
Qed.

Lemma member_truthy (key : string) (m : jsvalue) : member key = Some m -> Js.truthy m = true.
Proof. by intros [->|[name ->]]%member_cases. Qed.

Lemma member_defined (key : string) (m : jsvalue) : member key = Some m -> m <> JUndefined.
Proof. by intros [->|[name ->]]%member_cases. Qed.

Lemma lookup_Own {A : Type} (own : option A) (key : string) (a : A) :
  lookup own key = Own a <-> own = Some a.
Proof.
  unfold lookup. destruct own as [b|]; [|by destruct (member key)].
  split; by intros [= ->].
Qed.

Lemma lookup_Absent {A : Type} (own : option A) (key : string) :
  lookup own key = Absent <-> own = None /\ ~ In key names.
Proof.
  unfold lookup. rewrite <- member_None.
  destruct own as [b|]; [by split; [|intros [[=] _]]|].
  destruct (member key); by split; [|intros [_ [=]]].
Qed.

Lemma lookup_Inherited {A : Type} (own : option A) (key : string) (m : jsvalue) :
  lookup own key = Inherited m <-> own = None /\ member key = Some m.
Proof.
  unfold lookup. destruct own as [b|]; [by split; [|intros [[=] _]]|].
  destruct (member key) as [j|]; split.
  - by intros [= ->].
  - by intros [_ [= ->]].
  - done.
  - by intros [_ [=]].
Qed.

(** What an object answers is falsy, and is [undefined], exactly when
    it neither owns nor inherits the key. *)
Lemma lookup_truthy {A : Type} (own : option A) (key : string) :
  truthy (lookup own key) = false <-> own = None /\ ~ In key names.
Proof.
  rewrite <- lookup_Absent. unfold lookup.
  destruct own as [a|]; [done|]. destruct (member key) as [m|] eqn:Hm; [|done].
  simpl. rewrite (member_truthy _ _ Hm). done.
Qed.

Lemma lookup_is_undefined {A : Type} (own : option A) (key : string) :
  is_undefined (lookup own key) = true <-> own = None /\ ~ In key names.
Proof.
  rewrite <- lookup_Absent. unfold lookup.
  destruct own as [a|]; [done|]. destruct (member key) as [m|] eqn:Hm; [|done].
  simpl. by destruct (member_cases _ _ Hm) as [->|[name ->]].
Qed.

(** [read] answers [undefined] only for a key that the object neither
    owns, unless with that value, nor inherits. *)
Lemma read_undefined (own : option jsvalue) (key : string) :
  read own key = JUndefined <-> own = Some JUndefined \/ (own = None /\ ~ In key names).
Proof.
  unfold read. destruct own as [v|].
  - split; [intros ->; by left|]. by intros [[= ->]|[[=] _]].
  - destruct (member key) as [m|] eqn:Hm; simpl.
    + split.
      * intros ->. by apply member_defined in Hm.
      * intros [[=]|[_ Hout]]. apply member_None in Hout. congruence.
    + split; [|done]. intros _. right. split; [done|]. by apply member_None.
Qed.

Lemma read_own (v : jsvalue) (key : string) : read (Some v) key = v.
Proof. done. Qed.

Lemma read_other (key : string) : ~ In key names -> read None key = JUndefined.
Proof. intros H. apply read_undefined. by right. Qed.

End ObjectPrototypeFacts.

(** ** The built-in validators *)

Module ValidatorsFacts.

Import Validators.

Lemma estimatedTokens_ceiling (response : string) :
  4 * (estimatedTokens response - 1) < response_length response
  <= 4 * estimatedTokens response.
Proof.
  unfold estimatedTokens, response_length, ceil_div.
  set (n := Z.of_nat (String.length response)).
  pose proof (Z.div_mod (- n) 4 ltac:(lia)) as Hdiv.
  pose proof (Z.mod_pos_bound (- n) 4 ltac:(lia)) as Hmod.
  lia.
Qed.

Lemma estimatedTokens_round_up (response : string) :
  estimatedTokens response = (response_length response + 3) / 4.
Proof.
  pose proof (estimatedTokens_ceiling response) as H.
  apply Z.div_unique
    with (r := response_length response + 3 - 4 * estimatedTokens response); lia.
Qed.

(** C8.  The maximum-length validator compares the character count
    with [max_characters] before it compares the estimated token
    count (the character count divided by 4, rounded up) with
    [max_tokens]: when the character bound is exceeded the outcome is
    the character failure, whatever the token bound; the token failure
    is reported only when the character bound is absent or respected;
    otherwise the response passes.  With [max_characters = 10] an
    11-character response fails with details
    [{length: 11, max_characters: 10}]. *)
Theorem validateMaxLength_characters_before_tokens
    (response : string) (validator : Validator) :
  let length := response_length response in
  let estimated := estimatedTokens response in
  (4 * (estimated - 1) < length <= 4 * estimated)
  /\ (forall maxChars,
        param max_characters validator = Some maxChars ->
        maxChars < length ->
        validateMaxLength response validator =
          {| passed := false;
             validatorType := "max_length";
             message := Some ("Response exceeds maximum length: " +:+ Str.of_Z length
                              +:+ " > " +:+ Str.of_Z maxChars +:+ " characters");
             details := Some [("length", JNumber length);
                              ("max_characters", JNumber maxChars)] |})
  /\ (forall maxTokens,
        (forall maxChars, param max_characters validator = Some maxChars -> length <= maxChars) ->
        param max_tokens validator = Some maxTokens ->
        maxTokens < estimated ->
        validateMaxLength response validator =
          {| passed := false;
             validatorType := "max_length";
             message := Some ("Response exceeds maximum tokens: ~" +:+ Str.of_Z estimated
                              +:+ " > " +:+ Str.of_Z maxTokens +:+ " tokens");
             details := Some [("estimated_tokens", JNumber estimated);
                              ("max_tokens", JNumber maxTokens)] |})
  /\ ((forall maxChars, param max_characters validator = Some maxChars -> length <= maxChars) ->
      (forall maxTokens, param max_tokens validator = Some maxTokens -> estimated <= maxTokens) ->
      validateMaxLength response validator =
        {| passed := true; validatorType := "max_length";
           message := None; details := None |})
  /\ (String.length response = 11%nat ->
      param max_characters validator = Some 10 ->
      passed (validateMaxLength response validator) = false
      /\ details (validateMaxLength response validator)
         = Some [("length", JNumber 11); ("max_characters", JNumber 10)]).
Proof.
  intros length estimated. split; [apply estimatedTokens_ceiling|].
  unfold validateMaxLength. fold length estimated.
  split; [|split; [|split]].
  - intros maxChars -> Hlt. apply Z.ltb_lt in Hlt. by rewrite Hlt.
  - intros maxTokens Hchars -> Hlt. apply Z.ltb_lt in Hlt. rewrite Hlt.
    destruct (param max_characters validator) as [c|]; [|done].
    specialize (Hchars c eq_refl). apply Z.ltb_ge in Hchars. by rewrite Hchars.
  - intros Hchars Htokens.
    assert (match param max_tokens validator with
            | Some t => (t <? estimated) = false | None => True end) as Ht.
    { destruct (param max_tokens validator) as [t|]; [|done].
      apply Z.ltb_ge. auto. }
    destruct (param max_characters validator) as [c|].
    + specialize (Hchars c eq_refl). apply Z.ltb_ge in Hchars. rewrite Hchars.
      destruct (param max_tokens validator); [by rewrite Ht|done].
    + destruct (param max_tokens validator); [by rewrite Ht|done].
  - intros Hlen ->. subst length. unfold response_length. by rewrite Hlen.
Qed.

Lemma validateMaxLength_characters_before_tokens_witness :
  details
    (validateMaxLength "hello world"
       {| type := "max_length"; enabled := true; fail_on_violation := None;
          params := Some {| words := None; max_characters := Some 10; max_tokens := Some 1;
                            min_characters := None; min_tokens := None; pattern := None;
                            must_match := None; other := [] |} |})
  = Some [("length", JNumber 11); ("max_characters", JNumber 10)].
Proof.
  apply (validateMaxLength_characters_before_tokens "hello world"); reflexivity.
Defined.

Lemma isOOTBValidator_spec (t : string) :
  isOOTBValidator t = true <->
  t = "banned_words" \/ t = "max_length" \/ t = "min_length" \/ t = "regex_match".
Proof.
  unfold isOOTBValidator, OOTB_VALIDATORS. simpl.
  rewrite !orb_true_iff, !String.eqb_eq. intuition discriminate.
Qed.

Lemma isOOTBValidator_spec_in (t : string) :
  isOOTBValidator t = true <->
  In t ["banned_words"; "max_length"; "min_length"; "regex_match"].
Proof. rewrite isOOTBValidator_spec. simpl. intuition. Qed.

Lemma runValidator_unknown (response : string) (validator : Validator) :
  isOOTBValidator (type validator) = false ->
  runValidator response validator =
    Returns {| passed := true;
               validatorType := type validator;
               message := Some ("Unknown validator type: " +:+ type validator);
               details := None |}.
Proof.
  unfold isOOTBValidator, OOTB_VALIDATORS, runValidator. simpl.
  rewrite !orb_false_iff. intros (-> & -> & -> & -> & _). reflexivity.
Qed.

(** C10.  On the direct path a validator whose type is none of the
    four built-in types yields a passing outcome that carries only the
    message "Unknown validator type: ..."; when it is enabled, the
    loop of [validateResponse] pushes that outcome and goes on to the
    next validator, so that such a validator neither fails nor
    throws. *)
Theorem unknown_validator_type_passes
    (response : string) (validator : Validator) :
  isOOTBValidator (type validator) = false ->
  let outcome_of_unknown :=
    {| passed := true;
       validatorType := type validator;
       message := Some ("Unknown validator type: " +:+ type validator);
       details := None |} in
  runValidator response validator = Returns outcome_of_unknown
  /\ (enabled validator = true ->
      forall rest results,
        validateResponse_from response (validator :: rest) results
        = validateResponse_from response rest (results ++ [outcome_of_unknown]))
  /\ (enabled validator = true ->
      validateResponse response [validator] = Returns [outcome_of_unknown]).
Proof.
  intros Hunknown out.
  pose proof (runValidator_unknown response validator Hunknown) as Hrun.
  split; [exact Hrun|]. split.
  - intros Hen rest results. simpl. rewrite Hen, Hrun. reflexivity.
  - intros Hen. unfold validateResponse. simpl. rewrite Hen, Hrun. reflexivity.
Qed.

Lemma unknown_validator_type_passes_witness :
  validateResponse "anything at all"
    [{| type := "sentiment"; enabled := true; fail_on_violation := Some true;
        params := None |}]
  = Returns [{| passed := true; validatorType := "sentiment";
                message := Some "Unknown validator type: sentiment";
                details := None |}].
Proof.
  apply (unknown_validator_type_passes "anything at all"
           {| type := "sentiment"; enabled := true; fail_on_violation := Some true;
              params := None |}); reflexivity.
Defined.

Section DirectPath.

Variable response : string.

(** The validator produces an outcome, and the outcome is not a
    failure of a validator that has [fail_on_violation] set. *)
Let quiet (u : Validator) : Prop :=
  exists o, runValidator response u = Returns o
            /\ (passed o = true \/ fail_on_violation u <> Some true).

Lemma quiet_not_critical (u : Validator) (o : ValidationResult) :
  passed o = true \/ fail_on_violation u <> Some true ->
  negb (passed o) && truthy_flag (fail_on_violation u) = false.
Proof.
  intros [->|Hf]; [done|].
  destruct (fail_on_violation u) as [[]|]; simpl; try done.
  by rewrite andb_false_r.
  all: by rewrite andb_false_r.
Qed.

Lemma validateResponse_from_quiet (vs : list Validator) :
  (forall u, In u vs -> enabled u = true -> quiet u) ->
  exists outs,
    Forall2 (fun u o => runValidator response u = Returns o)
      (List.filter enabled vs) outs
    /\ forall rest results,
         validateResponse_from response (vs ++ rest) results
         = validateResponse_from response rest (results ++ outs).
Proof.
  induction vs as [|u vs IH]; intros Hq.
  - exists []. split; [constructor|]. intros rest results.
    by rewrite app_nil_r.
  - destruct IH as (outs & Hall & Hrun).
    { intros w Hw. apply Hq. by right. }
    destruct (enabled u) eqn:Hen.
    + destruct (Hq u (or_introl eq_refl) Hen) as (o & Ho & Hnc).
      exists (o :: outs). split.
      * simpl. rewrite Hen. by constructor.
      * intros rest results. simpl. rewrite Hen, Ho. simpl.
        rewrite (quiet_not_critical u o Hnc), Hrun.
        by rewrite <- app_assoc.
    + exists outs. split.
      * simpl. by rewrite Hen.
      * intros rest results. simpl. rewrite Hen. simpl. apply Hrun.
Qed.

(** As long as the validators produce an outcome, [validateResponse]
    throws at the first enabled validator whose outcome fails while
    its [fail_on_violation] is set: the error carries that outcome,
    and the result does not depend on the validators declared after
    it, none of which is evaluated.  When no enabled validator fails
    with [fail_on_violation] set, it returns one outcome per enabled
    validator, in declaration order. *)
Theorem validateResponse_fail_fast (validators : list Validator) :
  (forall pre v post o,
      validators = pre ++ v :: post ->
      (forall u, In u pre -> enabled u = true -> quiet u) ->
      enabled v = true ->
      runValidator response v = Returns o ->
      passed o = false ->
      fail_on_violation v = Some true ->
      forall post',
        validateResponse response (pre ++ v :: post')
        = Throws (GuardrailViolationError
                    (message_or_default o) (type v) (details o)))
  /\ ((forall u, In u validators -> enabled u = true -> quiet u) ->
      exists results,
        validateResponse response validators = Returns results
        /\ Forall2 (fun u o => runValidator response u = Returns o)
             (List.filter enabled validators) results).
Proof.
  split.
  - intros pre v post o _ Hpre Hen Hrun Hfail Hflag post'.
    destruct (validateResponse_from_quiet pre Hpre) as (outs & _ & Hstep).
    unfold validateResponse. rewrite Hstep. simpl.
    rewrite Hen, Hrun. simpl. by rewrite Hfail, Hflag.
  - intros Hq.
    destruct (validateResponse_from_quiet validators Hq) as (outs & Hall & Hstep).
    exists outs. split; [|exact Hall].
    unfold validateResponse.
    specialize (Hstep [] []). by rewrite app_nil_r in Hstep.
Qed.

End DirectPath.

Lemma validateResponse_fail_fast_witness :
  validateResponse "this is bad" quiet_then_critical
  = Throws (GuardrailViolationError
              "Response exceeds maximum length: 11 > 5 characters" "max_length"
              (Some [("length", JNumber 11); ("max_characters", JNumber 5)])).
Proof.
  refine (proj1 (validateResponse_fail_fast "this is bad" quiet_then_critical)
            (firstn 1 quiet_then_critical) _ (skipn 2 quiet_then_critical)
            (validateMaxLength "this is bad" _)
            eq_refl _ eq_refl eq_refl eq_refl eq_refl (skipn 2 quiet_then_critical)).
  intros u [<-|[]] _. eexists. split; [vm_compute; reflexivity|right; discriminate].
Defined.

(** C6 (the code departs from the claim).  No validator of these lists
    has [fail_on_violation] set, so that no critical failure occurs,
    and the claim has [validateResponse] return one outcome per
    enabled validator.  But the banned-phrase validator puts its
    phrases into a regular expression as they are (see C7): for the
    phrase c++ the construction of the expression throws a
    [SyntaxError], which [validateResponse] lets through.  The call
    returns no outcome, and the outcome of a validator that was
    evaluated before is lost with it. *)
Theorem validateResponse_raises_without_critical_failure :
  validateResponse "I like c++" [banned_validator ["c++"] false]
  = Throws (JsSyntaxError "Invalid regular expression: /\bc++\b/i: Nothing to repeat")
  /\ validateResponse "I like c++"
       [length_validator "max_length" 5 false; banned_validator ["c++"] false;
        length_validator "min_length" 1 false]
     = Throws (JsSyntaxError "Invalid regular expression: /\bc++\b/i: Nothing to repeat")
  /\ Forall (fun v => truthy_flag (fail_on_violation v) = false)
       [length_validator "max_length" 5 false; banned_validator ["c++"] false;
        length_validator "min_length" 1 false]
  /\ validateResponse "I like c++"
       [length_validator "max_length" 5 false; length_validator "min_length" 1 false]
     = Returns [validateMaxLength "I like c++" (length_validator "max_length" 5 false);
                validateMinLength "I like c++" (length_validator "min_length" 1 false)].
Proof.
  split; [by vm_compute|]. split; [by vm_compute|]. split; [|by vm_compute].
  repeat constructor.
Qed.

(** *** Banned phrases *)

Lemma parse_plain (w rest : string) (stack : list RegExp.frame) (cur : RegExp.frame) :
  plain w = true ->
  RegExp.parse RegExp.Top stack cur (w +:+ rest)
  = RegExp.parse RegExp.Top stack (RegExp.push_all w cur) rest.
Proof.
  revert cur. induction w as [|c w IH]; intros cur Hw; [done|].
  simpl in Hw. apply andb_true_iff in Hw as [Hc Hw].
  change (String c w +:+ rest) with (String c (w +:+ rest)).
  cbn [RegExp.parse RegExp.push_all]. rewrite Hc. by apply IH.
Qed.

Lemma push_all_alts (w : string) (f : RegExp.frame) :
  RegExp.alts (RegExp.push_all w f) = RegExp.alts f.
Proof. revert f. induction w as [|c w IH]; intros f; [done|]. simpl. by rewrite IH. Qed.

Lemma push_all_terms (w : string) (f : RegExp.frame) (acc : RegExp.re) :
  fold_left (fun acc t => RegExp.Seq (fst t) acc) (RegExp.terms (RegExp.push_all w f)) acc
  = fold_left (fun acc t => RegExp.Seq (fst t) acc) (RegExp.terms f) (RegExp.chars_re w acc).
Proof.
  revert f acc. induction w as [|c w IH]; intros f acc; [done|].
  cbn [RegExp.push_all RegExp.chars_re]. by rewrite IH.
Qed.

Lemma parse_word_boundary (s : string) (stack : list RegExp.frame) (cur : RegExp.frame) :
  RegExp.parse RegExp.Top stack cur (String Str.backslash (String "b" s))
  = RegExp.parse RegExp.Top stack (RegExp.push RegExp.WordB false cur) s.
Proof. reflexivity. Qed.

Lemma compile_phrase (w : string) :
  plain w = true ->
  RegExp.compile ("\b" +:+ w +:+ "\b") = RegExp.Parsed (RegExp.phrase_re w).
Proof.
  intros Hw. unfold RegExp.compile.
  change ("\b" +:+ w +:+ "\b")
    with (String Str.backslash (String "b" (w +:+ String Str.backslash "b"))).
  rewrite parse_word_boundary, (parse_plain w _ _ _ Hw), parse_word_boundary.
  cbn [RegExp.parse]. unfold RegExp.close, RegExp.sequence.
  cbn [RegExp.alts RegExp.terms RegExp.push fold_left fst].
  rewrite push_all_alts. cbn [RegExp.alts RegExp.push RegExp.empty_frame fold_left].
  rewrite push_all_terms. reflexivity.
Qed.

Lemma matches_chars (w : string) (tail : RegExp.re) (prev : option ascii) (s : string)
    (k : option ascii -> string -> bool) :
  RegExp.matches_from true (RegExp.chars_re w tail) prev s k
  = match strip_ci w s prev with
    | Some (last, rest) => RegExp.matches_from true tail last rest k
    | None => false
    end.
Proof.
  revert prev s. induction w as [|a w IH]; intros prev s; [done|].
  cbn [RegExp.chars_re RegExp.matches_from strip_ci].
  destruct s as [|c s]; [done|]. unfold RegExp.char_matches.
  destruct (Str.eqb_ci a c); [|done]. apply IH.
Qed.

Lemma search_phrase (w : string) (prev : option ascii) (s : string) :
  RegExp.search true (RegExp.phrase_re w) prev s = phrase_occurs_from w prev s.
Proof.
  revert prev. induction s as [|c s IH]; intros prev.
  - cbn [RegExp.search phrase_occurs_from]. f_equal.
    unfold RegExp.phrase_re, phrase_at. cbn [RegExp.matches_from].
    rewrite matches_chars. f_equal.
    destruct (strip_ci w EmptyString prev) as [[last rest]|]; [|done].
    cbn [RegExp.matches_from]. apply andb_true_r.
  - cbn [RegExp.search phrase_occurs_from]. rewrite IH. f_equal.
    unfold RegExp.phrase_re, phrase_at. cbn [RegExp.matches_from].
    rewrite matches_chars. f_equal.
    destruct (strip_ci w (String c s) prev) as [[last rest]|]; [|done].
    cbn [RegExp.matches_from]. apply andb_true_r.
Qed.

(** For a phrase without syntax characters the regular expression of
    [validateBannedWords] decides the occurrence of the phrase. *)
Lemma test_phrase (w response : string) :
  plain w = true ->
  RegExp.test ("\b" +:+ w +:+ "\b") "i" response = Returns (phrase_occurs w response).
Proof.
  intros Hw. unfold RegExp.test.
  assert (RegExp.ignoreCase_of "i" = Some true) as -> by reflexivity.
  rewrite (compile_phrase w Hw). by rewrite search_phrase.
Qed.

Lemma findBannedWords_plain (response : string) (words foundWords : list string) :
  forallb plain words = true ->
  findBannedWords response words foundWords
  = Returns (foundWords ++ List.filter (fun w => phrase_occurs w response) words).
Proof.
  revert foundWords. induction words as [|w words IH]; intros foundWords Hall.
  - simpl. by rewrite app_nil_r.
  - simpl in Hall. apply andb_true_iff in Hall as [Hw Hall].
    cbn [findBannedWords List.filter]. rewrite (test_phrase w response Hw).
    cbn [mbind outcome_bind]. rewrite IH by done.
    destruct (phrase_occurs w response); [|done]. by rewrite <- app_assoc.
Qed.

(** The banned-phrase validator on phrases without syntax characters:
    it fails exactly when some configured phrase occurs in the
    response, whatever the letter case, between word boundaries, and
    reports the phrases that occur, as configured and in their
    order. *)
Theorem validateBannedWords_plain_phrases
    (response : string) (validator : Validator) (phrases : list string) :
  param words validator = Some phrases ->
  forallb plain phrases = true ->
  validateBannedWords response validator
  = Returns (banned_outcome (List.filter (fun w => phrase_occurs w response) phrases))
  /\ (passed (banned_outcome (List.filter (fun w => phrase_occurs w response) phrases)) = false
      <-> exists w, In w phrases /\ phrase_occurs w response = true).
Proof.
  intros Hwords Hplain. split.
  - unfold validateBannedWords. rewrite Hwords.
    change (default [] (Some phrases)) with phrases.
    rewrite (findBannedWords_plain response phrases [] Hplain).
    cbn [mbind outcome_bind app].
    by destruct (List.filter _ phrases).
  - destruct (List.filter _ phrases) as [|w l] eqn:Hf; simpl.
    + split; [done|]. intros (w & Hin & Hocc).
      assert (In w (List.filter (fun w => phrase_occurs w response) phrases)) as Hw
        by (apply filter_In; done).
      rewrite Hf in Hw. done.
    + split; [|done]. intros _. exists w.
      apply (filter_In (fun w => phrase_occurs w response)). rewrite Hf. by left.
Qed.

Lemma validateBannedWords_plain_phrases_witness :
  validateBannedWords "This is BAD" (banned_validator ["bad"; "evil"] false)
  = Returns {| passed := false;
               validatorType := "banned_words";
               message := Some "Response contains banned words: bad";
               details := Some [("banned_words", JArray fresh [JString "bad"])] |}.
Proof.
  exact (proj1 (validateBannedWords_plain_phrases "This is BAD"
                  (banned_validator ["bad"; "evil"] false) ["bad"; "evil"]
                  eq_refl eq_refl)).
Defined.

(** C7 (the code departs from the claim).  The phrases are put into a
    regular expression as they are.  The example of the claim holds:
    the response "This is BAD" fails for the phrase bad, reported as
    configured.  But the phrase a.c does not occur in the response
    abc, and the validator fails the response for it; and with the
    phrase c++ the validator throws a [SyntaxError] where the claim
    has it produce an outcome. *)
Theorem validateBannedWords_reads_phrases_as_patterns :
  validateBannedWords "This is BAD" (banned_validator ["bad"; "evil"] false)
  = Returns {| passed := false;
               validatorType := "banned_words";
               message := Some "Response contains banned words: bad";
               details := Some [("banned_words", JArray fresh [JString "bad"])] |}
  /\ phrase_occurs "a.c" "abc" = false
  /\ validateBannedWords "abc" (banned_validator ["a.c"] false)
     = Returns {| passed := false;
                  validatorType := "banned_words";
                  message := Some "Response contains banned words: a.c";
                  details := Some [("banned_words", JArray fresh [JString "a.c"])] |}
  /\ validateBannedWords "I like c++" (banned_validator ["c++"] false)
     = Throws (JsSyntaxError "Invalid regular expression: /\bc++\b/i: Nothing to repeat").
Proof. repeat split; vm_compute; reflexivity. Qed.

End ValidatorsFacts.

(** ** The validation runnable *)

Module ValidationRunnableFacts.

Import Validators ValidationRunnable ValidatorsFacts.

Lemma validateResponse_single (content : string) (validator : Validator) :
  enabled validator = true ->
  validateResponse content [validator] ≫= first_result =
    match runValidator content validator with
    | Returns o =>
        if negb (passed o) && truthy_flag (fail_on_violation validator)
        then Throws (GuardrailViolationError
                       (message_or_default o) (type validator) (details o))
        else Returns o
    | Throws e => Throws e
    | Unmodelled => Unmodelled
    end.
Proof.
  intros Hen. unfold validateResponse. simpl. rewrite Hen. simpl.
  destruct (runValidator content validator) as [o|e|]; simpl; try done.
  by destruct (negb (passed o) && truthy_flag (fail_on_violation validator)).
Qed.

Lemma dispatch_custom (custom : gmap string CustomValidatorFn) (content : string)
    (validator : Validator) (customValidator : CustomValidatorFn) :
  custom !! type validator = Some customValidator ->
  dispatch custom content validator = Returns (customValidator content validator).
Proof. intros Hf. unfold dispatch, implementation_of. by rewrite Hf. Qed.

Lemma dispatch_inherited (custom : gmap string CustomValidatorFn) (content : string)
    (validator : Validator) (member : jsvalue) :
  custom !! type validator = None ->
  ObjectPrototype.member (type validator) = Some member ->
  dispatch custom content validator = call_member member.
Proof.
  intros Hnone Hm. unfold dispatch, implementation_of. rewrite Hnone. simpl.
  rewrite Hm. simpl. by rewrite (ObjectPrototypeFacts.member_truthy _ _ Hm).
Qed.

Lemma dispatch_builtin (custom : gmap string CustomValidatorFn) (content : string)
    (validator : Validator) :
  custom !! type validator = None ->
  ~ In (type validator) ObjectPrototype.names ->
  dispatch custom content validator = builtin content validator.
Proof.
  intros Hnone Hm%ObjectPrototypeFacts.member_None.
  unfold dispatch, implementation_of. rewrite Hnone. simpl. by rewrite Hm.
Qed.

(** What a member of [Object.prototype] does when it is called as a
    validator: it throws a [TypeError], or it answers a value that is
    no validation result. *)
Lemma call_member_cases (member : jsvalue) :
  call_member member = Unmodelled \/ exists message, call_member member = Throws (JsTypeError message).
Proof.
  destruct member; simpl; eauto. repeat case_match; eauto.
Qed.

(** C5.  For an enabled descriptor whose type has a custom
    implementation registered, the outcome [runValidation] records is
    the value of that implementation at the response text and the
    descriptor, whatever the type is (a built-in type included) and
    whatever the built-in evaluator would do: the built-in evaluator
    does not run for it.  When the map owns no implementation for the
    type, the code reads [customValidators[type]] all the same: for a
    type that is no name of a member of [Object.prototype] the outcome
    is that of the built-in path ([validateResponse] on the single
    descriptor); for a type that is such a name, the member is called
    in the place of an implementation, and the built-in evaluator
    does not run either.  The built-in path is taken only when
    [customValidators[type]] is falsy, and then the map owns no
    implementation for the type. *)
Theorem custom_implementation_takes_precedence
    (custom : gmap string CustomValidatorFn) (content : string) (validator : Validator) :
  enabled validator = true ->
  (forall customValidator,
      custom !! type validator = Some customValidator ->
      dispatch custom content validator = Returns (customValidator content validator)
      /\ forall rest results,
           runValidation_from custom content (validator :: rest) results
           = runValidation_from custom content rest
               (results ++ [customValidator content validator]))
  /\ (custom !! type validator = None ->
      ~ In (type validator) ObjectPrototype.names ->
      dispatch custom content validator =
        match runValidator content validator with
        | Returns o =>
            if negb (passed o) && truthy_flag (fail_on_violation validator)
            then Throws (GuardrailViolationError
                           (message_or_default o) (type validator) (details o))
            else Returns o
        | Throws e => Throws e
        | Unmodelled => Unmodelled
        end)
  /\ (custom !! type validator = None ->
      In (type validator) ObjectPrototype.names ->
      exists member,
        ObjectPrototype.member (type validator) = Some member
        /\ dispatch custom content validator = call_member member
        /\ (call_member member = Unmodelled
            \/ exists message, call_member member = Throws (JsTypeError message)))
  /\ (ObjectPrototype.truthy (implementation_of custom (type validator)) = false
      <-> custom !! type validator = None /\ ~ In (type validator) ObjectPrototype.names)
  /\ dispatch custom content validator
     = if ObjectPrototype.truthy (implementation_of custom (type validator))
       then call_implementation (implementation_of custom (type validator)) content validator
       else builtin content validator.
Proof.
  intros Hen. split; [|split; [|split; [|split]]];
    [| | |apply ObjectPrototypeFacts.lookup_truthy|reflexivity].
  - intros f Hf. rewrite (dispatch_custom _ _ _ _ Hf). split; [done|].
    intros rest results. cbn [runValidation_from]. rewrite Hen. cbn [negb].
    by rewrite (dispatch_custom _ _ _ _ Hf).
  - intros Hnone Hother. rewrite dispatch_builtin by done.
    by apply validateResponse_single.
  - intros Hnone (member & Hm)%ObjectPrototypeFacts.member_Some.
    exists member. split; [done|]. split; [by apply dispatch_inherited|].
    apply call_member_cases.
Qed.

Lemma custom_implementation_takes_precedence_witness :
  runValidation
    (runnable_of [length_validator "max_length" 3 true]
       {["max_length" := always_passes]} true)
    "a long response"
  = Returns [{| passed := true; validatorType := "max_length";
                message := None; details := None |}].
Proof.
  exact (proj2 (proj1 (custom_implementation_takes_precedence
                         {["max_length" := always_passes]} "a long response"
                         (length_validator "max_length" 3 true) eq_refl)
                      always_passes eq_refl) [] []).
Defined.

(** *** Construction *)

Section Reconciliation.

Variable custom : gmap string CustomValidatorFn.

Lemma missingValidators_filter (vs : list Validator) :
  missingValidators custom vs = map type (List.filter (unresolved custom) vs).
Proof.
  induction vs as [|v vs IH]; [done|].
  cbn [missingValidators List.filter]. unfold unresolved at 1.
  destruct (enabled v); cbn [negb andb]; [|done].
  destruct (isOOTBValidator (type v)); cbn [negb andb]; [done|].
  unfold implementation_of.
  destruct (ObjectPrototype.truthy _) eqn:Ht; cbn [negb].
  - assert (match custom !! type v with Some _ => false | None => true end
            && negb (existsb (String.eqb (type v)) ObjectPrototype.names) = false) as ->;
      [|done].
    destruct (custom !! type v) eqn:Hc; [done|]. cbn [andb].
    apply negb_false_iff, ObjectPrototypeFacts.existsb_eqb_In.
    destruct (in_dec String.string_dec (type v) ObjectPrototype.names) as [|Hout]; [done|].
    assert (ObjectPrototype.truthy
              (ObjectPrototype.lookup (@None CustomValidatorFn) (type v)) = false)
      as Hf by (by apply ObjectPrototypeFacts.lookup_truthy).
    congruence.
  - apply ObjectPrototypeFacts.lookup_truthy in Ht as [Hc Hout].
    apply ObjectPrototypeFacts.existsb_eqb_not_In in Hout. rewrite Hc, Hout.
    cbn [andb negb map]. by rewrite IH.
Qed.

Lemma missingValidators_enabled_only (vs : list Validator) :
  missingValidators custom vs = missingValidators custom (List.filter enabled vs).
Proof.
  induction vs as [|v vs IH]; [done|]. simpl.
  destruct (enabled v) eqn:Hen; simpl; [|done].
  rewrite Hen. simpl. by rewrite IH.
Qed.

Lemma missingValidators_In (vs : list Validator) (t : string) :
  In t (missingValidators custom vs) <->
  exists v, In v vs /\ enabled v = true /\ isOOTBValidator (type v) = false
            /\ custom !! type v = None /\ ~ In (type v) ObjectPrototype.names
            /\ type v = t.
Proof.
  rewrite missingValidators_filter, in_map_iff. split.
  - intros (v & <- & Hin). apply filter_In in Hin as [Hin Hu].
    unfold unresolved in Hu. apply andb_true_iff in Hu as [Hu Hm].
    apply andb_true_iff in Hu as [Hu Hc].
    apply andb_true_iff in Hu as [Hen Ho]. apply negb_true_iff in Ho.
    apply negb_true_iff, ObjectPrototypeFacts.existsb_eqb_not_In in Hm.
    exists v. repeat split; try done. by destruct (custom !! type v).
  - intros (v & Hin & Hen & Ho & Hc & Hm & <-). exists v. split; [done|].
    apply filter_In. split; [done|]. unfold unresolved.
    apply ObjectPrototypeFacts.existsb_eqb_not_In in Hm. by rewrite Hen, Ho, Hc, Hm.
Qed.

End Reconciliation.

Lemma missing_message_names (missing : list string) (t : string) :
  In t missing -> Str.occurs t (missing_message missing).
Proof.
  intros Hin. unfold missing_message.
  apply StrFacts.occurs_app_r, StrFacts.occurs_app_l.
  by apply StrFacts.occurs_join.
Qed.

(** Constructing a [ValidationRunnable] fails exactly when some
    enabled descriptor of a type other than the four built-in ones has
    no entry in the custom-implementation map and a type that is no
    name of a member of [Object.prototype]: the code reads the map
    with [customValidators[type]], which answers such a member for
    its name.  Disabled descriptors do not count: the
    missing types are those of the enabled descriptors alone.  The
    error is a single one; it lists the types of these descriptors in
    the order of their declaration, so that its text names every one
    of them; otherwise the instance is built with the given
    descriptors and map.  With the enabled types alpha and beta and a
    map that holds alpha only, construction fails with a text that
    names beta. *)
Theorem construction_fails_iff_implementation_missing
    (options : ValidationRunnableOptions) :
  let custom := default ∅ (customValidators options) in
  let required (v : Validator) : Prop :=
    In v (validators options) /\ enabled v = true
    /\ ~ In (type v) ["banned_words"; "max_length"; "min_length"; "regex_match"]
    /\ custom !! type v = None
    /\ ~ In (type v) ObjectPrototype.names in
  ((exists v, required v) <-> exists e, new options = Throws e)
  /\ (forall e, new options = Throws e ->
      e = Error (missing_message (missingValidators custom (validators options)))
      /\ forall v, required v -> Str.occurs (type v) (missing_message (missingValidators custom (validators options))))
  /\ missingValidators custom (validators options)
     = map type (List.filter (unresolved custom) (validators options))
  /\ missingValidators custom (validators options)
     = missingValidators custom (List.filter enabled (validators options))
  /\ ((forall v, ~ required v) ->
      new options =
        Returns {| this_validators := validators options;
                   this_customValidators := custom;
                   this_throwOnFailure := default false (throwOnFailure options);
                   this_validationKey := default "_validation" (validationKey options) |})
  /\ (forall implementation,
        validators options = [custom_validator "alpha"; custom_validator "beta"] ->
        customValidators options = Some {["alpha" := implementation]} ->
        exists text, new options = Throws (Error text) /\ Str.occurs "beta" text).
Proof.
  intros custom required.
  assert (forall v, required v <->
            In v (validators options) /\ enabled v = true
            /\ isOOTBValidator (type v) = false /\ custom !! type v = None
            /\ ~ In (type v) ObjectPrototype.names) as Hreq.
  { intros v. unfold required.
    assert (~ In (type v) ["banned_words"; "max_length"; "min_length"; "regex_match"]
            <-> isOOTBValidator (type v) = false) as ->; [|done].
    rewrite <- not_true_iff_false, isOOTBValidator_spec_in. done. }
  assert (forall t, In t (missingValidators custom (validators options)) <->
            exists v, required v /\ type v = t) as Hmiss.
  { intros t. rewrite missingValidators_In. split.
    - intros (v & H1 & H2 & H3 & H4 & H5 & H6). exists v. split; [|done]. apply Hreq. done.
    - intros (v & Hv & Ht). apply Hreq in Hv as (H1 & H2 & H3 & H4 & H5). by exists v. }
  assert (new options =
          if (0 <? length (missingValidators custom (validators options)))%nat
          then Throws (Error (missing_message (missingValidators custom (validators options))))
          else Returns {| this_validators := validators options;
                          this_customValidators := custom;
                          this_throwOnFailure := default false (throwOnFailure options);
                          this_validationKey := default "_validation" (validationKey options) |})
    as Hnew.
  { unfold new, validateValidatorImplementations. cbn [this_customValidators this_validators].
    fold custom.
    by destruct (0 <? length (missingValidators custom (validators options)))%nat. }
  split; [|split; [|split; [|split; [|split]]]].
  - split.
    + intros (v & Hv).
      assert (In (type v) (missingValidators custom (validators options))) as Hin.
      { apply Hmiss. by exists v. }
      rewrite Hnew.
      destruct (missingValidators custom (validators options)); [done|]. simpl. eauto.
    + intros (e & He). rewrite Hnew in He.
      destruct (missingValidators custom (validators options)) as [|t l] eqn:Hm; [done|].
      destruct (proj1 (Hmiss t) (or_introl eq_refl)) as (v & Hv & _). by exists v.
  - intros e He. rewrite Hnew in He.
    destruct (0 <? length (missingValidators custom (validators options)))%nat; [|done].
    injection He as <-. split; [done|].
    intros v Hv. apply missing_message_names, Hmiss. by exists v.
  - apply missingValidators_filter.
  - apply missingValidators_enabled_only.
  - intros Hnone. rewrite Hnew.
    destruct (missingValidators custom (validators options)) as [|t l] eqn:Hm; [done|].
    destruct (proj1 (Hmiss t) (or_introl eq_refl)) as (v & Hv & _).
    by destruct (Hnone v).
  - intros f Hvs Hc. rewrite Hnew. subst custom. rewrite Hvs, Hc.
    eexists. split; [reflexivity|].
    apply missing_message_names. cbn. by left.
Qed.

Lemma construction_fails_iff_implementation_missing_witness :
  exists text,
    new {| validators := [custom_validator "alpha"; custom_validator "beta"];
           customValidators := Some {["alpha" := always_passes]};
           throwOnFailure := Some true; validationKey := None |}
    = Throws (Error text)
    /\ Str.occurs "beta" text.
Proof.
  exact (proj2 (proj2 (proj2 (proj2 (proj2
           (construction_fails_iff_implementation_missing
              {| validators := [custom_validator "alpha"; custom_validator "beta"];
                 customValidators := Some {["alpha" := always_passes]};
                 throwOnFailure := Some true; validationKey := None |})))))
           always_passes eq_refl eq_refl).
Defined.

(** C3 (the code departs from the claim).  The example of the claim
    holds: with the enabled types alpha and beta and a map that holds
    alpha only, the construction fails and the error lists beta.  But
    an enabled descriptor of the type toString, which is not built in
    and has no entry in the implementation map, does not make the
    construction fail: the code tests [customValidators[type]], and
    the map answers the function that every object inherits under
    that name.  The runnable that is built then calls that function
    as the implementation: for the type hasOwnProperty [invoke] raises
    a [TypeError]. *)
Theorem construction_returns_for_an_inherited_name :
  new {| validators := [custom_validator "alpha"; custom_validator "beta"];
         customValidators := Some {["alpha" := always_passes]};
         throwOnFailure := None; validationKey := None |}
  = Throws (Error (missing_message ["beta"]))
  /\ new {| validators := [custom_validator "toString"]; customValidators := Some ∅;
            throwOnFailure := None; validationKey := None |}
     = Returns (runnable_of [custom_validator "toString"] ∅ false)
  /\ new {| validators := [custom_validator "alpha"; custom_validator "hasOwnProperty"];
            customValidators := Some {["alpha" := always_passes]};
            throwOnFailure := None; validationKey := None |}
     = Returns (runnable_of [custom_validator "alpha"; custom_validator "hasOwnProperty"]
                  {["alpha" := always_passes]} false)
  /\ invoke (runnable_of [custom_validator "alpha"; custom_validator "hasOwnProperty"]
               {["alpha" := always_passes]} false) (JString "hello")
     = Throws (JsTypeError "Cannot convert undefined or null to object").
Proof. repeat split; vm_compute; reflexivity. Qed.

(** *** The throw policy of [invoke] *)

(** C2 (the code departs from the claim).  Three runs of [invoke]:
    - with [throwOnFailure = false], a failing built-in validator that
      has [fail_on_violation] set makes [invoke] raise: the built-in
      path goes through [validateResponse], which throws by itself;
    - with [throwOnFailure = true] and three enabled validators of
      which only the second fails, without [fail_on_violation],
      [invoke] raises when the first validator has the same type and
      has [fail_on_violation] set: the flag is looked up by type among
      all descriptors;
    - with [throwOnFailure = true], a failing custom validator with
      [fail_on_violation] set followed by a failing built-in one with
      the flag set: the error carries the second failure, raised
      before the outcome set is complete. *)
Theorem invoke_departs_from_throw_policy :
  invoke (runnable_of [banned_validator ["bad"] true] ∅ false) (JString "This is bad")
  = Throws (GuardrailViolationError
              "Response contains banned words: bad" "banned_words"
              (Some [("banned_words", JArray fresh [JString "bad"])]))
  /\ invoke
       (runnable_of [length_validator "max_length" 100 true;
                     length_validator "max_length" 5 false;
                     length_validator "min_length" 1 true] ∅ true)
       (JString "hello world")
     = Throws (GuardrailViolationError
                 "Response exceeds maximum length: 11 > 5 characters" "max_length"
                 (Some [("length", JNumber 11); ("max_characters", JNumber 5)]))
  /\ invoke
       (runnable_of [critical_custom_validator "tone"; banned_validator ["bad"] true]
                    {["tone" := always_fails "first failure"]} true)
       (JString "This is bad")
     = Throws (GuardrailViolationError
                 "Response contains banned words: bad" "banned_words"
                 (Some [("banned_words", JArray fresh [JString "bad"])]))
  /\ new {| validators := [banned_validator ["bad"] true]; customValidators := None;
            throwOnFailure := Some false; validationKey := None |}
     = Returns (runnable_of [banned_validator ["bad"] true] ∅ false).
Proof. repeat split; vm_compute; reflexivity. Qed.

(** *** The throw policy on custom validators *)







End ValidationRunnableFacts.

(** ** The template engine *)

Module TemplateEngineFacts.

Import TemplateEngine StrFacts.

(** *** The matcher against the denotation of the pattern *)

Lemma first_some_Some {A B} (f : A -> option B) (l : list A) (y : B) :
  first_some f l = Some y -> exists x, In x l /\ f x = Some y.
Proof.
  induction l as [|x l IH]; [done|]. simpl.
  destruct (f x) as [z|] eqn:Hfx.
  - intros [= ->]. exists x. auto.
  - intros H. destruct (IH H) as (x' & Hin & Hx'). exists x'. auto.
Qed.

Lemma first_some_None {A B} (f : A -> option B) (l : list A) (x : A) :
  first_some f l = None -> In x l -> f x = None.
Proof.
  induction l as [|x' l IH]; [done|]. simpl.
  destruct (f x') eqn:Hfx; [done|]. intros H [<-|Hin]; auto.
Qed.

Lemma name_tails_sound (s n r : string) :
  In (n, r) (name_tails s) -> s = n +:+ r /\ all_name_chars n = true.
Proof.
  revert n r. induction s as [|c s IH]; intros n r; simpl.
  - intros [[= <- <-]|[]]. done.
  - destruct (Str.is_name_char c) eqn:Hc.
    + rewrite in_app_iff, in_map_iff. intros [((n' & r') & [= <- <-] & Hin)|[[= <- <-]|[]]].
      * destruct (IH _ _ Hin) as [-> Hn]. simpl. by rewrite Hc, Hn.
      * done.
    + intros [[= <- <-]|[]]. done.
Qed.

Lemma name_tails_complete (n r : string) :
  all_name_chars n = true -> In (n, r) (name_tails (n +:+ r)).
Proof.
  induction n as [|c n IH]; simpl.
  - intros _. rewrite ?app_nil_l. destruct r as [|c r]; simpl; [by left|].
    destruct (Str.is_name_char c); [|by left].
    apply in_app_iff. right. by left.
  - intros [Hc Hn]%andb_true_iff. rewrite ?app_cons. simpl. rewrite Hc.
    apply in_app_iff. left. apply in_map_iff. exists (n, r). auto.
Qed.

Lemma name_splits_sound (s n r : string) :
  In (n, r) (name_splits s) -> s = n +:+ r /\ is_name n = true.
Proof.
  destruct s as [|c s]; simpl; [done|].
  destruct (Str.is_name_start c) eqn:Hc; [|done].
  rewrite in_map_iff. intros ((n' & r') & [= <- <-] & Hin).
  destruct (name_tails_sound _ _ _ Hin) as [-> Hn]. simpl. by rewrite Hc, Hn.
Qed.

Lemma name_splits_complete (n r : string) :
  is_name n = true -> In (n, r) (name_splits (n +:+ r)).
Proof.
  destruct n as [|c n]; simpl; [done|].
  intros [Hc Hn]%andb_true_iff. rewrite ?app_cons. simpl. rewrite Hc.
  apply in_map_iff. exists (n, r). split; [done|]. by apply name_tails_complete.
Qed.

Lemma match_items_sound (items : list pitem) (s rest : string) (captures : list string) :
  match_items items s = Some (captures, rest) ->
  exists token, s = token +:+ rest /\ matches_items items token.
Proof.
  revert s rest captures. induction items as [|[a|] items IH]; intros s rest captures; simpl.
  - intros [= <- <-]. exists EmptyString. split; [done|constructor].
  - destruct s as [|c s]; [done|].
    destruct (Ascii.eqb a c) eqn:Hac; [|done]. apply Ascii.eqb_eq in Hac as ->.
    intros H. destruct (IH _ _ _ H) as (token & -> & Hm).
    exists (String c token). split; [done|]. by constructor.
  - intros H. apply first_some_Some in H as ((n & r) & Hin & Hf). simpl in Hf.
    destruct (match_items items r) as [[caps rest']|] eqn:Hm; [|done].
    injection Hf as <- <-.
    destruct (name_splits_sound _ _ _ Hin) as [-> Hn].
    destruct (IH _ _ _ Hm) as (token & -> & Htok).
    exists (n +:+ token). split; [by rewrite app_assoc|]. by constructor.
Qed.

Lemma match_items_complete (items : list pitem) (token post : string) :
  matches_items items token -> match_items items (token +:+ post) <> None.
Proof.
  induction 1 as [|c items s _ IH|n items s Hn _ IH]; simpl.
  - done.
  - rewrite ?app_cons. simpl. by rewrite Ascii.eqb_refl.
  - intros Hnone. rewrite app_assoc in Hnone.
    pose proof (first_some_None _ _ _ Hnone (name_splits_complete n (s +:+ post) Hn)) as Hf.
    simpl in Hf. destruct (match_items items (s +:+ post)) as [[caps rest]|]; done.
Qed.

(** *** Texts without placeholders *)

Section Scan.

Variable engine : TemplateEngine.

Lemma no_placeholder_tail (c : ascii) (s : string) :
  ~ has_placeholder engine (String c s) -> ~ has_placeholder engine s.
Proof.
  intros Hn (pre & token & post & -> & Htok). apply Hn.
  exists (String c pre), token, post. done.
Qed.

Lemma no_placeholder_no_match (s : string) :
  ~ has_placeholder engine s -> match_items (getSyntaxPattern engine) s = None.
Proof.
  intros Hn. destruct (match_items _ s) as [[caps rest]|] eqn:Hm; [|done].
  destruct (match_items_sound _ _ _ _ Hm) as (token & -> & Htok).
  destruct Hn. exists EmptyString, token, rest. done.
Qed.

Lemma scan_finds_placeholder (s : string) (offset : nat) :
  has_placeholder engine s ->
  existsb is_match (scan (getSyntaxPattern engine) s offset 0) = true.
Proof.
  intros (pre & token & post & -> & Htok). revert offset.
  induction pre as [|c pre IH]; intros offset.
  - rewrite ?app_nil_l.
    pose proof (match_items_complete _ token post Htok) as Hm.
    destruct (token +:+ post) as [|c s] eqn:Hs; simpl.
    + destruct (match_items _ EmptyString) as [[caps rest]|]; done.
    + destruct (match_items _ (String c s)) as [[caps rest]|]; done.
  - rewrite ?app_cons. simpl.
    destruct (match_items _ (String c _)) as [[caps rest]|]; [done|].
    simpl. apply IH.
Qed.

Lemma scan_without_placeholder (s : string) (offset : nat)
    (fragments : gmap string string)
    (variables : gmap string jsvalue) (allowUndefined : bool) :
  ~ has_placeholder engine s ->
  replace_fragments fragments (scan (getSyntaxPattern engine) s offset 0) = (s, false)
  /\ replace_variables variables allowUndefined
       (scan (getSyntaxPattern engine) s offset 0) = Returns s.
Proof.
  revert offset. induction s as [|c s IH]; intros offset Hn.
  - simpl. by rewrite (no_placeholder_no_match _ Hn).
  - simpl. rewrite (no_placeholder_no_match _ Hn). simpl.
    destruct (IH (S offset) (no_placeholder_tail _ _ Hn)) as [-> ->]. done.
Qed.

End Scan.

(** *** Validation of the variables *)













(** *** The loop of [substituteFragments] *)

Section Passes.

Variable engine : TemplateEngine.
Variable fragments : gmap string string.

Lemma after_passes_S (n : nat) (text : string) :
  after_passes (S n) engine fragments text
  = fst (pass engine fragments (after_passes n engine fragments text)).
Proof.
  revert text. induction n as [|n IH]; intros text; [done|].
  change (after_passes (S (S n)) engine fragments text)
    with (after_passes (S n) engine fragments (fst (pass engine fragments text))).
  by rewrite IH.
Qed.

(** [n] passes that all replace a fragment, from depth [d]. *)
Lemma while_loop_replacing (n fuel d : nat) (text : string) :
  (forall j, (j < n)%nat -> replaces_after j engine fragments text = true) ->
  (d + n <= maxDepth)%nat ->
  while_loop (n + fuel) engine fragments {| result := text; depth := d; hasMore := true |}
  = while_loop fuel engine fragments
      {| result := after_passes n engine fragments text;
         depth := d + n; hasMore := true |}.
Proof.
  revert d text. induction n as [|n IH]; intros d text Hrep Hd.
  - by rewrite Nat.add_0_r.
  - cbn [Nat.add while_loop]. unfold loop_condition. cbn [hasMore depth andb].
    assert ((d <? maxDepth)%nat = true) as -> by (apply Nat.ltb_lt; lia).
    unfold loop_body. cbn [result depth].
    pose proof (Hrep 0%nat ltac:(lia)) as H0. unfold replaces_after in H0.
    cbn [after_passes] in H0. rewrite H0.
    rewrite (IH (S d) (fst (pass engine fragments text))).
    + cbn [after_passes]. do 2 f_equal. lia.
    + intros j Hj. apply (Hrep (S j)). lia.
    + lia.
Qed.

(** The loop leaves with its condition false: the unrolling of
    [maxDepth] steps is the whole loop. *)
Lemma while_loop_exits (fuel : nat) (st : loop_state) :
  (maxDepth <= depth st + fuel)%nat ->
  loop_condition (while_loop fuel engine fragments st) = false.
Proof.
  revert st. induction fuel as [|fuel IH]; intros st Hfuel.
  - simpl. unfold loop_condition.
    assert ((depth st <? maxDepth)%nat = false) as -> by (apply Nat.ltb_ge; lia).
    apply andb_false_r.
  - simpl. destruct (loop_condition st) eqn:Hc; [|done].
    apply IH. unfold loop_body. simpl. lia.
Qed.

Lemma fragments_loop_exits (template : string) :
  loop_condition (fragments_loop engine template fragments) = false.
Proof. apply while_loop_exits. simpl. lia. Qed.

End Passes.

(** *** A pass that replaces nothing changes nothing *)

Lemma drop_0 (s : string) : drop 0 s = s.
Proof. by destruct s. Qed.

Lemma drop_app_length (a b : string) : drop (String.length a) (a +:+ b) = b.
Proof. induction a as [|c a IH]; [apply drop_0|]. rewrite ?app_cons. simpl. apply IH. Qed.

Lemma take_app_length (a b : string) : take (String.length a) (a +:+ b) = a.
Proof.
  induction a as [|c a IH]; [by destruct (EmptyString +:+ b)|].
  rewrite ?app_cons. simpl. by rewrite IH.
Qed.

Lemma length_app_minus (a b : string) :
  (String.length (a +:+ b) - String.length b)%nat = String.length a.
Proof. rewrite length_app. lia. Qed.

Lemma scan_text (items : list pitem) (s : string) (offset skip : nat) :
  (skip <= String.length s)%nat ->
  segments_text (scan items s offset skip) = drop skip s.
Proof.
  revert offset skip. induction s as [|c s IH]; intros offset skip Hskip.
  - simpl in Hskip. assert (skip = 0%nat) as -> by lia. simpl.
    destruct (match_items items EmptyString) as [[caps rest]|]; done.
  - destruct skip as [|k].
    + cbn [scan drop].
      destruct (match_items items (String c s)) as [[caps rest]|] eqn:Hm.
      * destruct (match_items_sound _ _ _ _ Hm) as (token & Hs & _).
        rewrite Hs, length_app_minus, take_app_length.
        destruct token as [|c' token].
        -- simpl. rewrite app_nil_l in Hs. rewrite <- Hs. simpl.
           rewrite IH by lia. by rewrite drop_0.
        -- rewrite app_cons in Hs. injection Hs as -> ->.
           cbn [String.length segments_text]. rewrite IH.
           ++ by rewrite drop_app_length.
           ++ rewrite length_app. lia.
      * simpl. rewrite IH by lia. by rewrite drop_0.
    + cbn [scan drop]. apply IH. simpl in Hskip. lia.
Qed.

Lemma replace_fragments_nothing (fragments : gmap string string) (segments : list segment) :
  snd (replace_fragments fragments segments) = false ->
  fst (replace_fragments fragments segments) = segments_text segments.
Proof.
  induction segments as [|[c|m caps off] segments IH]; simpl; [done| |].
  - intros H. by rewrite IH.
  - destruct (negb (is_undefined (fragment_value fragments (callback_name caps off))));
      simpl; [done|].
    intros H. by rewrite IH.
Qed.

Lemma pass_nothing (engine : TemplateEngine) (fragments : gmap string string) (text : string) :
  snd (pass engine fragments text) = false ->
  fst (pass engine fragments text) = text.
Proof.
  unfold pass. intros H. rewrite (replace_fragments_nothing _ _ H).
  rewrite scan_text by lia. apply drop_0.
Qed.

Lemma first_false (P : nat -> bool) (j : nat) :
  P j = false ->
  exists k, (k <= j)%nat /\ (forall i, (i < k)%nat -> P i = true) /\ P k = false.
Proof.
  assert (forall n, (exists k, (k <= n)%nat /\ (forall i, (i < k)%nat -> P i = true) /\ P k = false)
                    \/ (forall i, (i <= n)%nat -> P i = true)) as Hall.
  { induction n as [|n [(k & Hk & Hrest)|Htrue]].
    - destruct (P 0%nat) eqn:H0.
      + right. intros i Hi. by replace i with 0%nat by lia.
      + left. exists 0%nat. split; [lia|]. split; [|done]. intros i Hi. lia.
    - left. exists k. split; [lia|done].
    - destruct (P (S n)) eqn:Hn.
      + right. intros i Hi. destruct (decide (i = S n)) as [->|]; [done|].
        apply Htrue. lia.
      + left. exists (S n). split; [lia|]. split; [|done].
        intros i Hi. apply Htrue. lia. }
  intros Hj. destruct (Hall j) as [H|H]; [done|].
  rewrite (H j) in Hj by lia. done.
Qed.

Section Outcome.

Variable engine : TemplateEngine.
Variable fragments : gmap string string.
Variable template : string.

(** The loop when pass [k + 1] is the first to replace nothing. *)
Lemma fragments_loop_settles (k : nat) :
  (forall j, (j < k)%nat -> replaces_after j engine fragments template = true) ->
  replaces_after k engine fragments template = false ->
  (k < maxDepth)%nat ->
  fragments_loop engine template fragments
  = {| result := after_passes k engine fragments template;
       depth := S k; hasMore := false |}.
Proof.
  intros Hrep Hstop Hk. unfold fragments_loop.
  replace maxDepth with (k + S (maxDepth - S k))%nat at 1 by lia.
  rewrite while_loop_replacing by (done || lia).
  cbn [while_loop]. unfold loop_condition. cbn [hasMore depth andb Nat.add].
  assert ((k <? maxDepth)%nat = true) as -> by (apply Nat.ltb_lt; lia).
  unfold loop_body. cbn [result depth]. unfold replaces_after in Hstop.
  rewrite Hstop, (pass_nothing _ _ _ Hstop).
  by destruct (maxDepth - S k)%nat.
Qed.

(** The loop when each of the first [maxDepth - 1] passes replaces
    a fragment. *)
Lemma fragments_loop_reaches_cap :
  (forall j, (S j < maxDepth)%nat -> replaces_after j engine fragments template = true) ->
  fragments_loop engine template fragments
  = {| result := after_passes maxDepth engine fragments template;
       depth := maxDepth;
       hasMore := replaces_after (maxDepth - 1) engine fragments template |}.
Proof.
  intros Hrep. unfold fragments_loop.
  change maxDepth with (9 + 1)%nat at 1.
  rewrite while_loop_replacing.
  - cbn [while_loop]. unfold loop_condition. cbn [hasMore depth andb Nat.add].
    change (9 <? maxDepth)%nat with true. cbn iota.
    unfold loop_body. cbn [result depth].
    rewrite <- (after_passes_S engine fragments 9 template). reflexivity.
  - intros j Hj. apply Hrep. unfold maxDepth. lia.
  - unfold maxDepth. lia.
Qed.

(** [substituteFragments] raises the depth error exactly when each
    of its first nine passes replaces a fragment. *)
Lemma substituteFragments_throws_iff :
  substituteFragments engine template fragments = Throws depth_error
  <-> forall j, (S j < maxDepth)%nat -> replaces_after j engine fragments template = true.
Proof.
  split.
  - intros Hthrow j Hj.
    destruct (replaces_after j engine fragments template) eqn:Hrj; [done|].
    exfalso.
    destruct (first_false (fun i => replaces_after i engine fragments template) j Hrj)
      as (k & Hk & Hbefore & Hstop).
    unfold substituteFragments in Hthrow.
    rewrite (fragments_loop_settles k Hbefore Hstop) in Hthrow by lia.
    cbn [depth result] in Hthrow.
    assert ((maxDepth <=? S k)%nat = false) as Hlt by (apply Nat.leb_gt; lia).
    by rewrite Hlt in Hthrow.
  - intros Hrep. unfold substituteFragments.
    by rewrite (fragments_loop_reaches_cap Hrep).
Qed.

End Outcome.

Lemma forallb_false {A : Type} (f : A -> bool) (l : list A) :
  forallb f l = false -> exists x, In x l /\ f x = false.
Proof.
  induction l as [|a l IH]; [done|]. simpl.
  destruct (f a) eqn:Ha; simpl.
  - intros H. destruct (IH H) as (x & Hin & Hx). exists x. split; [by right|done].
  - intros _. exists a. split; [by left|done].
Qed.

(** [substituteFragments] always ends, in one of two ways: it returns
    the text left by the passes before the first one that replaces
    nothing, when that pass is among the first nine, or it raises the
    depth error, when each of the first nine passes replaces a
    fragment. *)
Theorem substituteFragments_returns_or_raises (engine : TemplateEngine)
    (fragments : gmap string string) (template : string) :
  (exists k, (S k < maxDepth)%nat
     /\ (forall j, (j < k)%nat -> replaces_after j engine fragments template = true)
     /\ replaces_after k engine fragments template = false
     /\ substituteFragments engine template fragments
        = Returns (after_passes k engine fragments template))
  \/ ((forall j, (S j < maxDepth)%nat -> replaces_after j engine fragments template = true)
      /\ substituteFragments engine template fragments = Throws depth_error).
Proof.
  destruct (forallb (fun j => replaces_after j engine fragments template)
              (seq 0 (maxDepth - 1))) eqn:Hall.
  - right.
    assert (forall j, (S j < maxDepth)%nat ->
              replaces_after j engine fragments template = true) as Hrep.
    { intros j Hj. rewrite forallb_forall in Hall. apply Hall, in_seq. lia. }
    split; [done|]. by apply substituteFragments_throws_iff.
  - left.
    assert (exists j, (S j < maxDepth)%nat
              /\ replaces_after j engine fragments template = false) as (j & Hj & Hstop).
    { destruct (forallb_false _ _ Hall) as (j & Hin & Hstop).
      exists j. split; [|done]. apply in_seq in Hin. lia. }
    destruct (first_false (fun i => replaces_after i engine fragments template) j Hstop)
      as (k & Hk & Hbefore & Hfirst).
    exists k. split; [lia|]. split; [done|]. split; [done|].
    unfold substituteFragments.
    rewrite (fragments_loop_settles engine fragments template k Hbefore Hfirst) by lia.
    cbn [depth result].
    assert ((maxDepth <=? S k)%nat = false) as -> by (apply Nat.leb_gt; lia).
    done.
Qed.

(** *** Rendering a text without placeholders *)

Lemma substituteFragments_without_placeholder (engine : TemplateEngine)
    (s : string) (fragments : gmap string string) :
  ~ has_placeholder engine s ->
  substituteFragments engine s fragments = Returns s.
Proof.
  intros Hn.
  pose proof (scan_without_placeholder engine s 0 fragments ∅ false Hn) as [Hp _].
  assert (replaces_after 0 engine fragments s = false) as Hstop.
  { unfold replaces_after, pass. cbn [after_passes]. by rewrite Hp. }
  unfold substituteFragments.
  rewrite (fragments_loop_settles engine fragments s 0); [done| |done|unfold maxDepth; lia].
  intros j Hj. lia.
Qed.

(** C9.  A text that contains no placeholder token of the engine
    renders to itself, without error: with an empty variable map and
    an empty fragment map, and in fact with any options. *)
Theorem render_without_placeholder_is_identity (engine : TemplateEngine) (s : string) :
  ~ has_placeholder engine s ->
  render engine s
    {| variables := Some ∅; fragments := Some ∅;
       validate := None; allowUndefined := None |} = Returns s
  /\ forall options, render engine s options = Returns s.
Proof.
  intros Hn.
  assert (forall options, render engine s options = Returns s) as Hall; [|by split].
  intros options. unfold render.
  rewrite (substituteFragments_without_placeholder engine s _ Hn).
  cbn [mbind outcome_bind]. unfold substituteVariables.
  apply (scan_without_placeholder engine s 0 ∅ _ _ Hn).
Qed.

Lemma render_without_placeholder_is_identity_witness :
  render default_engine "You are a agent for Acme."
    {| variables := Some ∅; fragments := Some ∅;
       validate := None; allowUndefined := None |}
  = Returns "You are a agent for Acme.".
Proof.
  apply (render_without_placeholder_is_identity default_engine).
  intros H. apply (scan_finds_placeholder default_engine _ 0%nat) in H.
  vm_compute in H. discriminate H.
Defined.

(** *** Placeholders of the default syntax *)

Lemma placeholder_of_app (n post : string) :
  placeholder_of n +:+ post
  = String "{" (String "{" (n +:+ String "}" (String "}" post))).
Proof. unfold placeholder_of. by rewrite !app_assoc. Qed.

Lemma name_tails_head (n r : string) :
  all_name_chars n = true ->
  exists l, name_tails (n +:+ String "}" r) = (n, String "}" r) :: l.
Proof.
  induction n as [|c n IH]; simpl.
  - intros _. rewrite ?app_nil_l. simpl. eauto.
  - intros [Hc Hn]%andb_true_iff. rewrite ?app_cons. simpl. rewrite Hc.
    destruct (IH Hn) as (l & ->). simpl. eauto.
Qed.

Lemma match_placeholder (n post : string) :
  is_name n = true ->
  match_items default_items (placeholder_of n +:+ post) = Some ([n], post).
Proof.
  intros Hn. rewrite placeholder_of_app. cbn [default_items match_items].
  rewrite !Ascii.eqb_refl.
  destruct n as [|c n]; [done|]. simpl in Hn. apply andb_true_iff in Hn as [Hc Hn].
  rewrite ?app_cons. unfold name_splits. rewrite Hc.
  destruct (name_tails_head n (String "}" post) Hn) as (l & ->).
  cbn [map first_some fst snd match_items]. by rewrite !Ascii.eqb_refl.
Qed.

Lemma default_token (token : string) :
  matches_items default_items token ->
  exists m, is_name m = true /\ token = String "{" (String "{" (m +:+ "}}")).
Proof.
  intros H. unfold default_items in H.
  inversion H as [|? ? s1 H1|]; subst.
  inversion H1 as [|? ? s2 H2|]; subst.
  inversion H2 as [| |m ? s3 Hm H3]; subst.
  inversion H3 as [|? ? s4 H4|]; subst.
  inversion H4 as [|? ? s5 H5|]; subst.
  inversion H5; subst. eauto.
Qed.

(** A name followed by the closing braces cannot run into an opening
    brace pair. *)
Lemma name_before_braces (m x y z : string) :
  all_name_chars m = true ->
  x +:+ String "{" (String "{" y) = m +:+ String "}" (String "}" z) ->
  (String.length m + 2 <= String.length x)%nat.
Proof.
  revert x. induction m as [|e m IH]; intros x Hm Heq.
  - rewrite ?app_nil_l in Heq. destruct x as [|a x]; [done|].
    rewrite ?app_cons in Heq. injection Heq as -> Heq.
    destruct x as [|b x]; [done|]. simpl. lia.
  - simpl in Hm. apply andb_true_iff in Hm as [He Hm].
    rewrite ?app_cons in Heq. destruct x as [|a x].
    + rewrite ?app_nil_l in Heq. injection Heq as <- _. done.
    + rewrite ?app_cons in Heq. injection Heq as -> Heq.
      specialize (IH x Hm Heq). simpl. lia.
Qed.

(** A match that starts before a placeholder ends before it. *)
Lemma match_ends_before_placeholder (c : ascii) (pre n post rest : string)
    (captures : list string) :
  match_items default_items (String c (pre +:+ placeholder_of n +:+ post))
  = Some (captures, rest) ->
  (String.length (String c (pre +:+ placeholder_of n +:+ post)) - String.length rest
   <= S (String.length pre))%nat.
Proof.
  intros Hm. destruct (match_items_sound _ _ _ _ Hm) as (token & Hs & Htok).
  rewrite Hs, length_app_minus.
  destruct (default_token _ Htok) as (m & Hname & ->).
  rewrite placeholder_of_app in Hs. rewrite ?app_cons in Hs.
  injection Hs as -> Hs.
  destruct m as [|e m]; [done|]. simpl in Hname. apply andb_true_iff in Hname as [He Hm'].
  destruct pre as [|d pre].
  - rewrite ?app_nil_l in Hs. rewrite ?app_cons in Hs.
    injection Hs as <- _. vm_compute in He. discriminate He.
  - rewrite ?app_cons in Hs. injection Hs as -> Hs.
    rewrite ?app_assoc in Hs. rewrite ?app_cons in Hs.
    assert (all_name_chars (String e m) = true) as Hname.
    { simpl. rewrite Hm'. apply andb_true_iff. split; [|done].
      unfold Str.is_name_start in He. unfold Str.is_name_char, Str.is_word.
      apply orb_true_iff in He as [->| ->]; [done|]. by rewrite orb_true_r. }
    pose proof (name_before_braces (String e m) pre _ rest Hname Hs) as Hlen.
    cbn [String.length] in *. rewrite length_app. cbn [String.length]. lia.
Qed.

(** Scanning reaches a placeholder and matches exactly it. *)
Lemma scan_reaches_placeholder (pre n post : string) (offset skip : nat) :
  is_name n = true ->
  (skip <= String.length pre)%nat ->
  exists before after,
    scan default_items (pre +:+ placeholder_of n +:+ post) offset skip
    = before ++ Match (placeholder_of n) [n] (offset + String.length pre) :: after.
Proof.
  intros Hn. revert offset skip. induction pre as [|c pre IH]; intros offset skip Hskip.
  - simpl in Hskip. assert (skip = 0%nat) as -> by lia. rewrite ?app_nil_l.
    pose proof (match_placeholder n post Hn) as Hm.
    pose proof (length_app_minus (placeholder_of n) post) as Hlen.
    pose proof (take_app_length (placeholder_of n) post) as Htake.
    destruct (placeholder_of n +:+ post) as [|c s] eqn:Hs.
    { rewrite placeholder_of_app in Hs. done. }
    cbn [scan]. rewrite Hm, Hlen, Htake. rewrite Nat.add_0_r.
    exists []. eexists. reflexivity.
  - rewrite ?app_cons. destruct skip as [|k].
    + cbn [scan].
      destruct (match_items default_items _) as [[caps rest]|] eqn:Hm.
      * pose proof (match_ends_before_placeholder _ _ _ _ _ _ Hm) as Hend.
        destruct (_ - _)%nat as [|k] eqn:Hlen.
        -- destruct (IH (S offset) 0%nat ltac:(lia)) as (before & after & ->).
           eexists (_ :: _ :: before), after. cbn [String.length].
           rewrite Nat.add_succ_r. reflexivity.
        -- destruct (IH (S offset) k ltac:(lia)) as (before & after & ->).
           eexists (_ :: before), after. cbn [String.length].
           rewrite Nat.add_succ_r. reflexivity.
      * destruct (IH (S offset) 0%nat ltac:(lia)) as (before & after & ->).
        eexists (_ :: before), after. cbn [String.length].
        rewrite Nat.add_succ_r. reflexivity.
    + cbn [scan]. simpl in Hskip.
      destruct (IH (S offset) k ltac:(lia)) as (before & after & ->).
      exists before, after. cbn [String.length]. by rewrite Nat.add_succ_r.
Qed.

Lemma replace_fragments_app (fragments : gmap string string) (a b : list segment) :
  replace_fragments fragments (a ++ b)
  = (fst (replace_fragments fragments a) +:+ fst (replace_fragments fragments b),
     snd (replace_fragments fragments a) || snd (replace_fragments fragments b)).
Proof.
  induction a as [|[c|m caps off] a IH]; simpl.
  - by destruct (replace_fragments fragments b).
  - rewrite IH. simpl. by rewrite ?app_cons.
  - rewrite IH. simpl.
    destruct (negb (is_undefined (fragment_value fragments (callback_name caps off))));
      simpl; by rewrite ?app_assoc.
Qed.

(** A fragment of the map is what the map answers for its name. *)
Lemma fragment_value_own (fragments : gmap string string) (name text : string) :
  fragments !! name = Some text -> fragment_value fragments name = JString text.
Proof. intros H. unfold fragment_value. by rewrite H. Qed.

Lemma occurs_trans (a b c : string) : Str.occurs a b -> Str.occurs b c -> Str.occurs a c.
Proof.
  intros (p & q & ->) (p' & q' & ->). exists (p' +:+ p), (q +:+ q').
  by rewrite !app_assoc.
Qed.

Section Cycles.

Variable engine : TemplateEngine.
Variable fragments : gmap string string.
Hypothesis default_syntax : getSyntaxPattern engine = default_items.

(** A pass over a text that contains the placeholder of a fragment
    replaces it: the new text contains the text of the fragment. *)
Lemma pass_replaces_placeholder (n fragment text : string) :
  is_name n = true ->
  fragments !! n = Some fragment ->
  Str.occurs (placeholder_of n) text ->
  snd (pass engine fragments text) = true
  /\ Str.occurs fragment (fst (pass engine fragments text)).
Proof.
  intros Hn Hf (pre & post & ->). unfold pass. rewrite default_syntax.
  destruct (scan_reaches_placeholder pre n post 0 0 Hn ltac:(lia)) as (before & after & ->).
  rewrite replace_fragments_app. cbn [replace_fragments callback_name fst snd].
  rewrite (fragment_value_own _ _ _ Hf). cbn [is_undefined negb Js.toString fst snd].
  split; [apply orb_true_r|].
  eexists _, _. reflexivity.
Qed.

Variable a : string.
Hypothesis cycle : includes_itself fragments a.

(** The text contains the placeholder of a fragment from which the
    cycle is reached. *)
Let feeds (text : string) : Prop :=
  exists x, is_name x = true /\ tc (includes fragments) x a
            /\ Str.occurs (placeholder_of x) text.

Lemma cycle_is_name : is_name a = true.
Proof.
  unfold includes_itself in cycle.
  assert (forall x y, tc (includes fragments) x y -> is_name y = true) as H.
  { induction 1 as [x y [Hy _]|x y z _ _ IH]; done. }
  by apply (H a a).
Qed.

Lemma feeds_pass (text : string) :
  feeds text ->
  snd (pass engine fragments text) = true /\ feeds (fst (pass engine fragments text)).
Proof.
  intros (x & Hx & Hreach & Hocc).
  assert (exists y fragment, is_name y = true /\ tc (includes fragments) y a
            /\ fragments !! x = Some fragment
            /\ Str.occurs (placeholder_of y) fragment) as (y & fragment & Hy & Hya & Hf & Hin).
  { inversion Hreach as [? ? [Hname (t & Ht & Hocc')]|? y ? [Hname (t & Ht & Hocc')] Hrest]; subst.
    - exists a, t. split; [apply cycle_is_name|]. done.
    - exists y, t. done. }
  destruct (pass_replaces_placeholder x fragment text Hx Hf Hocc) as [Hmore Hout].
  split; [done|]. exists y. split; [done|]. split; [done|].
  by apply occurs_trans with fragment.
Qed.

Lemma feeds_always_replaces (text : string) (j : nat) :
  feeds text -> replaces_after j engine fragments text = true.
Proof.
  revert text. induction j as [|j IH]; intros text Hfeeds.
  - apply (feeds_pass text Hfeeds).
  - apply (IH (fst (pass engine fragments text))). by apply feeds_pass.
Qed.

(** A template that contains the placeholder of a fragment from
    which a self-including fragment is reached makes every pass
    replace a fragment. *)
Lemma cycle_always_replaces (template b : string) (j : nat) :
  is_name b = true ->
  rtc (includes fragments) b a ->
  Str.occurs (placeholder_of b) template ->
  replaces_after j engine fragments template = true.
Proof.
  intros Hb Hreach Hocc. apply feeds_always_replaces.
  exists b. split; [done|]. split; [|done].
  apply rtc_tc in Hreach as [->|Htc]; done.
Qed.

End Cycles.

(** *** The pass cap *)

Lemma replace_variables_not_depth_error (variables : gmap string jsvalue)
    (allowUndefined : bool) (segments : list segment) :
  replace_variables variables allowUndefined segments <> Throws depth_error.
Proof.
  assert (forall (c : outcome string) (f : string -> outcome string),
            c <> Throws depth_error -> (forall a, f a <> Throws depth_error) ->
            c ≫= f <> Throws depth_error) as Hbind.
  { intros [a|e|] f Hc Hf; simpl; [apply Hf|exact Hc|done]. }
  induction segments as [|[c|m caps off] segments IH]; simpl; [done| |].
  - apply Hbind; [exact IH|done].
  - apply Hbind.
    + destruct (is_undefined _); [destruct allowUndefined|]; done.
    + intros a. apply Hbind; [exact IH|done].
Qed.

(** The loop of [substituteFragments] makes at most 10 passes (the cap
    is the constant [maxDepth]).
    - If the first pass that replaces nothing is one of the first
      nine, the call returns the text reached, and [render] raises no
      depth error.
    - If each of the first ten passes replaces a fragment, the call
      raises the depth error, and the loop has then made exactly ten
      passes and is left with its condition false.
    - With the default syntax, a template that contains the
      placeholder of a fragment from which a fragment that includes
      itself, directly or through other fragments, is reached, raises
      the depth error after exactly ten passes. *)
Lemma substituteFragments_pass_cap
    (engine : TemplateEngine) (fragments : gmap string string) (template : string) :
  maxDepth = 10%nat
  /\ (forall k,
        (S k < maxDepth)%nat ->
        (forall j, (j < k)%nat -> replaces_after j engine fragments template = true) ->
        replaces_after k engine fragments template = false ->
        substituteFragments engine template fragments
        = Returns (after_passes k engine fragments template)
        /\ depth (fragments_loop engine template fragments) = S k
        /\ forall options,
             TemplateEngine.fragments options = Some fragments ->
             render engine template options <> Throws depth_error)
  /\ ((forall j, (j < maxDepth)%nat -> replaces_after j engine fragments template = true) ->
      substituteFragments engine template fragments = Throws depth_error
      /\ depth (fragments_loop engine template fragments) = maxDepth
      /\ loop_condition (fragments_loop engine template fragments) = false
      /\ forall options,
           TemplateEngine.fragments options = Some fragments ->
           render engine template options = Throws depth_error)
  /\ (forall a b,
        syntax engine = "{{variable}}" ->
        includes_itself fragments a ->
        is_name b = true ->
        rtc (includes fragments) b a ->
        Str.occurs (placeholder_of b) template ->
        substituteFragments engine template fragments = Throws depth_error
        /\ depth (fragments_loop engine template fragments) = maxDepth).
Proof.
  assert (forall options, TemplateEngine.fragments options = Some fragments ->
            render engine template options
            = substituteFragments engine template fragments
                ≫= (fun result => substituteVariables engine result
                                    (default ∅ (variables options))
                                    (default false (allowUndefined options)))) as Hrender.
  { intros options Hf. unfold render. by rewrite Hf. }
  assert ((forall j, (S j < maxDepth)%nat -> replaces_after j engine fragments template = true) ->
          substituteFragments engine template fragments = Throws depth_error
          /\ depth (fragments_loop engine template fragments) = maxDepth) as Hcap.
  { intros Hrep. split; [by apply substituteFragments_throws_iff|].
    by rewrite (fragments_loop_reaches_cap engine fragments template Hrep). }
  split; [done|]. split; [|split].
  - intros k Hk Hrep Hstop.
    pose proof (fragments_loop_settles engine fragments template k Hrep Hstop ltac:(lia)) as Hloop.
    assert (substituteFragments engine template fragments
            = Returns (after_passes k engine fragments template)) as Hret.
    { unfold substituteFragments. rewrite Hloop. cbn [depth result].
      assert ((maxDepth <=? S k)%nat = false) as -> by (apply Nat.leb_gt; lia). done. }
    split; [done|]. split; [by rewrite Hloop|].
    intros options Hf. rewrite (Hrender options Hf), Hret. simpl.
    apply replace_variables_not_depth_error.
  - intros Hrep.
    destruct Hcap as [Hthrow Hdepth]; [intros j Hj; apply Hrep; lia|].
    split; [done|]. split; [done|]. split; [apply fragments_loop_exits|].
    intros options Hf. by rewrite (Hrender options Hf), Hthrow.
  - intros a b Hsyntax Hcycle Hb Hreach Hocc. apply Hcap. intros j _.
    apply (cycle_always_replaces engine fragments) with (a := a) (b := b); try done.
    unfold getSyntaxPattern. by rewrite Hsyntax.
Qed.

Lemma two_cycle_includes_itself : includes_itself two_cycle "a".
Proof.
  apply tc_l with "b"; [|apply tc_once].
  - split; [done|]. exists "x{{b}}". split; [done|]. by exists "x", EmptyString.
  - split; [done|]. exists "{{a}}". split; [done|]. by exists EmptyString, EmptyString.
Qed.

Example substituteFragments_two_cycle :
  substituteFragments default_engine "Hello {{b}}!" two_cycle = Throws depth_error
  /\ depth (fragments_loop default_engine "Hello {{b}}!" two_cycle) = maxDepth.
Proof.
  apply (proj2 (proj2 (proj2
           (substituteFragments_pass_cap default_engine two_cycle "Hello {{b}}!")))
           "a" "b" eq_refl two_cycle_includes_itself eq_refl).
  - apply rtc_once. split; [done|]. exists "{{a}}". split; [done|].
    by exists EmptyString, EmptyString.
  - by exists "Hello ", "!".
Qed.


End TemplateEngineFacts.

(** ** More on the guardrails *)

Module GuardrailFacts.

Import Validators ValidationRunnable ValidatorsFacts ValidationRunnableFacts.

(** *** The pattern validator *)

(** [validateRegexMatch] never raises: a pattern that is not well
    formed gives a failing outcome, with or without [must_match].  For
    a well-formed pattern the outcome passes exactly when the response
    matches, and exactly when it does not match if [must_match] is
    [false]; a missing or empty pattern passes. *)
Theorem validateRegexMatch_never_raises (response : string) (validator : Validator) :
  (forall e, validateRegexMatch response validator <> Throws e)
  /\ (truthy_string (param pattern validator) = None ->
      exists o, validateRegexMatch response validator = Returns o /\ passed o = true)
  /\ (forall p e,
        truthy_string (param pattern validator) = Some p ->
        RegExp.test p EmptyString response = Throws e ->
        exists o, validateRegexMatch response validator = Returns o
                  /\ passed o = false
                  /\ message o = Some ("Invalid regex pattern: " +:+ p))
  /\ (forall p matches,
        truthy_string (param pattern validator) = Some p ->
        RegExp.test p EmptyString response = Returns matches ->
        exists o, validateRegexMatch response validator = Returns o
                  /\ passed o = match param must_match validator with
                                | Some false => negb matches
                                | _ => matches
                                end).
Proof.
  unfold validateRegexMatch. split; [|split; [|split]].
  - intros e. destruct (truthy_string (param pattern validator)) as [p|]; [|done].
    destruct (RegExp.test p EmptyString response) as [m|e'|]; [|done|done].
    destruct (param must_match validator) as [[|]|], m; done.
  - intros ->. by eexists.
  - intros p e -> ->. by eexists.
  - intros p m -> ->.
    destruct (param must_match validator) as [[|]|], m; by eexists.
Qed.

Lemma validateRegexMatch_never_raises_witness :
  exists o,
    validateRegexMatch "order 66"
      {| type := "regex_match"; enabled := true; fail_on_violation := None;
         params := Some {| words := None; max_characters := None; max_tokens := None;
                           min_characters := None; min_tokens := None;
                           pattern := Some "(\d"; must_match := Some false;
                           other := [] |} |} = Returns o
    /\ passed o = false
    /\ message o = Some "Invalid regex pattern: (\d".
Proof.
  refine (proj1 (proj2 (proj2 (validateRegexMatch_never_raises "order 66"
            {| type := "regex_match"; enabled := true; fail_on_violation := None;
               params := Some {| words := None; max_characters := None; max_tokens := None;
                                 min_characters := None; min_tokens := None;
                                 pattern := Some "(\d"; must_match := Some false;
                                 other := [] |} |})))
            "(\d" (RegExp.syntax_error "(\d" EmptyString "Unterminated group") eq_refl _).
  vm_compute. reflexivity.
Defined.

(** *** The length validators *)

Lemma ceil_div_monotone (a b : Z) : a <= b -> ceil_div a 4 <= ceil_div b 4.
Proof.
  intros Hab. unfold ceil_div.
  pose proof (Z.div_le_mono (- b) (- a) 4). lia.
Qed.

(** The length validators look at the length of the response only,
    and in one direction: a response that is not longer than one that
    passes [max_length] passes it too, and a response that is not
    shorter than one that passes [min_length] passes it too. *)
Theorem length_validators_are_monotone (validator : Validator) (shorter longer : string) :
  (String.length shorter <= String.length longer)%nat ->
  (passed (validateMaxLength longer validator) = true ->
   passed (validateMaxLength shorter validator) = true)
  /\ (passed (validateMinLength shorter validator) = true ->
      passed (validateMinLength longer validator) = true)
  /\ (String.length shorter = String.length longer ->
      validateMaxLength shorter validator = validateMaxLength longer validator
      /\ validateMinLength shorter validator = validateMinLength longer validator).
Proof.
  intros Hlen.
  assert (response_length shorter <= response_length longer) as Hchars.
  { unfold response_length. lia. }
  assert (estimatedTokens shorter <= estimatedTokens longer) as Htokens.
  { unfold estimatedTokens. apply ceil_div_monotone. lia. }
  split; [|split].
  - unfold validateMaxLength.
    destruct (param max_characters validator) as [maxChars|];
      destruct (param max_tokens validator) as [maxTokens|];
      repeat match goal with
             | |- context [(?a <? ?b)] => destruct (Z.ltb_spec a b)
             end; cbn [passed]; try done; lia.
  - unfold validateMinLength.
    destruct (param min_characters validator) as [minChars|];
      destruct (param min_tokens validator) as [minTokens|];
      repeat match goal with
             | |- context [(?a <? ?b)] => destruct (Z.ltb_spec a b)
             end; cbn [passed]; try done; lia.
  - intros Heq. unfold validateMaxLength, validateMinLength, estimatedTokens, response_length.
    by rewrite Heq.
Qed.

Lemma length_validators_are_monotone_witness :
  passed (validateMaxLength "abc" (length_validator "max_length" 8 false)) = true.
Proof.
  refine (proj1 (length_validators_are_monotone
                   (length_validator "max_length" 8 false) "abc" "abcdefgh" _) eq_refl).
  simpl. lia.
Defined.

(** *** Disabled validators *)

Lemma validateResponse_from_enabled (response : string) (validators : list Validator)
    (results : list ValidationResult) :
  validateResponse_from response (List.filter enabled validators) results
  = validateResponse_from response validators results.
Proof.
  revert results. induction validators as [|v vs IH]; intros results; [done|].
  simpl. destruct (enabled v) eqn:Hen; simpl; [|by apply IH].
  rewrite Hen. simpl.
  destruct (runValidator response v) as [o|e|]; simpl; try done.
  destruct (negb (passed o) && truthy_flag (fail_on_violation v)); [done|apply IH].
Qed.

Lemma runValidation_from_enabled (custom : gmap string CustomValidatorFn) (content : string)
    (validators : list Validator) (results : list ValidationResult) :
  runValidation_from custom content (List.filter enabled validators) results
  = runValidation_from custom content validators results.
Proof.
  revert results. induction validators as [|v vs IH]; intros results; [done|].
  simpl. destruct (enabled v) eqn:Hen; simpl; [|by apply IH].
  rewrite Hen. simpl.
  destruct (dispatch custom content v) as [o|e|]; simpl; done || apply IH.
Qed.

(** A disabled validator is never evaluated: [validateResponse] and
    [runValidation] give the same outcomes, or raise the same error,
    when the disabled descriptors are removed from the list. *)
Theorem disabled_validators_are_never_evaluated
    (response : string) (validators : list Validator)
    (custom : gmap string CustomValidatorFn) (throw : bool) (key : string) :
  validateResponse response (List.filter enabled validators)
  = validateResponse response validators
  /\ runValidation
       {| this_validators := List.filter enabled validators;
          this_customValidators := custom;
          this_throwOnFailure := throw; this_validationKey := key |} response
     = runValidation
         {| this_validators := validators; this_customValidators := custom;
            this_throwOnFailure := throw; this_validationKey := key |} response.
Proof.
  split.
  - apply validateResponse_from_enabled.
  - apply runValidation_from_enabled.
Qed.

(** *** Runnables that were constructed *)

(** A runnable that the constructor returned holds the descriptors and
    the implementations it was given, and every enabled descriptor of
    it is of one of three kinds: its type has an implementation in the
    map, or is the name of a member of [Object.prototype], or is one
    of the four built-in types.  So a descriptor that the built-in
    path evaluates (the map owns no implementation and inherits no
    member for its type) is of a built-in type, and the branch of
    [runValidator] for unknown types is not the one that answers. *)
Theorem constructed_runnable_evaluates_known_types_only
    (options : ValidationRunnableOptions) (this : ValidationRunnable) :
  new options = Returns this ->
  this_validators this = validators options
  /\ this_customValidators this = default ∅ (customValidators options)
  /\ (forall v,
        In v (this_validators this) -> enabled v = true ->
        (exists customValidator, this_customValidators this !! type v = Some customValidator)
        \/ In (type v) ObjectPrototype.names
        \/ In (type v) OOTB_VALIDATORS)
  /\ (forall v,
        In v (this_validators this) -> enabled v = true ->
        this_customValidators this !! type v = None ->
        ~ In (type v) ObjectPrototype.names ->
        In (type v) OOTB_VALIDATORS
        /\ forall content,
             dispatch (this_customValidators this) content v = builtin content v
             /\ runValidator content v
                = if String.eqb (type v) "banned_words" then validateBannedWords content v
                  else if String.eqb (type v) "max_length"
                  then Returns (validateMaxLength content v)
                  else if String.eqb (type v) "min_length"
                  then Returns (validateMinLength content v)
                  else validateRegexMatch content v).
Proof.
  intros Hnew. unfold new, validateValidatorImplementations in Hnew.
  cbn [this_customValidators this_validators] in Hnew.
  destruct (missingValidators (default ∅ (customValidators options)) (validators options))
    as [|t missing] eqn:Hmiss; [|done].
  simpl in Hnew. injection Hnew as <-. cbn [this_validators this_customValidators].
  assert (forall v,
            In v (validators options) -> enabled v = true ->
            default ∅ (customValidators options) !! type v = None ->
            ~ In (type v) ObjectPrototype.names ->
            isOOTBValidator (type v) = true) as Hootb.
  { intros v Hin Hen Hnone Hother.
    destruct (isOOTBValidator (type v)) eqn:Ho; [done|].
    assert (In (type v) (missingValidators (default ∅ (customValidators options))
                           (validators options))) as Hm.
    { apply missingValidators_In. by exists v. }
    by rewrite Hmiss in Hm. }
  split; [done|]. split; [done|]. split.
  - intros v Hin Hen.
    destruct (default ∅ (customValidators options) !! type v) as [f|] eqn:Hf; [left; eauto|].
    destruct (in_dec String.string_dec (type v) ObjectPrototype.names) as [|Hother];
      [by right; left|].
    right. right. apply isOOTBValidator_spec_in. by apply Hootb.
  - intros v Hin Hen Hnone Hother. specialize (Hootb v Hin Hen Hnone Hother).
    split; [by apply isOOTBValidator_spec_in|].
    intros content. split; [by apply dispatch_builtin|]. unfold runValidator.
    unfold isOOTBValidator, OOTB_VALIDATORS in Hootb. simpl in Hootb.
    destruct (String.eqb (type v) "banned_words"); [done|].
    destruct (String.eqb (type v) "max_length"); [done|].
    destruct (String.eqb (type v) "min_length"); [done|].
    destruct (String.eqb (type v) "regex_match"); [done|].
    done.
Qed.

Lemma constructed_runnable_evaluates_known_types_only_witness :
  In "max_length" OOTB_VALIDATORS
  /\ dispatch {["tone" := always_passes]} "hello world" (length_validator "max_length" 5 false)
     = builtin "hello world" (length_validator "max_length" 5 false)
  /\ runValidator "hello world" (length_validator "max_length" 5 false)
     = Returns (validateMaxLength "hello world" (length_validator "max_length" 5 false)).
Proof.
  pose proof (proj2 (proj2 (proj2
    (constructed_runnable_evaluates_known_types_only
       {| validators := [custom_validator "tone"; length_validator "max_length" 5 false];
          customValidators := Some {["tone" := always_passes]};
          throwOnFailure := Some false; validationKey := None |}
       (runnable_of [custom_validator "tone"; length_validator "max_length" 5 false]
          {["tone" := always_passes]} false)
       eq_refl)))
    (length_validator "max_length" 5 false)) as H.
  destruct H as [Hin Hrun].
  - right. by left.
  - reflexivity.
  - reflexivity.
  - intros Hn. vm_compute in Hn. repeat (destruct Hn as [Hn|Hn]; [discriminate|]). done.
  - split; [exact Hin|]. exact (Hrun "hello world").
Defined.

(** *** The report of [invoke] *)





End GuardrailFacts.

(** ** More on the template engine *)

Module RenderingFacts.

Import TemplateEngine StrFacts TemplateEngineFacts.

(** *** Defaults *)

Lemma get_insert (values : gmap string jsvalue) (key other : string) (v : jsvalue) :
  get (<[key := v]> values) other = if String.eqb key other then v else get values other.
Proof.
  unfold get. destruct (String.eqb_spec key other) as [->|Hne].
  - by rewrite lookup_insert_eq.
  - by rewrite lookup_insert_ne.
Qed.

Lemma applyDefaults_from_get (defs : list VariableDefinition)
    (values : gmap string jsvalue) (key : string) :
  get (applyDefaults_from defs values) key
  = if is_undefined (get values key)
    then default JUndefined (first_default defs key)
    else get values key.
Proof.
  revert values. induction defs as [|varDef defs IH]; intros values.
  - simpl. by destruct (get values key).
  - cbn [applyDefaults_from first_default]. rewrite IH.
    destruct (default_value varDef) as [d|]; [|done].
    destruct (String.eqb_spec (name varDef) key) as [Heq|Hne]; cbn [andb].
    + destruct (is_undefined d) eqn:Hd; cbn [negb].
      * by rewrite andb_false_r.
      * rewrite andb_true_r.
        destruct (is_undefined (get values (name varDef))) eqn:Hv.
        -- rewrite get_insert, Heq, String.eqb_refl, Hd.
           rewrite <- Heq, Hv. done.
        -- rewrite <- Heq, Hv. done.
    + destruct (is_undefined (get values (name varDef)) && negb (is_undefined d)); [|done].
      rewrite get_insert. apply String.eqb_neq in Hne. by rewrite Hne.
Qed.

Lemma first_default_defined (defs : list VariableDefinition) (varDef : VariableDefinition)
    (d : jsvalue) :
  In varDef defs -> default_value varDef = Some d -> is_undefined d = false ->
  exists d', first_default defs (name varDef) = Some d' /\ is_undefined d' = false.
Proof.
  induction defs as [|first defs IH]; [done|]. intros [->|Hin] Hd Hdef; simpl.
  - rewrite Hd, String.eqb_refl, Hdef. eauto.
  - destruct (default_value first) as [d0|]; [|by apply IH].
    destruct (String.eqb (name first) (name varDef) && negb (is_undefined d0)) eqn:Hc;
      [|by apply IH].
    apply andb_true_iff in Hc as [_ Hc]. apply negb_true_iff in Hc. eauto.
Qed.

Lemma applyDefaults_from_settled (defs : list VariableDefinition)
    (values : gmap string jsvalue) :
  (forall varDef d, In varDef defs -> default_value varDef = Some d ->
     is_undefined d = false -> is_undefined (get values (name varDef)) = false) ->
  applyDefaults_from defs values = values.
Proof.
  induction defs as [|varDef defs IH]; [done|]. intros Hall. simpl.
  destruct (default_value varDef) as [d|] eqn:Hd.
  - destruct (is_undefined d) eqn:Hdef.
    + rewrite andb_false_r. apply IH. intros v d' Hin. apply Hall. by right.
    + rewrite (Hall varDef d (or_introl eq_refl) Hd Hdef). cbn [andb].
      apply IH. intros v d' Hin. apply Hall. by right.
  - apply IH. intros v d' Hin. apply Hall. by right.
Qed.

Lemma applyDefaults_from_lookup (defs : list VariableDefinition)
    (values : gmap string jsvalue) (key : string) :
  is_undefined (get values key) = false ->
  applyDefaults_from defs values !! key = values !! key.
Proof.
  revert values. induction defs as [|varDef defs IH]; intros values Hkey; [done|].
  cbn [applyDefaults_from].
  destruct (default_value varDef) as [d|]; [|by apply IH].
  destruct (is_undefined (get values (name varDef)) && negb (is_undefined d)) eqn:Hc;
    [|by apply IH].
  apply andb_true_iff in Hc as [Hc _].
  assert (name varDef <> key) as Hne by (intros Heq; rewrite Heq in Hc; congruence).
  rewrite IH.
  - by rewrite lookup_insert_ne.
  - rewrite get_insert. apply String.eqb_neq in Hne. by rewrite Hne.
Qed.

(** [applyDefaults] changes no value that is defined, where the value
    of a key is what the object answers for it, [result[key]]: a
    property of its own or, without one, the member that every object
    inherits under that name.  A key whose value is [undefined] gets
    the default of the first definition of that name that has a
    defined one, and stays [undefined] when there is none.  Hence
    every variable that is declared with a default has a defined value
    afterwards, and applying the defaults a second time changes
    nothing.  The value need not be the default: a variable that is
    named as a member of [Object.prototype] and has no value of its
    own never gets its default, the object answers the member for it
    before and after.  So for a variable toString with the default x
    and no values the result is the empty object. *)
Theorem applyDefaults_fills_missing_values_only
    (defs : list VariableDefinition) (values : gmap string jsvalue) :
  let result := applyDefaults (Some defs) values in
  (forall key,
      get result key
      = if is_undefined (get values key)
        then default JUndefined (first_default defs key)
        else get values key)
  /\ (forall varDef d,
        In varDef defs -> default_value varDef = Some d -> is_undefined d = false ->
        is_undefined (get result (name varDef)) = false)
  /\ applyDefaults (Some defs) result = result
  /\ applyDefaults None values = values
  /\ (forall key, is_undefined (get values key) = false -> result !! key = values !! key)
  /\ (forall key member,
        values !! key = None -> ObjectPrototype.member key = Some member ->
        result !! key = None /\ get result key = member)
  /\ (forall key,
        values !! key = None -> ~ In key ObjectPrototype.names ->
        result !! key = first_default defs key)
  /\ applyDefaults
       (Some [{| name := "toString"; type := "string"; required := false;
                 default_value := Some (JString "x"); validation := None |}]) ∅
     = ∅.
Proof.
  intros result.
  assert (forall varDef d,
             In varDef defs -> default_value varDef = Some d -> is_undefined d = false ->
             is_undefined (get result (name varDef)) = false) as Hdefined.
  { intros varDef d Hin Hd Hdef. unfold result, applyDefaults.
    rewrite applyDefaults_from_get.
    destruct (is_undefined (get values (name varDef))) eqn:Hv; [|done].
    destruct (first_default_defined defs varDef d Hin Hd Hdef) as (d' & -> & Hd'). done. }
  assert (forall key member,
             values !! key = None -> ObjectPrototype.member key = Some member ->
             is_undefined (get values key) = false /\ get values key = member) as Hmember.
  { intros key member Hown Hm. unfold get. rewrite Hown. simpl. rewrite Hm. simpl.
    split; [|done].
    by destruct (ObjectPrototypeFacts.member_cases _ _ Hm) as [->|[f ->]]. }
  split; [|split; [|split; [|split; [|split; [|split; [|split]]]]]].
  - intros key. apply applyDefaults_from_get.
  - exact Hdefined.
  - unfold applyDefaults at 1. by apply applyDefaults_from_settled.
  - done.
  - intros key Hkey. by apply applyDefaults_from_lookup.
  - intros key member Hown Hm. destruct (Hmember key member Hown Hm) as [Hdef Hget].
    split.
    + unfold result, applyDefaults. by rewrite applyDefaults_from_lookup.
    + unfold result, applyDefaults. by rewrite applyDefaults_from_get, Hdef.
  - intros key Hown Hout. unfold result, applyDefaults.
    apply ObjectPrototypeFacts.member_None in Hout.
    clear result Hdefined Hmember. revert values Hown.
    induction defs as [|varDef defs IH]; intros values Hown; [done|].
    cbn [applyDefaults_from first_default].
    assert (get values key = JUndefined) as Hget
      by (unfold get; rewrite Hown; simpl; by rewrite Hout).
    destruct (default_value varDef) as [d|]; [|by apply IH].
    destruct (String.eqb_spec (name varDef) key) as [Heq|Hne]; cbn [andb].
    + rewrite Heq, Hget. cbn [is_undefined andb].
      destruct (is_undefined d) eqn:Hd; cbn [negb]; [by apply IH|].
      rewrite applyDefaults_from_lookup.
      * by rewrite lookup_insert_eq.
      * by rewrite get_insert, String.eqb_refl.
    + destruct (is_undefined (get values (name varDef)) && negb (is_undefined d));
        [|by apply IH].
      apply IH. by rewrite lookup_insert_ne.
  - vm_compute. reflexivity.
Qed.

(** *** The variables a rendering needs *)

Lemma occurs_cons (n s : string) (c : ascii) : Str.occurs n s -> Str.occurs n (String c s).
Proof. intros (pre & post & ->). by exists (String c pre), post. Qed.

Lemma match_items_captures (items : list pitem) (s rest : string) (captures : list string) :
  match_items items s = Some (captures, rest) ->
  Forall (fun n => is_name n = true /\ Str.occurs n s) captures
  /\ (has_name_group items = true -> captures <> []).
Proof.
  revert s rest captures. induction items as [|[a|] items IH]; intros s rest captures; simpl.
  - intros [= <- <-]. split; [constructor|done].
  - destruct s as [|c s]; [done|].
    destruct (Ascii.eqb a c); [|done].
    intros H. destruct (IH _ _ _ H) as [Hall Hne]. split; [|done].
    eapply Forall_impl; [exact Hall|]. intros n [Hn Hocc]. split; [done|by apply occurs_cons].
  - intros H. apply first_some_Some in H as ((n & r) & Hin & Hf). simpl in Hf.
    destruct (match_items items r) as [[caps rest']|] eqn:Hm; [|done].
    injection Hf as <- <-.
    destruct (name_splits_sound _ _ _ Hin) as [-> Hn].
    destruct (IH _ _ _ Hm) as [Hall _]. split; [|done].
    constructor.
    + split; [done|]. exists EmptyString, r. done.
    + eapply Forall_impl; [exact Hall|]. intros n' [Hn' Hocc]. split; [done|].
      by apply occurs_app_r.
Qed.

(** What the matches of a scan capture. *)
Lemma scan_captures (items : list pitem) (s : string) (offset skip : nat)
    (matched : string) (captures : list string) (at_ : nat) :
  In (Match matched captures at_) (scan items s offset skip) ->
  Forall (fun n => is_name n = true /\ Str.occurs n s) captures
  /\ (has_name_group items = true -> captures <> []).
Proof.
  revert offset skip. induction s as [|c s IH]; intros offset skip.
  - simpl. destruct skip; [|done].
    destruct (match_items items EmptyString) as [[caps rest]|] eqn:Hm; [|done].
    intros [[= _ <- _]|[]]. by apply (match_items_captures _ _ _ _ Hm).
  - assert (forall offset' skip',
               In (Match matched captures at_) (scan items s offset' skip') ->
               Forall (fun n => is_name n = true /\ Str.occurs n (String c s)) captures
               /\ (has_name_group items = true -> captures <> [])) as Htail.
    { intros offset' skip' Hin. destruct (IH _ _ Hin) as [Hall Hne]. split; [|done].
      eapply Forall_impl; [exact Hall|]. intros n [Hn Hocc]. split; [done|by apply occurs_cons]. }
    cbn [scan]. destruct skip as [|k]; [|by apply Htail].
    destruct (match_items items (String c s)) as [[caps rest]|] eqn:Hm.
    + intros [[= _ <- _]|Hin]; [by apply (match_items_captures _ _ _ _ Hm)|].
      destruct (String.length (String c s) - String.length rest)%nat.
      * destruct Hin as [[=]|Hin]. by apply (Htail _ _ Hin).
      * by apply (Htail _ _ Hin).
    + intros [[=]|Hin]. by apply (Htail _ _ Hin).
Qed.

Lemma set_add_In (n name : string) (variables : list string) :
  In n (set_add name variables) <-> In n variables \/ n = name.
Proof.
  unfold set_add. destruct (existsb (String.eqb name) variables) eqn:Hex.
  - split; [by left|]. intros [H| ->]; [done|].
    apply existsb_exists in Hex as (x & Hin & Hx). by apply String.eqb_eq in Hx as ->.
  - rewrite in_app_iff. simpl. intuition.
Qed.

Lemma set_add_NoDup (name : string) (variables : list string) :
  NoDup variables -> NoDup (set_add name variables).
Proof.
  intros Hnd. unfold set_add.
  destruct (existsb (String.eqb name) variables) eqn:Hex; [done|].
  apply NoDup_app. split; [done|]. split; [|apply NoDup_singleton].
  intros x Hx ->%list_elem_of_singleton.
  assert (existsb (String.eqb name) variables = true); [|congruence].
  apply existsb_exists. exists name. split; [by apply list_elem_of_In|apply String.eqb_refl].
Qed.

Lemma extract_names_In (segments : list segment) (variables : list string) (n : string) :
  In n (extract_names segments variables)
  <-> In n variables \/ exists seg, In seg segments /\ first_capture seg = Some n.
Proof.
  revert variables. induction segments as [|seg segments IH]; intros variables.
  - simpl. split; [by left|]. by intros [H|(seg & [] & _)].
  - assert (first_capture seg = None ->
            In n (extract_names segments variables)
            <-> In n variables \/ exists seg', In seg' (seg :: segments) /\ first_capture seg' = Some n)
      as Hskip.
    { intros Hnone. rewrite IH. split.
      - intros [H|(seg' & Hin & Hc)]; [by left|]. right. exists seg'. split; [by right|done].
      - intros [H|(seg' & [<-|Hin] & Hc)]; [by left|congruence|]. right. by exists seg'. }
    destruct seg as [c|m [|[|c name] caps] off]; cbn [extract_names]; try by apply Hskip.
    rewrite IH, set_add_In. split.
    + intros [[H| ->]|(seg' & Hin & Hc)].
      * by left.
      * right. eexists. split; [by left|done].
      * right. exists seg'. split; [by right|done].
    + intros [H|(seg' & [<-|Hin] & Hc)].
      * left. by left.
      * injection Hc as <-. left. by right.
      * right. by exists seg'.
Qed.

Lemma extract_names_NoDup (segments : list segment) (variables : list string) :
  NoDup variables -> NoDup (extract_names segments variables).
Proof.
  revert variables. induction segments as [|seg segments IH]; intros variables Hnd; [done|].
  destruct seg as [c|m [|[|c name] caps] off]; cbn [extract_names]; try by apply IH.
  by apply IH, set_add_NoDup.
Qed.

Lemma replace_variables_returns (variables : gmap string jsvalue) (segments : list segment) :
  (exists out, replace_variables variables false segments = Returns out)
  <-> forall matched captures at_,
        In (Match matched captures at_) segments ->
        is_undefined (get variables (callback_name captures at_)) = false.
Proof.
  induction segments as [|seg segments IH].
  - simpl. split; [done|]. intros _. by eexists.
  - destruct seg as [c|m caps off]; cbn [replace_variables].
    + split.
      * intros (out & Hout) matched captures at_ [[=]|Hin].
        destruct (replace_variables variables false segments) as [o| |] eqn:Hr; try done.
        exact (proj1 IH (ex_intro _ o eq_refl) matched captures at_ Hin).
      * intros Hall.
        destruct (proj2 IH) as (o & ->); [|by eexists].
        intros matched captures at_ Hin. apply (Hall matched captures at_). by right.
    + destruct (is_undefined (get variables (callback_name caps off))) eqn:Hu.
      * split; [by intros (out & Hout)|].
        intros Hall. rewrite (Hall m caps off) in Hu; [done|by left].
      * cbn [mbind outcome_bind]. split.
        -- intros (out & Hout) matched captures at_ [[= <- <- <-]|Hin]; [done|].
           destruct (replace_variables variables false segments) as [o| |] eqn:Hr; try done.
           exact (proj1 IH (ex_intro _ o eq_refl) matched captures at_ Hin).
        -- intros Hall.
           destruct (proj2 IH) as (o & ->); [|by eexists].
           intros matched captures at_ Hin. apply (Hall matched captures at_). by right.
Qed.

(** When the syntax holds the word variable, the names that
    [extractVariables] lists for a text are the variables its
    rendering needs: the text (the template after its fragments are
    substituted) renders without error exactly when each of them is
    defined.  The names are listed once each; each is a name and
    occurs in the text. *)
Theorem render_needs_the_extracted_variables
    (engine : TemplateEngine) (template text : string)
    (fragments : gmap string string) (variables : gmap string jsvalue) :
  has_name_group (getSyntaxPattern engine) = true ->
  substituteFragments engine template fragments = Returns text ->
  ((exists out, render engine template (render_with variables fragments false) = Returns out)
   <-> forall n, In n (extractVariables engine text) -> is_undefined (get variables n) = false)
  /\ NoDup (extractVariables engine text)
  /\ (forall n, In n (extractVariables engine text) -> is_name n = true /\ Str.occurs n text).
Proof.
  intros Hgroup Hfrag.
  assert (forall n, In n (extractVariables engine text) <->
            exists seg, In seg (scan (getSyntaxPattern engine) text 0 0)
                        /\ first_capture seg = Some n) as Hin.
  { intros n. unfold extractVariables. rewrite extract_names_In. split.
    - by intros [[]|H].
    - intros H. by right. }
  split; [|split].
  - assert (render engine template (render_with variables fragments false)
            = substituteVariables engine text variables false) as ->.
    { unfold render, render_with.
      change (default ∅ (TemplateEngine.fragments _)) with fragments.
      by rewrite Hfrag. }
    unfold substituteVariables.
    rewrite replace_variables_returns. split.
    + intros Hall n (seg & Hseg & Hcap)%Hin.
      destruct seg as [c|m [|[|c name] caps] off]; try done.
      injection Hcap as <-. apply (Hall m _ off Hseg).
    + intros Hall matched captures at_ Hseg.
      destruct (scan_captures _ _ _ _ _ _ _ Hseg) as [Hnames Hne].
      destruct captures as [|n caps]; [by destruct (Hne Hgroup)|].
      apply Forall_cons in Hnames as [[Hn _] _].
      destruct n as [|c n]; [done|].
      apply Hall, Hin. eexists. split; [exact Hseg|done].
  - apply extract_names_NoDup. constructor.
  - intros n (seg & Hseg & Hcap)%Hin.
    destruct seg as [c|m [|[|c name] caps] off]; try done.
    injection Hcap as <-.
    destruct (scan_captures _ _ _ _ _ _ _ Hseg) as [Hnames _].
    by apply Forall_cons in Hnames as [Hn _].
Qed.

Lemma render_needs_the_extracted_variables_witness :
  extractVariables default_engine "Hello {{name}}, {{name}} of {{city}}" = ["name"; "city"]
  /\ NoDup (extractVariables default_engine "Hello {{name}}, {{name}} of {{city}}").
Proof.
  split; [reflexivity|].
  exact (proj1 (proj2 (render_needs_the_extracted_variables
                         default_engine "Hello {{name}}, {{name}} of {{city}}"
                         "Hello {{name}}, {{name}} of {{city}}" ∅ ∅ eq_refl eq_refl))).
Defined.
(** *** Rendering with undefined variables allowed *)

(** A pass replaces nothing when the map answers [undefined] for the
    name of every match. *)
Lemma replace_fragments_untouched (fragments : gmap string string) (segments : list segment) :
  (forall matched captures at_,
      In (Match matched captures at_) segments ->
      fragment_value fragments (callback_name captures at_) = JUndefined) ->
  replace_fragments fragments segments = (segments_text segments, false).
Proof.
  induction segments as [|[c|m caps off] segments IH]; intros Hall;
    cbn [replace_fragments segments_text]; [done| |].
  - rewrite IH; [done|]. intros matched captures at_ Hin. apply (Hall matched captures at_).
    by right.
  - rewrite (Hall m caps off) by (by left). cbn [is_undefined negb].
    rewrite IH; [done|]. intros matched captures at_ Hin. apply (Hall matched captures at_).
    by right.
Qed.

Lemma replace_variables_allowing (variables : gmap string jsvalue) (segments : list segment) :
  exists out, replace_variables variables true segments = Returns out.
Proof.
  induction segments as [|[c|m caps off] segments (out & IH)]; cbn [replace_variables].
  - by eexists.
  - rewrite IH. by eexists.
  - rewrite IH. destruct (is_undefined (get variables (callback_name caps off))); by eexists.
Qed.

Lemma replace_variables_untouched (variables : gmap string jsvalue) (segments : list segment) :
  (forall matched captures at_,
      In (Match matched captures at_) segments ->
      get variables (callback_name captures at_) = JUndefined) ->
  replace_variables variables true segments = Returns (segments_text segments).
Proof.
  induction segments as [|[c|m caps off] segments IH]; intros Hall;
    cbn [replace_variables segments_text]; [done| |].
  - rewrite IH; [done|]. intros matched captures at_ Hin. apply (Hall matched captures at_).
    by right.
  - rewrite (Hall m caps off) by (by left). cbn [is_undefined mbind outcome_bind].
    rewrite IH; [done|]. intros matched captures at_ Hin. apply (Hall matched captures at_).
    by right.
Qed.

(** When the syntax holds the word variable, the name that the
    callback of a replacement receives is among the names that
    [extractVariables] lists. *)
Lemma callback_name_extracted (engine : TemplateEngine) (text matched : string)
    (captures : list string) (at_ : nat) :
  has_name_group (getSyntaxPattern engine) = true ->
  In (Match matched captures at_) (scan (getSyntaxPattern engine) text 0 0) ->
  In (callback_name captures at_) (extractVariables engine text).
Proof.
  intros Hgroup Hseg.
  destruct (scan_captures _ _ _ _ _ _ _ Hseg) as [Hnames Hne].
  destruct captures as [|n caps]; [by destruct (Hne Hgroup)|].
  apply Forall_cons in Hnames as [[Hn _] _].
  destruct n as [|c n]; [done|].
  unfold extractVariables. apply extract_names_In. right.
  eexists. split; [exact Hseg|done].
Qed.

Lemma fragment_value_empty (name : string) :
  ~ In name ObjectPrototype.names -> fragment_value ∅ name = JUndefined.
Proof.
  intros Hother. unfold fragment_value. rewrite lookup_empty.
  by apply ObjectPrototypeFacts.read_other.
Qed.

Lemma get_empty (name : string) :
  ~ In name ObjectPrototype.names -> get ∅ name = JUndefined.
Proof.
  intros Hother. unfold get. rewrite lookup_empty.
  by apply ObjectPrototypeFacts.read_other.
Qed.

(** Without fragments, a template whose variables are named like no
    member of [Object.prototype] goes through the substitution of the
    fragments as it is. *)
Lemma substituteFragments_no_fragments (engine : TemplateEngine) (template : string) :
  has_name_group (getSyntaxPattern engine) = true ->
  (forall n, In n (extractVariables engine template) -> ~ In n ObjectPrototype.names) ->
  substituteFragments engine template ∅ = Returns template.
Proof.
  intros Hgroup Hnames.
  assert (replaces_after 0 engine ∅ template = false) as Hstop.
  { unfold replaces_after, pass. cbn [after_passes].
    rewrite replace_fragments_untouched; [done|].
    intros matched captures at_ Hin. apply fragment_value_empty, Hnames.
    by apply (callback_name_extracted engine template matched). }
  unfold substituteFragments.
  rewrite (fragments_loop_settles engine ∅ template 0); [done| |done|unfold maxDepth; lia].
  intros j Hj. lia.
Qed.

(** With [allowUndefined] set, a rendering raises only when the
    substitution of the fragments does: the variables never make it
    fail.  When the syntax holds the word variable and no variable of
    the template is named like a member of [Object.prototype], the
    rendering without fragments always returns, and with no variable
    at all it returns the template as it is, placeholders included.
    A placeholder that is named like such a member is replaced even
    then: by the text of the function that every object inherits
    under that name. *)
Theorem render_allowing_undefined_never_fails_on_variables
    (engine : TemplateEngine) (template : string) (variables : gmap string jsvalue) :
  (forall fragments,
      (exists out, render engine template (render_with variables fragments true) = Returns out)
      <-> exists text, substituteFragments engine template fragments = Returns text)
  /\ (has_name_group (getSyntaxPattern engine) = true ->
      (forall n, In n (extractVariables engine template) -> ~ In n ObjectPrototype.names) ->
      (exists out, render engine template (render_with variables ∅ true) = Returns out)
      /\ render engine template (render_with ∅ ∅ true) = Returns template
      /\ render engine template
           {| TemplateEngine.variables := None; TemplateEngine.fragments := None;
              validate := None; allowUndefined := Some true |} = Returns template)
  /\ render default_engine "Call {{toString}}" (render_with ∅ ∅ true)
     = Returns "Call function toString() { [native code] }".
Proof.
  assert (forall fragments text,
             substituteFragments engine template fragments = Returns text ->
             render engine template (render_with variables fragments true)
             = replace_variables variables true (scan (getSyntaxPattern engine) text 0 0))
    as Hrender.
  { intros fragments text Hfrag. unfold render, render_with.
    change (default ∅ (TemplateEngine.fragments _)) with fragments.
    by rewrite Hfrag. }
  split; [|split].
  - intros fragments. split.
    + intros (out & Hout). unfold render, render_with in Hout.
      change (default ∅ (TemplateEngine.fragments _)) with fragments in Hout.
      destruct (substituteFragments engine template fragments) as [text| |]; try done.
      by eexists.
    + intros (text & Hfrag). rewrite (Hrender _ _ Hfrag).
      apply replace_variables_allowing.
  - intros Hgroup Hnames.
    pose proof (substituteFragments_no_fragments engine template Hgroup Hnames) as Hfrag.
    assert (render engine template (render_with ∅ ∅ true) = Returns template) as Hid.
    { unfold render, render_with.
      change (default ∅ (TemplateEngine.fragments _)) with (∅ : gmap string string).
      rewrite Hfrag. cbn [mbind outcome_bind].
      unfold substituteVariables.
      change (default ∅ (TemplateEngine.variables _)) with (∅ : gmap string jsvalue).
      change (default false (allowUndefined _)) with true.
      rewrite replace_variables_untouched.
      - rewrite scan_text by lia. by rewrite drop_0.
      - intros matched captures at_ Hin. apply get_empty, Hnames.
        by apply (callback_name_extracted engine template matched). }
    split; [|split].
    + rewrite (Hrender ∅ template Hfrag). apply replace_variables_allowing.
    + exact Hid.
    + exact Hid.
  - vm_compute. reflexivity.
Qed.

Lemma render_allowing_undefined_never_fails_on_variables_witness :
  render default_engine "Hello {{name}}, {{toStringify}}" (render_with ∅ ∅ true)
  = Returns "Hello {{name}}, {{toStringify}}".
Proof.
  refine (proj1 (proj2 (proj1 (proj2
            (render_allowing_undefined_never_fails_on_variables
               default_engine "Hello {{name}}, {{toStringify}}" ∅)) eq_refl _))).
  intros n Hn Hmember. vm_compute in Hn.
  destruct Hn as [<-|[<-|[]]]; vm_compute in Hmember;
    repeat (destruct Hmember as [Hmember|Hmember]; [discriminate|]); done.
Defined.

End RenderingFacts.

(** ** Objects of the platform *)

Module JsObjectFacts.

Import JsObject.

Section Properties.

Context {A : Type}.

Implicit Types (o : list (string * A)) (key : string) (v : A).

Lemma get_set o key v other :
  get (set o key v) other = if String.eqb key other then Some v else get o other.
Proof.
  induction o as [|[k x] o IH]; simpl.
  - done.
  - destruct (String.eqb_spec k key) as [->|Hne]; simpl.
    + by destruct (String.eqb key other).
    + rewrite IH. destruct (String.eqb_spec k other) as [->|Hne']; [|done].
      apply String.eqb_neq in Hne. rewrite String.eqb_sym in Hne. by rewrite Hne.
Qed.

Lemma get_Some_In o key v : get o key = Some v -> In (key, v) o.
Proof.
  induction o as [|[k x] o IH]; simpl; [done|].
  destruct (String.eqb_spec k key) as [->|Hne].
  - intros [= ->]. by left.
  - intros H. right. by apply IH.
Qed.

Lemma get_None_not_In o key : get o key = None <-> ~ In key (map fst o).
Proof.
  induction o as [|[k x] o IH]; simpl; [by split; [intros _ []|]|].
  destruct (String.eqb_spec k key) as [->|Hne].
  - split; [done|]. intros H. destruct H. by left.
  - rewrite IH. split.
    + intros H [Heq|Hin]; done.
    + intros H Hin. apply H. by right.
Qed.

Lemma In_get o key v : NoDup (map fst o) -> In (key, v) o -> get o key = Some v.
Proof.
  induction o as [|[k x] o IH]; simpl; [done|].
  intros [Hfresh Hnd]%NoDup_cons [[= -> ->]|Hin].
  - by rewrite String.eqb_refl.
  - destruct (String.eqb_spec k key) as [->|Hne]; [|by apply IH].
    destruct Hfresh. apply list_elem_of_In, in_map_iff. by exists (key, v).
Qed.

Lemma set_keys o key v :
  map fst (set o key v)
  = if existsb (String.eqb key) (map fst o) then map fst o else map fst o ++ [key].
Proof.
  induction o as [|[k x] o IH]; simpl; [done|].
  rewrite (String.eqb_sym key k).
  destruct (String.eqb k key); simpl; [done|].
  rewrite IH. by destruct (existsb (String.eqb key) (map fst o)).
Qed.

Lemma set_NoDup o key v : NoDup (map fst o) -> NoDup (map fst (set o key v)).
Proof.
  intros Hnd. rewrite set_keys.
  destruct (existsb (String.eqb key) (map fst o)) eqn:Hex; [done|].
  apply NoDup_app. split; [done|]. split; [|apply NoDup_singleton].
  intros x Hx ->%list_elem_of_singleton.
  assert (existsb (String.eqb key) (map fst o) = true); [|congruence].
  apply existsb_exists. exists key. split; [by apply list_elem_of_In|apply String.eqb_refl].
Qed.

Lemma set_In o key v p : In p (set o key v) -> p = (key, v) \/ In p o.
Proof.
  induction o as [|[k x] o IH]; simpl.
  - intros [<-|[]]. by left.
  - destruct (String.eqb_spec k key) as [->|Hne]; simpl.
    + intros [<-|Hin]; [by left|]. right. by right.
    + intros [<-|Hin]; [right; by left|].
      destruct (IH Hin) as [->|Hin']; [by left|]. right. by right.
Qed.

Lemma fold_set_NoDup (entries : list (string * A)) o :
  NoDup (map fst o) ->
  NoDup (map fst (fold_left (fun o entry => set o entry.1 entry.2) entries o)).
Proof.
  revert o. induction entries as [|[k v] entries IH]; intros o Hnd; [done|].
  simpl. by apply IH, set_NoDup.
Qed.

Lemma fold_set_In (entries : list (string * A)) o p :
  In p (fold_left (fun o entry => set o entry.1 entry.2) entries o) ->
  In p entries \/ In p o.
Proof.
  revert o. induction entries as [|[k v] entries IH]; intros o; simpl; [by right|].
  intros Hin. destruct (IH _ Hin) as [H|H]; [left; by right|].
  destruct (set_In _ _ _ _ H) as [->|H']; [left; by left|by right].
Qed.

Lemma fold_set_keys (entries : list (string * A)) o key :
  In key (map fst entries) \/ In key (map fst o) ->
  In key (map fst (fold_left (fun o entry => set o entry.1 entry.2) entries o)).
Proof.
  revert o. induction entries as [|[k v] entries IH]; intros o; simpl.
  - by intros [[]|H].
  - intros H. apply IH. rewrite set_keys.
    destruct (existsb (String.eqb k) (map fst o)) eqn:Hex.
    + destruct H as [[<-|H]|H]; [|by left|by right].
      right. apply existsb_exists in Hex as (x & Hin & Hx).
      by apply String.eqb_eq in Hx as ->.
    + rewrite in_app_iff. simpl. destruct H as [[<-|H]|H]; [|by left|]; right; auto.
Qed.

Lemma fromEntries_NoDup (entries : list (string * A)) :
  NoDup (map fst (fromEntries entries)).
Proof. apply fold_set_NoDup. constructor. Qed.

Lemma fromEntries_In (entries : list (string * A)) p :
  In p (fromEntries entries) -> In p entries.
Proof. intros H. by destruct (fold_set_In _ _ _ H) as [H'|[]]. Qed.

Lemma fromEntries_keys (entries : list (string * A)) key :
  In key (map fst entries) -> In key (map fst (fromEntries entries)).
Proof. intros H. apply fold_set_keys. by left. Qed.

Lemma insert_indexed_perm (n : N) (p : string * A) (sorted : list (N * (string * A))) :
  map snd (insert_indexed n p sorted) ≡ₚ p :: map snd sorted.
Proof.
  induction sorted as [|[m q] sorted IH]; simpl; [done|].
  destruct (n <? m)%N; simpl; [done|].
  rewrite IH. apply Permutation_swap.
Qed.

(** Enumeration reorders the properties and does nothing else. *)
Lemma ownProperties_perm o : ownProperties o ≡ₚ o.
Proof.
  unfold ownProperties. induction o as [|[k v] o IH]; simpl; [done|].
  destruct (array_index k) as [n|]; simpl.
  - rewrite insert_indexed_perm. simpl. by rewrite IH.
  - rewrite <- Permutation_middle. by rewrite IH.
Qed.

End Properties.

End JsObjectFacts.

(** ** Tools *)

Module ToolsFacts.

Import Tools JsObjectFacts.

Lemma named_entries_In (tools : list found_tool) (key : string) (tool : found_tool) :
  In (key, tool) (JsObject.fromEntries (map (fun tool => (entry_key tool, tool)) tools)) ->
  key = entry_key tool /\ In tool tools.
Proof.
  intros H%fromEntries_In. apply in_map_iff in H as (t & [= <- <-] & Hin). done.
Qed.

(** The key of an entry is made of the name that is copied. *)
Lemma entry_key_lc_name (tool : found_tool) :
  entry_key tool = default "undefined" (lc_name (convertTool tool)).
Proof. done. Qed.

(** What [filterToolsForPrompt] looks up and keeps. *)
Lemma allowed_In (allTools : list (string * Tool)) (names blocked : list string)
    (tool : found_tool) :
  In tool
    (match blocked with
     | [] =>
         List.filter (fun tool => negb (ObjectPrototype.is_undefined tool))
           (map (fun name => ObjectPrototype.lookup (JsObject.get allTools name) name) names)
     | _ :: _ =>
         List.filter (fun tool => negb (blocked_by blocked tool))
           (List.filter (fun tool => negb (ObjectPrototype.is_undefined tool))
              (map (fun name => ObjectPrototype.lookup (JsObject.get allTools name) name)
                 names))
     end)
  <-> (exists key, In key names
                   /\ tool = ObjectPrototype.lookup (JsObject.get allTools key) key)
      /\ ObjectPrototype.is_undefined tool = false
      /\ blocked_by blocked tool = false.
Proof.
  assert (In tool
            (List.filter (fun tool => negb (ObjectPrototype.is_undefined tool))
               (map (fun name => ObjectPrototype.lookup (JsObject.get allTools name) name)
                  names))
          <-> (exists key, In key names
                           /\ tool = ObjectPrototype.lookup (JsObject.get allTools key) key)
              /\ ObjectPrototype.is_undefined tool = false) as Hfound.
  { rewrite filter_In, in_map_iff, negb_true_iff. split.
    - intros [(key & <- & Hin) Hdef]. split; [by exists key|done].
    - intros [(key & Hin & ->) Hdef]. split; [by exists key|done]. }
  destruct blocked as [|b blocked].
  - rewrite Hfound. unfold blocked_by. split; [|by intros (H1 & H2 & _)].
    intros [H1 H2]. split; [done|]. split; [done|]. by destruct (tool_name tool).
  - rewrite filter_In, Hfound, negb_true_iff. tauto.
Qed.

(** [filterToolsForPrompt] returns nothing when the prompt lists no
    tool.  Otherwise it converts what the object of all tools answers
    for the listed names: every tool of the result is the conversion
    of the answer for a listed name, an answer that is not [undefined]
    and whose name is not on the blocklist; and no two tools of the
    result have the same name.  When no listed name is the name of a
    member of [Object.prototype], the tools of the result are
    conversions of tools that the object holds under a listed name and
    whose name is not on the blocklist, and every such tool has its
    name in the result.  A listed name of such a member yields a tool
    that the object does not hold: for the name constructor, a tool
    named Object without description. *)
Theorem filterToolsForPrompt_keeps_listed_unblocked_tools
    (allTools : list (string * Tool)) (promptTools : option (list string))
    (policy : option ToolPolicy) :
  let result := filterToolsForPrompt allTools promptTools policy in
  let answer key := ObjectPrototype.lookup (JsObject.get allTools key) key in
  (promptTools = None \/ promptTools = Some [] -> result = [])
  /\ (forall t, In t result ->
        exists names key,
          promptTools = Some names /\ In key names
          /\ ObjectPrototype.is_undefined (answer key) = false
          /\ blocked_by (active_blocklist policy) (answer key) = false
          /\ t = convertTool (answer key))
  /\ NoDup (map lc_name result)
  /\ ((forall names key, promptTools = Some names -> In key names ->
                         ~ In key ObjectPrototype.names) ->
      (forall t, In t result ->
         exists names key tool,
           promptTools = Some names /\ In key names
           /\ JsObject.get allTools key = Some tool
           /\ ~ In (name tool) (active_blocklist policy)
           /\ t = {| lc_name := Some (name tool); lc_description := Some (description tool);
                     lc_parameters := parameters tool |})
      /\ (forall names key tool,
            promptTools = Some names -> In key names ->
            JsObject.get allTools key = Some tool ->
            ~ In (name tool) (active_blocklist policy) ->
            In (Some (name tool)) (map lc_name result)))
  /\ filterToolsForPrompt [] (Some ["constructor"]) None
     = [{| lc_name := Some "Object"; lc_description := None; lc_parameters := None |}].
Proof.
  intros result answer. subst result.
  destruct promptTools as [[|first names]|].
  1, 3: split; [done|]; split; [by intros t []|]; split; [constructor|];
    split; [|done]; intros _; split; [by intros t []|];
    by intros names' key tool [= <-] [].
  pose (listed := first :: names).
  pose (allowed :=
         match active_blocklist policy with
         | [] =>
             List.filter (fun tool => negb (ObjectPrototype.is_undefined tool))
               (map answer listed)
         | b :: bs =>
             List.filter (fun tool => negb (blocked_by (b :: bs) tool))
               (List.filter (fun tool => negb (ObjectPrototype.is_undefined tool))
                  (map answer listed))
         end).
  assert (forall tool, In tool allowed <->
            (exists key, In key listed /\ tool = answer key)
            /\ ObjectPrototype.is_undefined tool = false
            /\ blocked_by (active_blocklist policy) tool = false) as Hallowed.
  { intros tool. unfold allowed, answer. rewrite <- allowed_In.
    by destruct (active_blocklist policy). }
  pose (object := JsObject.fromEntries (map (fun tool => (entry_key tool, tool)) allowed)).
  change (filterToolsForPrompt allTools (Some (first :: names)) policy)
    with (map convertTool (map snd (JsObject.ownProperties object))).
  change (first :: names) with listed.
  assert (forall p, In p (JsObject.ownProperties object) <-> In p object) as Hown.
  { intros p. rewrite <- !list_elem_of_In. by rewrite ownProperties_perm. }
  assert (forall t, In t (map convertTool (map snd (JsObject.ownProperties object))) ->
            exists key, In key listed
                        /\ ObjectPrototype.is_undefined (answer key) = false
                        /\ blocked_by (active_blocklist policy) (answer key) = false
                        /\ t = convertTool (answer key)) as Hresult.
  { intros t (tool & <- & (p & <- & Hp)%in_map_iff)%in_map_iff.
    destruct p as [key tool]. apply Hown, named_entries_In in Hp as [-> Hin].
    apply Hallowed in Hin as ((key & Hkey & ->) & Hdef & Hblock).
    by exists key. }
  split; [by intros [|[=]]|]. split; [|split; [|split]].
  - intros t (key & Hkey & Hdef & Hblock & ->)%Hresult. by exists listed, key.
  - assert (map (default "undefined") (map lc_name
              (map convertTool (map snd (JsObject.ownProperties object))))
            = map fst (JsObject.ownProperties object)) as Hkeys.
    { rewrite !map_map. apply map_ext_in. intros [key tool] Hp. simpl.
      apply Hown, named_entries_In in Hp as [-> _]. done. }
    apply (NoDup_fmap_1 (default "undefined")).
    change (NoDup (map (default "undefined") (map lc_name
              (map convertTool (map snd (JsObject.ownProperties object)))))).
    rewrite Hkeys, ownProperties_perm. apply fromEntries_NoDup.
  - intros Hother.
    assert (forall key, In key listed ->
              ObjectPrototype.is_undefined (answer key) = false ->
              exists tool, JsObject.get allTools key = Some tool
                           /\ answer key = ObjectPrototype.Own tool) as Hdeclared.
    { intros key Hkey Hdef. unfold answer in *.
      destruct (JsObject.get allTools key) as [tool|] eqn:Hget; [by exists tool|].
      apply not_true_iff_false in Hdef. destruct Hdef.
      apply ObjectPrototypeFacts.lookup_is_undefined. split; [done|].
      by apply (Hother listed). }
    split.
    + intros t (key & Hkey & Hdef & Hblock & ->)%Hresult.
      destruct (Hdeclared key Hkey Hdef) as (tool & Hget & Hanswer).
      rewrite Hanswer in Hblock |- *.
      exists listed, key, tool. split; [done|]. split; [done|]. split; [done|].
      split; [|done]. unfold blocked_by in Hblock. cbn [tool_name] in Hblock.
      by apply ObjectPrototypeFacts.existsb_eqb_not_In.
    + intros names' key tool [= <-] Hkey Hget Hblock.
      assert (answer key = ObjectPrototype.Own tool) as Hanswer.
      { unfold answer. by rewrite Hget. }
      assert (In (ObjectPrototype.Own tool) allowed) as Hin.
      { apply Hallowed. split; [by exists key|]. split; [done|].
        unfold blocked_by. cbn [tool_name].
        by apply ObjectPrototypeFacts.existsb_eqb_not_In. }
      assert (In (name tool) (map fst object)) as Hname.
      { apply fromEntries_keys, in_map_iff. exists (name tool, ObjectPrototype.Own tool).
        split; [done|]. apply in_map_iff. by exists (ObjectPrototype.Own tool). }
      apply in_map_iff in Hname as ([k tool'] & Hk & Hp). simpl in Hk. subst k.
      destruct (named_entries_In _ _ _ Hp) as [Heq Hin'].
      apply Hallowed in Hin' as ((key' & Hkey' & ->) & Hdef & _).
      destruct (Hdeclared key' Hkey' Hdef) as (tool' & _ & Hanswer').
      rewrite Hanswer' in Hp, Heq.
      rewrite !map_map. apply in_map_iff. exists (name tool, ObjectPrototype.Own tool').
      split; [|by apply Hown].
      cbn [snd convertTool lc_name tool_name]. unfold entry_key in Heq.
      cbn [tool_name default] in Heq. by rewrite Heq.
  - vm_compute. reflexivity.
Qed.

Lemma filterToolsForPrompt_keeps_listed_unblocked_tools_witness :
  In (Some "search")
     (map lc_name
        (filterToolsForPrompt
           [("search", {| name := "search"; description := "Search the web";
                          parameters := None |});
            ("email", {| name := "email"; description := "Send an email";
                         parameters := None |})]
           (Some ["search"; "missing"; "email"])
           (Some {| tool_choice := None; max_rounds := None;
                    max_tool_calls_per_turn := None; blocklist := Some ["email"] |}))).
Proof.
  refine (proj2 (proj1 (proj2 (proj2 (proj2
            (filterToolsForPrompt_keeps_listed_unblocked_tools
               [("search", {| name := "search"; description := "Search the web";
                              parameters := None |});
                ("email", {| name := "email"; description := "Send an email";
                             parameters := None |})]
               (Some ["search"; "missing"; "email"])
               (Some {| tool_choice := None; max_rounds := None;
                        max_tool_calls_per_turn := None; blocklist := Some ["email"] |})))))
            _)
            ["search"; "missing"; "email"] "search"
            {| name := "search"; description := "Search the web"; parameters := None |}
            eq_refl _ eq_refl _).
  - intros names key [= <-] Hkey Hmember.
    destruct Hkey as [<-|[<-|[<-|[]]]]; vm_compute in Hmember;
      repeat (destruct Hmember as [Hmember|Hmember]; [discriminate|]); done.
  - by left.
  - cbn. intros [H|[]]. discriminate.
Defined.

(** *** The execution manager *)

Lemma run_app (calls more : list call) (this : ToolExecutionManager) :
  run (calls ++ more) this = run more (run calls this).
Proof. apply fold_left_app. Qed.

Lemma manager_eq (a b : ToolExecutionManager) :
  policy a = policy b -> roundCount a = roundCount b -> callCount a = callCount b -> a = b.
Proof. destruct a, b. simpl. by intros -> -> ->. Qed.

Lemma run_cons (c : call) (calls : list call) (this : ToolExecutionManager) :
  run (c :: calls) this = run calls (perform this c).
Proof. reflexivity. Qed.

Lemma run_policy (calls : list call) (this : ToolExecutionManager) :
  policy (run calls this) = policy this.
Proof.
  revert this. induction calls as [|c calls IH]; intros this; [done|].
  rewrite run_cons, IH. by destruct c.
Qed.

Lemma run_counts (calls : list call) (this : ToolExecutionManager) :
  existsb is_reset calls = false ->
  roundCount (run calls this) = roundCount this + rounds_in calls
  /\ callCount (run calls this) = callCount this + calls_in calls.
Proof.
  revert this. induction calls as [|c calls IH]; intros this Hno.
  - unfold rounds_in, calls_in. simpl. lia.
  - rewrite run_cons. simpl in Hno.
    destruct c; [| |done];
      match goal with
      | |- context [perform this ?c] => destruct (IH (perform this c) Hno) as (Hr & Hc)
      end;
      rewrite Hr, Hc; unfold rounds_in, calls_in;
      cbn [perform startRound recordCall roundCount callCount List.filter length]; lia.
Qed.

(** After [reset] (or on a new manager) the counters count the calls
    made since: [startRound] and [recordCall] always count, whatever
    the limits, and neither touches the counter of the other, so the
    budget of calls is not renewed by a new round.  Another round is
    allowed exactly while fewer rounds than the limit were started,
    and likewise for calls; the limits are 5 and 10 when the policy
    leaves them out or gives 0. *)
Theorem manager_counts_calls_since_reset
    (policy_given : option ToolPolicy) (before since : list call) :
  existsb is_reset since = false ->
  let fresh := run since (new policy_given) in
  let again := run (before ++ Reset :: since) (new policy_given) in
  again = fresh
  /\ roundCount fresh = rounds_in since
  /\ callCount fresh = calls_in since
  /\ canExecuteRound fresh = (rounds_in since <? maxRounds (new policy_given))
  /\ canExecuteCall fresh = (calls_in since <? maxCalls (new policy_given))
  /\ getStatus fresh
     = {| status_roundCount := rounds_in since; status_callCount := calls_in since;
          status_maxRounds := maxRounds (new policy_given);
          status_maxCalls := maxCalls (new policy_given) |}
  /\ maxRounds (new None) = 5 /\ maxCalls (new None) = 10
  /\ (forall p, max_rounds p = None \/ max_rounds p = Some 0 -> maxRounds (new (Some p)) = 5)
  /\ (forall p, max_tool_calls_per_turn p = None \/ max_tool_calls_per_turn p = Some 0 ->
        maxCalls (new (Some p)) = 10).
Proof.
  intros Hno fresh again.
  destruct (run_counts since (new policy_given) Hno) as (Hr & Hc).
  pose proof (run_policy since (new policy_given)) as Hp.
  fold fresh in Hr, Hc, Hp. cbn [new roundCount callCount] in Hr, Hc.
  assert (again = fresh) as Hagain.
  { unfold again. rewrite run_app, run_cons. cbn [perform].
    destruct (run_counts since (reset (run before (new policy_given))) Hno) as (Hr' & Hc').
    cbn [reset roundCount callCount policy] in Hr', Hc'.
    apply manager_eq; [|lia|lia].
    rewrite Hp, run_policy. cbn [reset policy]. apply run_policy. }
  split; [done|]. split; [lia|]. split; [lia|].
  split; [|split; [|split; [|split; [|split; [|split]]]]].
  - unfold canExecuteRound, maxRounds. rewrite Hp. f_equal. lia.
  - unfold canExecuteCall, maxCalls. rewrite Hp. f_equal. lia.
  - unfold getStatus, maxRounds, maxCalls. rewrite Hp. f_equal; lia.
  - done.
  - done.
  - intros p [H|H]; unfold maxRounds; simpl; by rewrite H.
  - intros p [H|H]; unfold maxCalls; simpl; by rewrite H.
Qed.

Lemma manager_counts_calls_since_reset_witness :
  canExecuteRound
    (run [StartRound; RecordCall; StartRound] (new (Some {| tool_choice := None;
        max_rounds := Some 2; max_tool_calls_per_turn := None; blocklist := None |})))
  = false.
Proof.
  exact (proj1 (proj2 (proj2 (proj2
           (manager_counts_calls_since_reset
              (Some {| tool_choice := None; max_rounds := Some 2;
                       max_tool_calls_per_turn := None; blocklist := None |})
              [Reset] [StartRound; RecordCall; StartRound] eq_refl))))).
Defined.

End ToolsFacts.

(** ** Multimodal content *)

Module MultimodalFacts.

Import Multimodal.

Lemma validateFormat_Ok (kind : string) (media : MediaReference)
    (allowed_formats : option (list string)) :
  validateFormat kind media allowed_formats = Ok tt
  <-> forall allowed, allowed_formats = Some allowed ->
        exists format, format_of (default EmptyString (mime_type media)) = Some format
                       /\ In format allowed.
Proof.
  unfold validateFormat. destruct allowed_formats as [allowed|]; [|by split].
  destruct (format_of (default EmptyString (mime_type media))) as [f|].
  - destruct (existsb (String.eqb f) allowed) eqn:Hex.
    + split; [|done]. intros _ l [= <-]. exists f. split; [done|].
      apply existsb_exists in Hex as (x & Hin & Hx). by apply String.eqb_eq in Hx as ->.
    + split; [done|]. intros H. destruct (H allowed eq_refl) as (f' & [= <-] & Hin).
      assert (existsb (String.eqb f) allowed = true); [|congruence].
      apply existsb_exists. exists f. split; [done|apply String.eqb_refl].
  - split; [done|]. intros H. by destruct (H allowed eq_refl) as (f' & [=] & _).
Qed.

Lemma validateMediaReference_Ok (type : string) (media : MediaReference) (config : MediaConfig) :
  validateMediaReference type media config = Ok tt <-> acceptable type media config.
Proof.
  unfold validateMediaReference, acceptable.
  destruct (has_slash (mime_type media)); cbn [negb]; [|split; [done|by intros [? _]]].
  assert (forall r : result unit,
             (r = Ok tt <-> forall allowed, formats_for type config = Some allowed ->
                 exists format, format_of (default EmptyString (mime_type media)) = Some format
                                /\ In format allowed) ->
             and_then r
               (fun _ =>
                  if requires_caption type config
                     && match Validators.truthy_string (caption media) with
                        | Some _ => false
                        | None => true
                        end
                  then MediaValidationError ("Caption is required for " +:+ type +:+ " media")
                  else Ok tt) = Ok tt
             <-> true = true
                 /\ (forall allowed, formats_for type config = Some allowed ->
                       exists format,
                         format_of (default EmptyString (mime_type media)) = Some format
                         /\ In format allowed)
                 /\ (requires_caption type config = true ->
                     exists text, Validators.truthy_string (caption media) = Some text)) as Hthen.
  { intros r Hr. destruct r as [[]|message]; cbn [and_then].
    - destruct (requires_caption type config);
        destruct (Validators.truthy_string (caption media)) as [text|]; cbn [andb].
      + split; [|done]. intros _. split; [done|]. split; [by apply Hr|]. by eexists.
      + split; [done|]. intros (_ & _ & H). by destruct (H eq_refl).
      + split; [|done]. intros _. split; [done|]. split; [by apply Hr|done].
      + split; [|done]. intros _. split; [done|]. split; [by apply Hr|done].
    - split; [done|]. intros (_ & H & _). by apply Hr in H. }
  apply Hthen. unfold formats_for.
  destruct (String.eqb type "image").
  { destruct (image config) as [c|]; [apply validateFormat_Ok|by split]. }
  destruct (String.eqb type "audio").
  { destruct (audio config) as [c|]; [apply validateFormat_Ok|by split]. }
  destruct (String.eqb type "video").
  { destruct (video config) as [c|]; [apply validateFormat_Ok|by split]. }
  destruct (String.eqb type "document").
  { destruct (document config) as [c|]; [apply validateFormat_Ok|by split]. }
  by split.
Qed.

Lemma validateParts_Ok (parts : list ContentPart) (supportedTypes : list string)
    (config : MediaConfig) :
  validateParts parts supportedTypes config = Ok tt
  <-> forall part, In part parts -> type part <> "text" ->
        In (type part) supportedTypes
        /\ forall m, media part = Some m -> acceptable (type part) m config.
Proof.
  induction parts as [|part parts IH]; [by split|]. cbn [validateParts].
  destruct (String.eqb_spec (type part) "text") as [Htext|Hmedia].
  { rewrite IH. split.
    - intros H p [<-|Hin]; [done|by apply H].
    - intros H p Hin. apply H. by right. }
  destruct (existsb (String.eqb (type part)) supportedTypes) eqn:Hsup; cbn [negb].
  - assert (In (type part) supportedTypes) as Hin.
    { apply existsb_exists in Hsup as (x & Hin & Hx). by apply String.eqb_eq in Hx as <-. }
    destruct (media part) as [m|] eqn:Hm.
    + destruct (validateMediaReference (type part) m config) as [[]|message] eqn:Hv;
        cbn [and_then].
      * apply validateMediaReference_Ok in Hv. rewrite IH. split.
        -- intros H p [<-|Hp]; [|by apply H]. intros _. split; [done|].
           intros m' Hm'. rewrite Hm in Hm'. by injection Hm' as <-.
        -- intros H p Hp. apply H. by right.
      * split; [done|]. intros H.
        destruct (H part (or_introl eq_refl) Hmedia) as [_ Hacc].
        specialize (Hacc m Hm). apply validateMediaReference_Ok in Hacc. congruence.
    + cbn [and_then]. rewrite IH. split.
      * intros H p [<-|Hp]; [|by apply H]. intros _. split; [done|].
        intros m' Hm'. by rewrite Hm in Hm'.
      * intros H p Hp. apply H. by right.
  - split; [done|]. intros H.
    destruct (H part (or_introl eq_refl) Hmedia) as [Hin _].
    assert (existsb (String.eqb (type part)) supportedTypes = true); [|congruence].
    apply existsb_exists. exists (type part). split; [done|apply String.eqb_refl].
Qed.

(** What [validateMediaContent] accepts.  When media are not enabled:
    text parts only.  When they are: every part that is not text has a
    supported type and, if it carries a media reference, one that the
    configuration accepts for that type (MIME type with a slash,
    allowed format, caption when required); and the image parts are
    not more than the limit, when the configuration has one.  Text
    parts are never looked at, so a message of text parts only is
    accepted by every configuration whose image limit is not
    negative. *)
Theorem validateMediaContent_accepts_iff (parts : list ContentPart) (config : MediaConfig) :
  (validateMediaContent parts config = Ok tt
   <-> if enabled config
       then (forall part, In part parts -> type part <> "text" ->
               In (type part) (default [] (supported_types config))
               /\ forall m, media part = Some m -> acceptable (type part) m config)
            /\ (forall limit, image_limit config = Some limit -> imageCount parts <= limit)
       else forall part, In part parts -> type part = "text")
  /\ ((forall part, In part parts -> type part = "text") ->
      (forall limit, image_limit config = Some limit -> 0 <= limit) ->
      validateMediaContent parts config = Ok tt).
Proof.
  assert (validateMediaContent parts config = Ok tt
   <-> if enabled config
       then (forall part, In part parts -> type part <> "text" ->
               In (type part) (default [] (supported_types config))
               /\ forall m, media part = Some m -> acceptable (type part) m config)
            /\ (forall limit, image_limit config = Some limit -> imageCount parts <= limit)
       else forall part, In part parts -> type part = "text") as Hiff.
  { unfold validateMediaContent. destruct (enabled config); cbn [negb].
    - destruct (validateParts parts (default [] (supported_types config)) config)
        as [[]|message] eqn:Hparts; cbn [and_then].
      + pose proof (proj1 (validateParts_Ok _ _ _) Hparts) as Hok. unfold image_limit.
        destruct (image config) as [c|]; [|by split].
        destruct (max_images_per_msg c) as [limit|]; [|by split].
        destruct (Z.eqb_spec limit 0) as [->|Hne]; cbn [negb andb]; [by split|].
        destruct (Z.ltb_spec limit (imageCount parts)).
        * split; [done|]. intros [_ Hlim].
          assert (imageCount parts <= limit); [|lia].
          apply Hlim. by destruct limit.
        * split; [|done]. intros _. split; [done|].
          intros limit' Heq. destruct limit; [done| |]; injection Heq as <-; lia.
      + split; [done|]. intros [H _].
        pose proof (proj2 (validateParts_Ok _ _ _) H) as Hok. congruence.
    - destruct (existsb (fun part => negb (String.eqb (type part) "text")) parts) eqn:Hex.
      + split; [done|]. intros H.
        apply existsb_exists in Hex as (part & Hin & Hpart).
        rewrite (H part Hin) in Hpart. done.
      + split; [|done]. intros _ part Hin.
        destruct (String.eqb_spec (type part) "text") as [|Hne]; [done|].
        assert (existsb (fun part => negb (String.eqb (type part) "text")) parts = true);
          [|congruence].
        apply existsb_exists. exists part. split; [done|].
        apply negb_true_iff. by apply String.eqb_neq. }
  split; [exact Hiff|].
  intros Htext Hlimit. apply Hiff. destruct (enabled config); [|done].
  split.
  - intros part Hin Hne. by destruct (Hne (Htext part Hin)).
  - intros limit Hl.
    assert (imageCount parts = 0) as ->; [|by apply Hlimit].
    unfold imageCount.
    assert (List.filter (fun p => String.eqb (type p) "image") parts = []) as ->; [|done].
    clear Hiff. induction parts as [|p parts IH]; [done|]. simpl.
    rewrite (Htext p (or_introl eq_refl)). simpl. apply IH.
    intros part Hin. apply Htext. by right.
Qed.

Lemma validateMediaContent_accepts_iff_witness :
  validateMediaContent
    [{| type := "text"; text := Some "Look at this"; media := None |}]
    {| enabled := true; supported_types := Some ["image"];
       image := Some {| image_allowed_formats := Some ["png"];
                        image_require_caption := None; max_images_per_msg := Some 1 |};
       audio := None; video := None; document := None; custom := [] |}
  = Ok tt.
Proof.
  refine (proj2 (validateMediaContent_accepts_iff
                   [{| type := "text"; text := Some "Look at this"; media := None |}] _) _ _).
  - intros part [<-|[]]. reflexivity.
  - intros limit [= <-]. lia.
Defined.

(** *** Conversion to message content *)

Lemma convertContentPart_raises (part : ContentPart) (message : string) :
  convertContentPart part = MediaValidationError message
  <-> unconvertible part
      /\ message = "Image media must have either url or base64 data".
Proof.
  unfold convertContentPart, unconvertible.
  destruct (String.eqb_spec (type part) "text") as [Htext|Hne].
  - rewrite Htext. cbn [String.eqb Ascii.eqb Bool.eqb andb].
    destruct (Validators.truthy_string (text part)); (split; [done|]);
      by intros [[[=] _] _].
  - destruct (String.eqb_spec (type part) "image") as [Himage|Hne'].
    + destruct (media part) as [m|].
      * unfold convertImageMedia.
        destruct (Validators.truthy_string (url m)) as [u|] eqn:Hu.
        { split; [done|]. intros [[_ (m' & [= <-] & Hu' & _)] _]. congruence. }
        destruct (Validators.truthy_string (base64 m)) as [b|] eqn:Hb.
        { split; [done|]. intros [[_ (m' & [= <-] & _ & Hb')] _]. congruence. }
        split.
        -- intros [= <-]. split; [|done]. split; [done|]. by exists m.
        -- by intros [_ ->].
      * split; [done|]. by intros [[_ (m' & [=] & _)] _].
    + split; [done|]. by intros [[Himage _] _].
Qed.

Lemma convertAll_Ok (parts : list ContentPart) (blocks : list ContentBlock) :
  convertAll parts = Ok blocks
  <-> Forall2 (fun part block => convertContentPart part = Ok block) parts blocks.
Proof.
  revert blocks. induction parts as [|part parts IH]; intros blocks; cbn [convertAll].
  - split; [by intros [= <-]; constructor|]. by intros ->%Forall2_nil_inv_l.
  - destruct (convertContentPart part) as [block|message] eqn:Hc; cbn [and_then].
    + destruct (convertAll parts) as [rest|message] eqn:Hrest; cbn [and_then].
      * split.
        -- intros [= <-]. constructor; [done|]. by apply IH.
        -- intros (b & bs & Hb & Hbs & ->)%Forall2_cons_inv_l.
           apply IH in Hbs. congruence.
      * split; [done|]. intros (b & bs & Hb & Hbs & ->)%Forall2_cons_inv_l.
        apply IH in Hbs. congruence.
    + split; [done|]. intros (b & bs & Hb & Hbs & ->)%Forall2_cons_inv_l. congruence.
Qed.

Lemma convertAll_raises (parts : list ContentPart) (message : string) :
  convertAll parts = MediaValidationError message
  <-> (exists part, In part parts /\ unconvertible part)
      /\ message = "Image media must have either url or base64 data".
Proof.
  revert message. induction parts as [|part parts IH]; intros message; cbn [convertAll].
  - split; [done|]. by intros [(part & [] & _) _].
  - destruct (convertContentPart part) as [block|m] eqn:Hc; cbn [and_then].
    + assert (~ unconvertible part) as Hnot.
      { intros Hu.
        assert (convertContentPart part
                = MediaValidationError "Image media must have either url or base64 data") as H
          by (by apply convertContentPart_raises).
        congruence. }
      destruct (convertAll parts) as [rest|m] eqn:Hrest; cbn [and_then].
      * split; [done|]. intros [(p & [<-|Hin] & Hp) ->]; [done|].
        assert (Ok rest = @MediaValidationError (list ContentBlock)
                            "Image media must have either url or base64 data"); [|done].
        apply IH. split; [by exists p|done].
      * destruct (proj1 (IH m) eq_refl) as [(p & Hin & Hp) ->]. split.
        -- intros [= <-]. split; [|done]. exists p. split; [by right|done].
        -- by intros [_ ->].
    + apply convertContentPart_raises in Hc as [Hu ->]. split.
      * intros [= <-]. split; [|done]. exists part. split; [by left|done].
      * by intros [_ ->].
Qed.

(** [createMultimodalContent] turns a single text part into its text
    (the empty string when it has none), and any other list of parts
    into one block per part, in order.  It raises exactly when one of
    the parts is an image whose media has neither an address nor data.
    Among several parts a text part keeps its text when it has one,
    and becomes the placeholder [[text content]] when its text is
    empty or missing. *)
Theorem createMultimodalContent_converts_part_by_part (parts : list ContentPart) :
  (forall part, parts = [part] -> type part = "text" ->
     createMultimodalContent parts
     = Ok (PlainText (default EmptyString (Validators.truthy_string (text part)))))
  /\ ((forall part, parts = [part] -> type part <> "text") ->
      (forall message,
          createMultimodalContent parts = MediaValidationError message
          <-> (exists part, In part parts /\ unconvertible part)
              /\ message = "Image media must have either url or base64 data")
      /\ (forall content,
            createMultimodalContent parts = Ok content
            <-> exists blocks,
                  content = Blocks blocks
                  /\ Forall2 (fun part block => convertContentPart part = Ok block)
                       parts blocks))
  /\ (forall part,
        type part = "text" ->
        convertContentPart part
        = Ok (TextBlock
                match Validators.truthy_string (text part), media part with
                | Some text, _ => text
                | None, None => "[text content]"
                | None, Some media =>
                    "[text content]" +:+
                    match Validators.truthy_string (caption media) with
                    | Some caption => ": " +:+ caption
                    | None => EmptyString
                    end
                end)).
Proof.
  split; [|split].
  - intros part -> Htext. unfold createMultimodalContent.
    by rewrite Htext.
  - intros Hmany.
    assert (createMultimodalContent parts
            = and_then (convertAll parts) (fun blocks => Ok (Blocks blocks))) as ->.
    { destruct parts as [|part [|second rest]]; try done.
      unfold createMultimodalContent.
      destruct (String.eqb_spec (type part) "text") as [Htext|]; [|done].
      by destruct (Hmany part eq_refl). }
    split.
    + intros message. rewrite <- convertAll_raises.
      destruct (convertAll parts); cbn [and_then]; split; congruence.
    + intros content. split.
      * destruct (convertAll parts) as [blocks|message] eqn:Hall; cbn [and_then]; [|done].
        intros [= <-]. exists blocks. split; [done|]. by apply convertAll_Ok.
      * intros (blocks & -> & Hall). apply convertAll_Ok in Hall. by rewrite Hall.
  - intros part Htext. unfold convertContentPart. rewrite Htext.
    cbn [String.eqb Ascii.eqb Bool.eqb andb].
    destruct (Validators.truthy_string (text part)) as [t|]; [done|].
    by destruct (media part) as [m|].
Qed.

Lemma createMultimodalContent_converts_part_by_part_witness :
  createMultimodalContent
    [{| type := "text"; text := None; media := None |}] = Ok (PlainText EmptyString).
Proof.
  exact (proj1 (createMultimodalContent_converts_part_by_part
                  [{| type := "text"; text := None; media := None |}])
               {| type := "text"; text := None; media := None |} eq_refl eq_refl).
Defined.

End MultimodalFacts.

(** ** The registry *)

Module RegistryFacts.

Import Registry JsObjectFacts.

Section Entries.

Context {A : Type}.

Implicit Types (m : list (string * A)) (key : string) (v : A).

Lemma map_get_set m key v other :
  JsMap.get (JsMap.set m key v) other
  = if String.eqb key other then Some v else JsMap.get m other.
Proof. apply (get_set m key v other). Qed.

Lemma map_has_In m key : JsMap.has m key = true <-> In key (JsMap.keys m).
Proof.
  unfold JsMap.has, JsMap.keys.
  pose proof (get_None_not_In m key) as Hnone.
  change (JsObject.get m key) with (JsMap.get m key) in Hnone.
  destruct (JsMap.get m key).
  - split; [|done]. intros _.
    destruct (in_dec String.string_dec key (map fst m)) as [|Hnot]; [done|].
    by apply Hnone in Hnot.
  - split; [done|]. intros Hin. by apply (proj1 Hnone) in Hin.
Qed.

Lemma map_set_keys m key v :
  JsMap.keys (JsMap.set m key v)
  = if JsMap.has m key then JsMap.keys m else JsMap.keys m ++ [key].
Proof.
  unfold JsMap.keys. change (JsMap.set m key v) with (JsObject.set m key v).
  rewrite set_keys.
  destruct (existsb (String.eqb key) (map fst m)) eqn:Hex.
  - assert (JsMap.has m key = true) as ->; [|done].
    apply map_has_In. apply existsb_exists in Hex as (x & Hin & Hx).
    by apply String.eqb_eq in Hx as ->.
  - destruct (JsMap.has m key) eqn:Hhas; [|done].
    apply map_has_In in Hhas.
    assert (existsb (String.eqb key) (map fst m) = true); [|congruence].
    apply existsb_exists. exists key. split; [done|apply String.eqb_refl].
Qed.

Lemma map_set_size m key v :
  JsMap.size (JsMap.set m key v)
  = if JsMap.has m key then JsMap.size m else JsMap.size m + 1.
Proof.
  unfold JsMap.size. rewrite <- !(length_map fst).
  change (map fst (JsMap.set m key v)) with (JsMap.keys (JsMap.set m key v)).
  rewrite map_set_keys. destruct (JsMap.has m key); [done|].
  unfold JsMap.keys. rewrite length_app. simpl. lia.
Qed.

Lemma map_get_delete m key other :
  JsMap.get (JsMap.delete m key) other
  = if String.eqb key other then None else JsMap.get m other.
Proof.
  unfold JsMap.delete. induction m as [|[k x] m IH]; simpl.
  - by destruct (String.eqb key other).
  - destruct (String.eqb_spec k key) as [->|Hne]; simpl.
    + rewrite IH. by destruct (String.eqb key other).
    + rewrite IH. destruct (String.eqb_spec k other) as [->|Hne']; [|done].
      apply String.eqb_neq in Hne. rewrite String.eqb_sym in Hne. by rewrite Hne.
Qed.

Lemma map_delete_NoDup m key : NoDup (JsMap.keys m) -> NoDup (JsMap.keys (JsMap.delete m key)).
Proof.
  unfold JsMap.keys, JsMap.delete. induction m as [|[k x] m IH]; simpl; [done|].
  intros [Hfresh Hnd]%NoDup_cons. destruct (negb (String.eqb k key)); simpl; [|by apply IH].
  apply NoDup_cons. split; [|by apply IH].
  intros Hin. apply Hfresh. apply list_elem_of_In, in_map_iff in Hin as (p & Hp & Hin).
  apply list_elem_of_In, in_map_iff. exists p. split; [done|].
  by apply filter_In in Hin as [Hin _].
Qed.

Lemma map_delete_absent m key : JsMap.has m key = false -> JsMap.delete m key = m.
Proof.
  unfold JsMap.has, JsMap.delete. induction m as [|[k x] m IH]; simpl; [done|].
  destruct (String.eqb k key); simpl; [done|]. intros H. by rewrite IH.
Qed.

Lemma map_delete_size m key :
  NoDup (JsMap.keys m) ->
  JsMap.size (JsMap.delete m key)
  = JsMap.size m - (if JsMap.has m key then 1 else 0).
Proof.
  unfold JsMap.size, JsMap.keys. induction m as [|[k x] m IH]; [done|].
  intros [Hfresh Hnd]%NoDup_cons. specialize (IH Hnd).
  unfold JsMap.has, JsMap.delete in *. simpl.
  destruct (String.eqb_spec k key) as [->|Hne]; simpl.
  - assert (JsMap.get m key = None) as Hnone.
    { apply (proj2 (get_None_not_In m key)). intros Hin. apply Hfresh.
      by apply list_elem_of_In. }
    rewrite Hnone in IH.
    fold (JsMap.delete m key). rewrite map_delete_absent; [lia|].
    unfold JsMap.has. by rewrite Hnone.
  - lia.
Qed.

Lemma map_delete_set m key v :
  JsMap.has m key = false -> JsMap.delete (JsMap.set m key v) key = m.
Proof.
  unfold JsMap.has, JsMap.delete. induction m as [|[k x] m IH]; simpl.
  - by rewrite String.eqb_refl.
  - destruct (String.eqb k key) eqn:Hk; simpl; [done|]. rewrite Hk. simpl.
    intros H. by rewrite IH.
Qed.

End Entries.

(** *** Registration *)

Lemma find_app {A : Type} (f : A -> bool) (l l' : list A) :
  List.find f (l ++ l')
  = match List.find f l with Some x => Some x | None => List.find f l' end.
Proof. induction l as [|x l IH]; [done|]. simpl. by destruct (f x). Qed.

Lemma registerMany_getPack (many : list PromptPack.t) (this : PromptPackRegistry)
    (packId : string) :
  getPack (registerMany this many) packId
  = match List.find (fun pack => String.eqb (PromptPack.id pack) packId) (rev many) with
    | Some pack => Found pack
    | None => getPack this packId
    end.
Proof.
  revert this. induction many as [|pack many IH]; intros this; [done|].
  cbn [registerMany fold_left]. fold (registerMany (register this pack) many).
  rewrite IH. cbn [rev]. rewrite find_app.
  destruct (List.find _ (rev many)); [done|]. cbn [List.find].
  unfold getPack, register. cbn [packs]. rewrite map_get_set.
  by destruct (String.eqb (PromptPack.id pack) packId).
Qed.

(** A pack that was registered is found under its identifier, and a
    registration changes nothing for the other identifiers.  A pack
    registered under an identifier that is present takes the place of
    the former one, so that the list of the packs and the size stay
    the same; otherwise it comes last.  After [registerMany] an
    identifier gives the last of the packs that have it. *)
Theorem register_then_getPack (this : PromptPackRegistry) (pack : PromptPack.t) :
  getPack (register this pack) (PromptPack.id pack) = Found pack
  /\ (forall other, other <> PromptPack.id pack ->
        getPack (register this pack) other = getPack this other)
  /\ listPacks (register this pack)
     = (if hasPack this (PromptPack.id pack) then listPacks this
        else listPacks this ++ [PromptPack.id pack])
  /\ size (register this pack)
     = (if hasPack this (PromptPack.id pack) then size this else size this + 1)
  /\ (forall many packId,
        getPack (registerMany this many) packId
        = match List.find (fun pack => String.eqb (PromptPack.id pack) packId) (rev many) with
          | Some pack => Found pack
          | None => getPack this packId
          end).
Proof.
  split; [|split; [|split; [|split]]].
  - unfold getPack, register. cbn [packs]. by rewrite map_get_set, String.eqb_refl.
  - intros other Hne. unfold getPack, register. cbn [packs]. rewrite map_get_set.
    destruct (String.eqb_spec (PromptPack.id pack) other); [congruence|done].
  - apply map_set_keys.
  - apply map_set_size.
  - intros many packId. apply registerMany_getPack.
Qed.

(** *** Removal *)

(** [unregister] answers whether the pack was there.  Afterwards the
    identifier is absent and its lookup raises a [NotFoundError]; the
    other identifiers are as before; the size went down by one if the
    pack was there.  Registering a pack under a new identifier and
    unregistering it gives the registry back. *)
Theorem unregister_removes_the_pack (this : PromptPackRegistry) (packId : string) :
  let found := (unregister this packId).1 in
  let after := (unregister this packId).2 in
  found = hasPack this packId
  /\ hasPack after packId = false
  /\ getPack after packId
     = NotFoundError ("PromptPack '" +:+ packId +:+ "' not found in registry")
  /\ (forall other, other <> packId -> getPack after other = getPack this other)
  /\ (NoDup (listPacks this) -> size after = size this - (if found then 1 else 0))
  /\ (forall pack,
        hasPack this (PromptPack.id pack) = false ->
        (unregister (register this pack) (PromptPack.id pack)).2 = this).
Proof.
  intros found after. subst found after. unfold unregister. cbn [fst snd].
  split; [done|]. split; [|split; [|split; [|split]]].
  - unfold hasPack, JsMap.has. cbn [packs]. by rewrite map_get_delete, String.eqb_refl.
  - unfold getPack. cbn [packs]. by rewrite map_get_delete, String.eqb_refl.
  - intros other Hne. unfold getPack. cbn [packs]. rewrite map_get_delete.
    destruct (String.eqb_spec packId other); [congruence|done].
  - intros Hnd. unfold size. cbn [packs]. by apply map_delete_size.
  - intros pack Hnew. unfold register. cbn [packs]. destruct this as [m].
    cbn [packs] in *. by rewrite map_delete_set.
Qed.

(** *** Registries that the calls build *)

Lemma register_well_formed (this : PromptPackRegistry) (pack : PromptPack.t) :
  well_formed this -> well_formed (register this pack).
Proof.
  intros [Hnd Hid]. split.
  - unfold listPacks, register. cbn [packs]. rewrite map_set_keys.
    destruct (JsMap.has (packs this) (PromptPack.id pack)) eqn:Hhas; [done|].
    apply NoDup_app. split; [done|]. split; [|apply NoDup_singleton].
    intros x Hx ->%list_elem_of_singleton.
    assert (JsMap.has (packs this) (PromptPack.id pack) = true); [|congruence].
    apply map_has_In. by apply list_elem_of_In.
  - unfold register. cbn [packs]. apply Forall_forall. intros entry Hin.
    apply list_elem_of_In in Hin.
    destruct (set_In (packs this) _ _ _ Hin) as [->|Hold]; [done|].
    rewrite Forall_forall in Hid. apply Hid. by apply list_elem_of_In.
Qed.

Lemma perform_well_formed (this : PromptPackRegistry) (c : call) :
  well_formed this -> well_formed (perform this c).
Proof.
  intros Hwf. destruct c as [pack|many|packId|]; cbn [perform].
  - by apply register_well_formed.
  - revert this Hwf. induction many as [|pack many IH]; intros this Hwf; [done|].
    apply IH. by apply register_well_formed.
  - destruct Hwf as [Hnd Hid]. split.
    + by apply map_delete_NoDup.
    + unfold unregister. cbn [snd packs]. unfold JsMap.delete.
      rewrite Forall_forall in Hid. apply Forall_forall. intros entry Hin.
      apply Hid. apply list_elem_of_In. apply list_elem_of_In in Hin.
      by apply filter_In in Hin as [Hin _].
  - split; constructor.
Qed.

Lemma run_well_formed (calls : list call) : well_formed (run calls).
Proof.
  unfold run. assert (well_formed new) as Hnew by (split; constructor).
  revert Hnew. generalize new. induction calls as [|c calls IH]; intros this Hwf; [done|].
  simpl. by apply IH, perform_well_formed.
Qed.

(** Whatever calls built a registry, it lists every identifier once,
    its size is the number of the identifiers listed, [hasPack] holds
    exactly for the identifiers listed, which are those [getPack]
    finds, and the pack found under an identifier has that
    identifier. *)
Theorem registry_lists_each_pack_once (calls : list call) :
  let this := run calls in
  NoDup (listPacks this)
  /\ size this = Z.of_nat (length (listPacks this))
  /\ (forall packId, hasPack this packId = true <-> In packId (listPacks this))
  /\ (forall packId,
        hasPack this packId = true <-> exists pack, getPack this packId = Found pack)
  /\ (forall packId pack,
        getPack this packId = Found pack -> PromptPack.id pack = packId).
Proof.
  intros this. destruct (run_well_formed calls) as [Hnd Hid]. fold this in Hnd, Hid.
  split; [done|]. split; [|split; [|split]].
  - unfold size, JsMap.size, listPacks, JsMap.keys. by rewrite length_map.
  - intros packId. apply map_has_In.
  - intros packId. unfold hasPack, getPack, JsMap.has.
    destruct (JsMap.get (packs this) packId) as [pack|].
    + split; [|done]. intros _. by exists pack.
    + split; [done|]. by intros (pack & [=]).
  - intros packId pack. unfold getPack.
    destruct (JsMap.get (packs this) packId) as [found|] eqn:Hget; [|done].
    intros [= <-]. apply (get_Some_In (packs this)) in Hget.
    rewrite Forall_forall in Hid. apply (Hid (packId, found)). by apply list_elem_of_In.
Qed.

(** *** Prompts *)

Lemma keys_In {A : Type} (o : list (string * A)) (key : string) :
  In key (JsObject.keys o) <-> JsObject.get o key <> None.
Proof.
  unfold JsObject.keys. rewrite <- list_elem_of_In, ownProperties_perm, list_elem_of_In.
  pose proof (get_None_not_In o key) as Hnone.
  destruct (JsObject.get o key).
  - split; [done|]. intros _.
    destruct (in_dec String.string_dec key (map fst o)) as [|Hnot]; [done|].
    by apply Hnone in Hnot.
  - split; [|done]. intros Hin. by apply (proj1 Hnone) in Hin.
Qed.

(** The lookups of a prompt.  [hasPrompt] never raises and holds
    exactly when [getPrompt] returns.  For a pack that is registered,
    [listPrompts] lists the identifiers of the prompts that the pack
    holds, [getPrompt] returns the prompt that the pack holds under an
    identifier that is listed, and the prompt count of the metadata is
    the number of the identifiers listed.  [hasPrompt] holds for the
    identifiers listed, and for the names of the members of
    [Object.prototype] as well: for them [getPrompt] returns a member,
    which is no prompt of the pack.  For a pack that is not
    registered, [hasPrompt] is false and [getPrompt], [listPrompts]
    and [getPackMetadata] raise the error of [getPack]. *)
Theorem prompt_lookups_agree (this : PromptPackRegistry) (packId promptId : string) :
  (hasPrompt this packId promptId = true
   <-> exists prompt, getPrompt this packId promptId = Found prompt)
  /\ (forall pack,
        getPack this packId = Found pack ->
        exists ids metadata,
          listPrompts this packId = Found ids
          /\ (hasPrompt this packId promptId = true
              <-> In promptId ids \/ In promptId ObjectPrototype.names)
          /\ (forall prompt,
                getPrompt this packId promptId = Found (ObjectPrototype.Own prompt)
                <-> JsObject.get (PromptPack.prompts pack) promptId = Some prompt)
          /\ (In promptId ids
              <-> exists prompt,
                    getPrompt this packId promptId = Found (ObjectPrototype.Own prompt))
          /\ (~ In promptId ids -> In promptId ObjectPrototype.names ->
              exists member,
                ObjectPrototype.member promptId = Some member
                /\ getPrompt this packId promptId = Found (ObjectPrototype.Inherited member))
          /\ getPackMetadata this packId = Found metadata
          /\ promptCount metadata = Z.of_nat (length ids)
          /\ metadata_id metadata = PromptPack.id pack)
  /\ (forall message,
        getPack this packId = NotFoundError message ->
        hasPrompt this packId promptId = false
        /\ getPrompt this packId promptId = NotFoundError message
        /\ listPrompts this packId = NotFoundError message
        /\ getPackMetadata this packId = NotFoundError message
        /\ message = "PromptPack '" +:+ packId +:+ "' not found in registry").
Proof.
  split; [|split].
  - unfold hasPrompt. destruct (getPrompt this packId promptId) as [prompt|message].
    + split; [|done]. intros _. by exists prompt.
    + split; [done|]. by intros (prompt & [=]).
  - intros pack Hpack. unfold listPrompts, getPackMetadata, hasPrompt, getPrompt.
    rewrite Hpack. eexists _, _. split; [done|].
    rewrite keys_In.
    pose proof (ObjectPrototypeFacts.lookup_truthy
                  (JsObject.get (PromptPack.prompts pack) promptId) promptId) as Hfalsy.
    split; [|split; [|split; [|split; [|done]]]].
    + destruct (ObjectPrototype.truthy _) eqn:Ht; cbn [negb].
      * split; [|done]. intros _.
        destruct (JsObject.get (PromptPack.prompts pack) promptId) eqn:Hget; [by left|].
        right.
        destruct (in_dec String.string_dec promptId ObjectPrototype.names) as [|Hout];
          [done|].
        by pose proof (proj2 Hfalsy (conj eq_refl Hout)).
      * split; [done|]. destruct (proj1 Hfalsy eq_refl) as [Hget Hout].
        intros [Hin|Hin]; [by rewrite Hget in Hin|done].
    + intros prompt.
      destruct (JsObject.get (PromptPack.prompts pack) promptId) as [found|] eqn:Hget.
      * cbn [ObjectPrototype.lookup ObjectPrototype.truthy negb].
        split; intros [= ->]; done.
      * split; [|done]. destruct (ObjectPrototype.truthy _); cbn [negb]; [|done].
        intros [= H]. by destruct (ObjectPrototype.member promptId).
    + destruct (JsObject.get (PromptPack.prompts pack) promptId) as [found|] eqn:Hget.
      * cbn [ObjectPrototype.lookup ObjectPrototype.truthy negb].
        split; [|done]. intros _. by exists found.
      * split; [done|]. intros (prompt & H).
        destruct (ObjectPrototype.truthy _); cbn [negb] in H; [|done].
        injection H as H. by destruct (ObjectPrototype.member promptId).
    + intros Hout (member & Hm)%ObjectPrototypeFacts.member_Some.
      exists member. split; [done|].
      destruct (JsObject.get (PromptPack.prompts pack) promptId) as [found|] eqn:Hget;
        [by destruct Hout|].
      cbn [ObjectPrototype.lookup]. rewrite Hm. cbn [ObjectPrototype.truthy].
      by rewrite (ObjectPrototypeFacts.member_truthy _ _ Hm).
  - intros message Hpack. unfold listPrompts, getPackMetadata, hasPrompt, getPrompt.
    rewrite Hpack. repeat (split; [done|]).
    unfold getPack in Hpack. destruct (JsMap.get (packs this) packId); [done|].
    by injection Hpack as <-.
Qed.

Lemma prompt_lookups_agree_witness :
  hasPrompt (register new PromptPackTemplate.greeting_pack) "support" "greeting" = true
  /\ hasPrompt (register new PromptPackTemplate.greeting_pack) "support" "toString" = true
  /\ listPrompts (register new PromptPackTemplate.greeting_pack) "support"
     = Found ["greeting"].
Proof.
  destruct (proj1 (proj2 (prompt_lookups_agree
                     (register new PromptPackTemplate.greeting_pack) "support" "greeting"))
              PromptPackTemplate.greeting_pack eq_refl)
    as (ids & metadata & Hids & Hhas & _).
  destruct (proj1 (proj2 (prompt_lookups_agree
                     (register new PromptPackTemplate.greeting_pack) "support" "toString"))
              PromptPackTemplate.greeting_pack eq_refl)
    as (ids' & metadata' & Hids' & Hhas' & _).
  injection Hids as <-. injection Hids' as <-.
  split; [apply Hhas; left; by left|].
  split; [apply Hhas'; right; vm_compute; tauto|reflexivity].
Defined.

End RegistryFacts.

(** ** The prompt template *)

Module PromptPackTemplateFacts.

Import PromptPackTemplate JsObjectFacts.

(** *** Overrides of a model *)

Lemma fold_set_get (entries : list (string * jsvalue)) (o : list (string * jsvalue))
    (key : string) :
  NoDup (map fst entries) ->
  JsObject.get (fold_left (fun o entry => JsObject.set o entry.1 entry.2) entries o) key
  = match JsObject.get entries key with
    | Some v => Some v
    | None => JsObject.get o key
    end.
Proof.
  revert o. induction entries as [|[k v] entries IH]; intros o Hnd; [done|].
  apply NoDup_cons in Hnd as [Hfresh Hnd]. cbn [fold_left fst snd JsObject.get].
  rewrite IH by done. rewrite get_set.
  destruct (String.eqb_spec k key) as [->|Hne]; [|done].
  assert (JsObject.get entries key = None) as ->; [|done].
  apply get_None_not_In. intros Hin. apply Hfresh. by apply list_elem_of_In.
Qed.

Lemma ownProperties_get (o : list (string * jsvalue)) (key : string) :
  NoDup (map fst o) -> JsObject.get (JsObject.ownProperties o) key = JsObject.get o key.
Proof.
  intros Hnd.
  assert (NoDup (map fst (JsObject.ownProperties o))) as Hnd'.
  { by rewrite ownProperties_perm. }
  destruct (JsObject.get o key) as [v|] eqn:Hget.
  - apply In_get; [done|]. apply list_elem_of_In. rewrite ownProperties_perm.
    apply list_elem_of_In. by apply get_Some_In.
  - apply get_None_not_In. rewrite <- list_elem_of_In, ownProperties_perm, list_elem_of_In.
    by apply get_None_not_In.
Qed.

Lemma spread_get (base extra : list (string * jsvalue)) (key : string) :
  NoDup (map fst base) -> NoDup (map fst extra) ->
  JsObject.get (spread (Some base) (Some extra)) key
  = match JsObject.get extra key with
    | Some v => Some v
    | None => JsObject.get base key
    end.
Proof.
  intros Hbase Hextra. unfold spread. cbn [default from_option id].
  rewrite !fold_set_get by (by rewrite ownProperties_perm).
  rewrite !ownProperties_get by done.
  destruct (JsObject.get extra key); [done|]. by destruct (JsObject.get base key).
Qed.

(** The override that is active is the one that the prompt holds for
    the model identifier; there is none without a model identifier,
    without overrides, or for an identifier that the overrides do not
    hold, unless it is the name of a member of [Object.prototype],
    which acts as an override without properties.  Without an active
    override the template and the parameters are those of the prompt.
    An override with a template of its own replaces the template,
    whatever prefix and suffix it has; otherwise the result is the
    prefix of the override, the template of the prompt and the suffix
    of the override, an empty or missing one counting for nothing.
    The parameters of an override win key by key over those of the
    prompt, which are kept for the other keys. *)
Theorem model_override_replaces_or_wraps (this : PromptPackTemplate) :
  let base := Prompt.system_template (promptConfig this) in
  let given (s : option string) := default EmptyString (Validators.truthy_string s) in
  ((Validators.truthy_string (modelId this) = None
    \/ Prompt.model_overrides (promptConfig this) = None) ->
   active_override this = None)
  /\ (forall modelId overrides,
        Validators.truthy_string (PromptPackTemplate.modelId this) = Some modelId ->
        Prompt.model_overrides (promptConfig this) = Some overrides ->
        (forall override, overrides !! modelId = Some override ->
                          active_override this = Some override)
        /\ (overrides !! modelId = None -> ~ In modelId ObjectPrototype.names ->
            active_override this = None)
        /\ (overrides !! modelId = None -> In modelId ObjectPrototype.names ->
            active_override this = Some ModelOverride.none
            /\ getSystemTemplate this = base
            /\ getParameters this = Prompt.parameters (promptConfig this)))
  /\ (active_override this = None ->
      getSystemTemplate this = base
      /\ getParameters this = Prompt.parameters (promptConfig this))
  /\ (forall override,
        active_override this = Some override ->
        getSystemTemplate this
        = match Validators.truthy_string (ModelOverride.system_template override) with
          | Some replacement => replacement
          | None =>
              given (ModelOverride.system_template_prefix override) +:+ base
              +:+ given (ModelOverride.system_template_suffix override)
          end)
  /\ (forall override,
        active_override this = Some override ->
        ModelOverride.parameters override = None ->
        getParameters this = Prompt.parameters (promptConfig this))
  /\ (forall override params extra key,
        active_override this = Some override ->
        Prompt.parameters (promptConfig this) = Some params ->
        ModelOverride.parameters override = Some extra ->
        NoDup (map fst params) -> NoDup (map fst extra) ->
        exists merged,
          getParameters this = Some merged
          /\ JsObject.get merged key
             = match JsObject.get extra key with
               | Some v => Some v
               | None => JsObject.get params key
               end).
Proof.
  intros base given.
  assert (forall modelId overrides,
            Validators.truthy_string (PromptPackTemplate.modelId this) = Some modelId ->
            Prompt.model_overrides (promptConfig this) = Some overrides ->
            (forall override, overrides !! modelId = Some override ->
                              active_override this = Some override)
            /\ (overrides !! modelId = None -> ~ In modelId ObjectPrototype.names ->
                active_override this = None)
            /\ (overrides !! modelId = None -> In modelId ObjectPrototype.names ->
                active_override this = Some ModelOverride.none)) as Hactive.
  { intros modelId overrides Hid Hov. unfold active_override. rewrite Hid, Hov.
    split; [|split].
    - by intros override ->.
    - intros Hnone Hother.
      assert (ObjectPrototype.truthy
                (ObjectPrototype.lookup (overrides !! modelId) modelId) = false) as ->;
        [|done].
      by apply ObjectPrototypeFacts.lookup_truthy.
    - intros Hnone (member & Hm)%ObjectPrototypeFacts.member_Some.
      rewrite Hnone. cbn [ObjectPrototype.lookup]. rewrite Hm.
      cbn [ObjectPrototype.truthy].
      by rewrite (ObjectPrototypeFacts.member_truthy _ _ Hm). }
  split; [|split; [|split; [|split; [|split]]]].
  - unfold active_override. intros [-> | Hnone]; [done|].
    rewrite Hnone. by destruct (Validators.truthy_string (modelId this)).
  - intros modelId overrides Hid Hov.
    destruct (Hactive modelId overrides Hid Hov) as (Hown & Hnone & Hmember).
    split; [done|]. split; [done|]. intros Hno Hin.
    unfold getSystemTemplate, getParameters. by rewrite (Hmember Hno Hin).
  - unfold getSystemTemplate, getParameters. by intros ->.
  - unfold getSystemTemplate. intros override ->. fold base.
    destruct (Validators.truthy_string (ModelOverride.system_template override)); [done|].
    unfold given.
    destruct (Validators.truthy_string (ModelOverride.system_template_prefix override));
      destruct (Validators.truthy_string (ModelOverride.system_template_suffix override));
      cbn [default from_option id];
      rewrite ?StrFacts.app_nil_r, ?StrFacts.app_nil_l, ?StrFacts.app_assoc; done.
  - unfold getParameters. by intros override -> ->.
  - unfold getParameters. intros override params extra key -> -> -> Hparams Hextra.
    eexists. split; [done|]. by apply spread_get.
Qed.

Lemma model_override_replaces_or_wraps_witness :
  getSystemTemplate (brief_template (Some "gpt-4")) = "Be brief. Hello {{name}} Thanks."
  /\ getSystemTemplate (brief_template (Some "toString")) = "Hello {{name}}".
Proof.
  destruct (model_override_replaces_or_wraps (brief_template (Some "gpt-4")))
    as (_ & _ & _ & Hwraps & _).
  destruct (model_override_replaces_or_wraps (brief_template (Some "toString")))
    as (_ & Hactive & _).
  split.
  - exact (Hwraps brief_override eq_refl).
  - destruct (Hactive "toString" {["gpt-4" := brief_override]} eq_refl eq_refl)
      as (_ & _ & Hmember).
    apply Hmember; [reflexivity|]. vm_compute. tauto.
Defined.

(** *** Formatting *)

Import TemplateEngine.

Lemma replace_variables_throws (vars : gmap string jsvalue) (allow : bool)
    (segments : list segment) (e : exn) :
  replace_variables vars allow segments = Throws e ->
  allow = false
  /\ exists n, e = undefined_variable n /\ is_undefined (get vars n) = true.
Proof.
  induction segments as [|[c|m caps off] segments IH]; cbn [replace_variables]; [done| |].
  - destruct (replace_variables vars allow segments) as [out|e'|];
      cbn [mbind outcome_bind]; [done| |done].
    intros [= <-]. by apply IH.
  - destruct (is_undefined (get vars (callback_name caps off))) eqn:Hu.
    + destruct allow; cbn [mbind outcome_bind].
      * destruct (replace_variables vars true segments) as [out|e'|];
          cbn [mbind outcome_bind]; [done| |done].
        intros [= <-]. by apply IH.
      * intros [= <-]. split; [done|]. by eexists.
    + cbn [mbind outcome_bind].
      destruct (replace_variables vars allow segments) as [out|e'|];
        cbn [mbind outcome_bind]; [done| |done].
      intros [= <-]. by apply IH.
Qed.

Lemma render_throws (engine : TemplateEngine.TemplateEngine) (template : string)
    (options : RenderOptions) (e : exn) :
  render engine template options = Throws e ->
  e = depth_error
  \/ exists n, e = undefined_variable n
               /\ is_undefined (get (default ∅ (TemplateEngine.variables options)) n) = true.
Proof.
  unfold render, substituteFragments.
  destruct (maxDepth <=? depth _)%nat; cbn [mbind outcome_bind].
  - intros [= <-]. by left.
  - intros H. right. unfold substituteVariables in H.
    by apply replace_variables_throws in H as [_ H].
Qed.

Lemma first_default_Some (defs : list VariableDefinition) (key : string) (d : jsvalue) :
  first_default defs key = Some d -> is_undefined d = false.
Proof.
  induction defs as [|varDef defs IH]; [done|]. simpl.
  destruct (default_value varDef) as [d0|]; [|done].
  destruct (String.eqb (name varDef) key && negb (is_undefined d0)) eqn:Hc; [|done].
  intros [= <-]. apply andb_true_iff in Hc as [_ Hc]. by apply negb_true_iff in Hc.
Qed.

Lemma applyDefaults_idempotent (defs : option (list VariableDefinition))
    (values : gmap string jsvalue) :
  applyDefaults defs (applyDefaults defs values) = applyDefaults defs values.
Proof.
  destruct defs as [defs|]; [|done]. unfold applyDefaults.
  apply RenderingFacts.applyDefaults_from_settled. intros varDef d Hin Hd Hdef.
  rewrite RenderingFacts.applyDefaults_from_get.
  destruct (is_undefined (get values (name varDef))) eqn:Hv; [|done].
  destruct (RenderingFacts.first_default_defined defs varDef d Hin Hd Hdef) as (d' & -> & Hd').
  done.
Qed.

(** [format] applies the defaults, validates and renders, in this
    order.  Giving the defaults explicitly changes nothing.  An error
    of the validation is the error of [format], unless the options
    turn the validation off.  The errors of [format] are those of the
    validation, the depth error of the fragments and the error for a
    variable that is not defined; when the options hold no variables
    of their own, such a variable has no value among those given and
    no default in the definitions of the prompt. *)
Theorem format_fills_defaults_validates_then_renders
    (this : PromptPackTemplate) (values : gmap string jsvalue) :
  let defs := Prompt.variables (promptConfig this) in
  let filled := applyDefaults defs values in
  let validated := match PromptPackTemplate.validate (renderOptions this) with
                   | Some (Some false) => false
                   | _ => true
                   end in
  format this filled = format this values
  /\ (forall e, validated = true -> validateVariables defs filled = Throws e ->
        format this values = Throws e)
  /\ (validateVariables defs filled = Returns tt \/ validated = false ->
      format this values
      = render (engine this) (getSystemTemplate this) (format_options this filled))
  /\ (forall e,
        format this values = Throws e ->
        (validated = true /\ validateVariables defs filled = Throws e)
        \/ e = depth_error
        \/ exists n,
             e = undefined_variable n
             /\ (PromptPackTemplate.variables (renderOptions this) = None ->
                 is_undefined (get values n) = true
                 /\ forall ds, defs = Some ds -> first_default ds n = None)).
Proof.
  intros defs filled validated.
  assert (format this values
          = (_ ← (if validated then validateVariables defs filled else Returns tt);
             render (engine this) (getSystemTemplate this) (format_options this filled)))
    as Hformat.
  { unfold format, validated. fold defs. fold filled.
    by destruct (PromptPackTemplate.validate (renderOptions this)) as [[[|]|]|]. }
  split; [|split; [|split]].
  - rewrite Hformat. unfold format. fold defs.
    unfold filled. rewrite applyDefaults_idempotent. fold filled.
    unfold validated. by destruct (PromptPackTemplate.validate (renderOptions this)) as [[[|]|]|].
  - intros e Hv He. by rewrite Hformat, Hv, He.
  - intros [Hok| ->]; rewrite Hformat; [|done].
    rewrite Hok. by destruct validated.
  - intros e. rewrite Hformat. destruct validated.
    + destruct (validateVariables defs filled) as [[]|e'|] eqn:Hv; cbn [mbind outcome_bind].
      * intros Hr. right. apply render_throws in Hr as [->|(n & -> & Hu)]; [by left|].
        right. exists n. split; [done|]. intros Hown.
        unfold format_options in Hu. cbn [TemplateEngine.variables] in Hu.
        rewrite Hown in Hu. cbn [default from_option id] in Hu.
        unfold filled, applyDefaults in Hu. destruct defs as [ds|].
        -- rewrite RenderingFacts.applyDefaults_from_get in Hu.
           destruct (is_undefined (get values n)) eqn:Hg; cbv iota in Hu; [|congruence].
           split; [done|].
           intros ds' [= <-]. destruct (first_default ds n) as [d|] eqn:Hd; [|done].
           apply first_default_Some in Hd. cbn [default from_option id] in Hu. congruence.
        -- split; [done|]. by intros ds [=].
      * intros [= <-]. left. done.
      * done.
    + cbn [mbind outcome_bind].
      intros Hr. right. apply render_throws in Hr as [->|(n & -> & Hu)]; [by left|].
      right. exists n. split; [done|]. intros Hown.
      unfold format_options in Hu. cbn [TemplateEngine.variables] in Hu.
      rewrite Hown in Hu. cbn [default from_option id] in Hu.
      unfold filled, applyDefaults in Hu. destruct defs as [ds|].
      * rewrite RenderingFacts.applyDefaults_from_get in Hu.
        destruct (is_undefined (get values n)) eqn:Hg; cbv iota in Hu; [|congruence].
           split; [done|].
        intros ds' [= <-]. destruct (first_default ds n) as [d|] eqn:Hd; [|done].
        apply first_default_Some in Hd. cbn [default from_option id] in Hu. congruence.
      * split; [done|]. by intros ds [=].
Qed.

(** *** Tools of a prompt *)

Section FilterTools.

Context {T : Type} (tool_name : T -> string).

Variable this : PromptPackTemplate.

Lemma listed_In (tool : T) :
  listed tool_name this tool = true <-> In (tool_name tool) (getTools this).
Proof.
  unfold listed. rewrite existsb_exists. split.
  - intros (x & Hin & Hx). by apply String.eqb_eq in Hx as ->.
  - intros Hin. exists (tool_name tool). split; [done|apply String.eqb_refl].
Qed.

Lemma filterTools_kept (tools : list T) (warn : option bool) :
  (filterTools tool_name this tools warn).1
  = if decide (getTools this = []) then tools
    else List.filter (listed tool_name this) tools.
Proof.
  unfold filterTools, listed. destruct (getTools this) as [|first names]; [done|].
  rewrite decide_False by done. by destruct (default true warn).
Qed.

Lemma filter_nil_iff {A : Type} (f : A -> bool) (l : list A) :
  List.filter f l = [] <-> forall x, In x l -> f x = false.
Proof.
  induction l as [|a l IH]; simpl; [by split|].
  destruct (f a) eqn:Ha.
  - split; [done|]. intros H. specialize (H a (or_introl eq_refl)). congruence.
  - rewrite IH. split.
    + intros H x [<-|Hin]; [done|by apply H].
    + intros H x Hin. apply H. by right.
Qed.

Lemma filterTools_warnings (tools : list T) (warn : option bool) :
  (filterTools tool_name this tools warn).2 = []
  <-> warn = Some false \/ getTools this = []
      \/ ((forall name, In name (getTools this) -> In name (map tool_name tools))
          /\ forall tool, In tool tools -> In (tool_name tool) (getTools this)).
Proof.
  pose proof listed_In as Hlisted. unfold listed in Hlisted.
  unfold filterTools. destruct (getTools this) as [|first names] eqn:Hnames.
  { split; [|done]. intros _. right. by left. }
  destruct (decide (warn = Some false)) as [->|Hwarn].
  { split; [|done]. intros _. by left. }
  assert (default true warn = true) as -> by (by destruct warn as [[|]|]).
  cbn [snd].
  set (missing := List.filter _ (first :: names)).
  set (out := List.filter (fun tool => negb _) tools).
  assert (missing = [] <->
          forall name, In name (first :: names) -> In name (map tool_name tools)) as Hmissing.
  { unfold missing. rewrite filter_nil_iff. split.
    - intros H name Hin. specialize (H name Hin).
      apply negb_false_iff, existsb_exists in H as (x & Hx & Heq).
      by apply String.eqb_eq in Heq as ->.
    - intros H name Hin. apply negb_false_iff, existsb_exists.
      exists name. split; [by apply H|apply String.eqb_refl]. }
  assert (out = [] <-> forall tool, In tool tools -> In (tool_name tool) (first :: names))
    as Hout.
  { unfold out. rewrite filter_nil_iff. split.
    - intros H tool Hin. specialize (H tool Hin). apply negb_false_iff in H.
      by apply Hlisted.
    - intros H tool Hin. apply negb_false_iff. by apply Hlisted, H. }
  split.
  - intros [H1 H2]%app_eq_nil. right. right. split; [apply Hmissing|apply Hout].
    + by destruct missing.
    + by destruct out.
  - intros [Hw|[[=]|[H1 H2]]]; [done|].
    apply Hmissing in H1. apply Hout in H2. by rewrite H1, H2.
Qed.

End FilterTools.

(** [filterTools] returns the tools whose name the prompt lists, in
    the order given, and all the tools when the prompt lists none;
    filtering a second time changes nothing, and asking for warnings
    or not does not change the result.  It logs nothing exactly when
    it was told not to warn, or the prompt lists no tool, or every
    listed name has a tool and every tool has a listed name. *)
Theorem filterTools_keeps_the_listed_tools {T : Type} (tool_name : T -> string)
    (this : PromptPackTemplate) (tools : list T) (warn : option bool) :
  let kept := (filterTools tool_name this tools warn).1 in
  let warnings := (filterTools tool_name this tools warn).2 in
  kept = (if decide (getTools this = []) then tools
          else List.filter
                 (fun tool => existsb (String.eqb (tool_name tool)) (getTools this)) tools)
  /\ (forall other, (filterTools tool_name this tools other).1 = kept)
  /\ (filterTools tool_name this kept warn).1 = kept
  /\ (forall tool, In tool kept <->
        In tool tools /\ (getTools this = [] \/ In (tool_name tool) (getTools this)))
  /\ (warnings = []
      <-> warn = Some false \/ getTools this = []
          \/ ((forall name, In name (getTools this) -> In name (map tool_name tools))
              /\ forall tool, In tool tools -> In (tool_name tool) (getTools this))).
Proof.
  intros kept warnings. subst kept warnings.
  split; [apply filterTools_kept|]. split; [|split; [|split]].
  - intros other. by rewrite !filterTools_kept.
  - rewrite !filterTools_kept. destruct (decide (getTools this = [])); [done|].
    induction tools as [|tool tools IH]; [done|]. simpl.
    destruct (listed tool_name this tool) eqn:Htool; simpl; rewrite ?Htool; by rewrite ?IH.
  - intros tool. rewrite filterTools_kept. destruct (decide (getTools this = [])) as [Hnil|Hne].
    + split; [|by intros [? _]]. intros H. split; [done|by left].
    + rewrite filter_In, listed_In. split.
      * intros [H1 H2]. split; [done|by right].
      * intros [H1 [Hnil|H2]]; done.
  - apply filterTools_warnings.
Qed.

End PromptPackTemplateFacts.

(** ** The default syntax *)

Module DefaultSyntaxFacts.

Import TemplateEngine StrFacts TemplateEngineFacts.

Lemma match_default_items (s rest : string) (captures : list string) :
  match_items default_items s = Some (captures, rest) ->
  exists n, captures = [n] /\ is_name n = true /\ s = placeholder_of n +:+ rest.
Proof.
  unfold default_items. cbn [match_items].
  destruct s as [|c1 [|c2 s]]; try done.
  { by destruct (Ascii.eqb "{" c1). }
  destruct (Ascii.eqb_spec "{"%char c1) as [<-|]; [|done].
  destruct (Ascii.eqb_spec "{"%char c2) as [<-|]; [|done].
  intros H. apply first_some_Some in H as ((n & r) & Hin & Hf). cbn [fst snd] in Hf.
  destruct (name_splits_sound _ _ _ Hin) as [-> Hn].
  destruct r as [|c3 [|c4 r]]; try done.
  { by destruct (Ascii.eqb "}" c3). }
  destruct (Ascii.eqb_spec "}"%char c3) as [<-|]; [|done].
  destruct (Ascii.eqb_spec "}"%char c4) as [<-|]; [|done].
  injection Hf as <- <-. exists n. split; [done|]. split; [done|].
  by rewrite placeholder_of_app.
Qed.

(** Every match of a scan is the placeholder of the name it captures. *)
Lemma scan_default_matches (s : string) (offset skip : nat)
    (matched : string) (captures : list string) (at_ : nat) :
  In (Match matched captures at_) (scan default_items s offset skip) ->
  exists n, captures = [n] /\ is_name n = true /\ matched = placeholder_of n
            /\ Str.occurs (placeholder_of n) s.
Proof.
  revert offset skip. induction s as [|c s IH]; intros offset skip.
  - simpl. by destruct skip.
  - assert (forall offset' skip',
               In (Match matched captures at_) (scan default_items s offset' skip') ->
               exists n, captures = [n] /\ is_name n = true /\ matched = placeholder_of n
                         /\ Str.occurs (placeholder_of n) (String c s)) as Htail.
    { intros offset' skip' Hin. destruct (IH _ _ Hin) as (n & H1 & H2 & H3 & H4).
      exists n. repeat (split; [done|]). by apply RenderingFacts.occurs_cons. }
    cbn [scan]. destruct skip as [|k]; [|by apply Htail].
    destruct (match_items default_items (String c s)) as [[caps rest]|] eqn:Hm.
    + destruct (match_default_items _ _ _ Hm) as (n & -> & Hn & Hs).
      assert (take (String.length (String c s) - String.length rest) (String c s)
              = placeholder_of n) as Htake.
      { by rewrite Hs, length_app_minus, take_app_length. }
      intros [[= <- <- <-]|Hin].
      * exists n. split; [done|]. split; [done|]. split; [exact Htake|].
        rewrite Hs. exists EmptyString, rest. done.
      * destruct (String.length (String c s) - String.length rest)%nat.
        -- destruct Hin as [[=]|Hin]. by apply (Htail _ _ Hin).
        -- by apply (Htail _ _ Hin).
    + intros [[=]|Hin]. by apply (Htail _ _ Hin).
Qed.

Lemma replace_variables_app (vars : gmap string jsvalue) (allow : bool)
    (a b : list segment) :
  replace_variables vars allow (a ++ b)
  = (x ← replace_variables vars allow a;
     y ← replace_variables vars allow b;
     Returns (x +:+ y)).
Proof.
  induction a as [|[c|m caps off] a IH]; cbn [app replace_variables].
  - cbn [mbind outcome_bind]. by destruct (replace_variables vars allow b).
  - rewrite IH. destruct (replace_variables vars allow a) as [x| |]; cbn [mbind outcome_bind];
      [|done|done].
    by destruct (replace_variables vars allow b).
  - destruct (if is_undefined (get vars (callback_name caps off))
              then if allow then Returns m else Throws (undefined_variable (callback_name caps off))
              else Returns (valueToString (get vars (callback_name caps off))))
      as [piece| |]; cbn [mbind outcome_bind]; [|done|done].
    rewrite IH. destruct (replace_variables vars allow a) as [x| |]; cbn [mbind outcome_bind];
      [|done|done].
    destruct (replace_variables vars allow b) as [y| |]; cbn [mbind outcome_bind];
      [|done|done].
    by rewrite app_assoc.
Qed.

(** With the default syntax, the variables of a text are the names
    whose placeholder occurs in it: [extractVariables] lists exactly
    those.  When none of them is the name of a member of
    [Object.prototype], the text renders without error, when undefined
    variables are not allowed and there are no fragments, exactly
    when each of them is defined; and the value of a variable is then
    part of the result, as it is: what it holds is not read as a
    placeholder again.  A placeholder with the name of such a member
    is taken for a fragment, even without fragments, and the value of
    the variable is not used. *)
Theorem default_syntax_variables_are_the_placeholders
    (engine : TemplateEngine) (text : string) (variables : gmap string jsvalue) :
  getSyntaxPattern engine = default_items ->
  (forall n, In n (extractVariables engine text)
             <-> is_name n = true /\ Str.occurs (placeholder_of n) text)
  /\ ((forall n, is_name n = true -> Str.occurs (placeholder_of n) text ->
                 ~ In n ObjectPrototype.names) ->
      ((exists out, render engine text (render_with variables ∅ false) = Returns out)
       <-> forall n, is_name n = true -> Str.occurs (placeholder_of n) text ->
                     is_undefined (get variables n) = false)
      /\ (forall out n allow,
            render engine text (render_with variables ∅ allow) = Returns out ->
            is_name n = true -> Str.occurs (placeholder_of n) text ->
            is_undefined (get variables n) = false ->
            Str.occurs (valueToString (get variables n)) out))
  /\ render default_engine "{{toString}}"
       (render_with {["toString" := JString "abc"]} ∅ false)
     = Returns "function toString() { [native code] }".
Proof.
  intros Hsyntax.
  assert (forall n, In n (extractVariables engine text)
                    <-> is_name n = true /\ Str.occurs (placeholder_of n) text) as Hextract.
  { intros n. unfold extractVariables. rewrite Hsyntax, RenderingFacts.extract_names_In. split.
    - intros [[]|(seg & Hseg & Hcap)].
      destruct seg as [c|m [|[|c name] caps] off]; try done.
      injection Hcap as <-.
      destruct (scan_default_matches _ _ _ _ _ _ Hseg) as (n & [= <- ->] & Hn & _ & Hocc).
      done.
    - intros [Hn (pre & post & ->)]. right.
      destruct (scan_reaches_placeholder pre n post 0 0 Hn ltac:(lia)) as (before & after & ->).
      eexists. split; [apply in_app_iff; right; by left|].
      destruct n; done. }
  split; [exact Hextract|]. split; [|by vm_compute].
  intros Hnames.
  assert (forall allow,
             render engine text (render_with variables ∅ allow)
             = replace_variables variables allow (scan default_items text 0 0)) as Hrender.
  { intros allow. unfold render, render_with.
    change (default ∅ (TemplateEngine.fragments _)) with (∅ : gmap string string).
    rewrite RenderingFacts.substituteFragments_no_fragments.
    - cbn [mbind outcome_bind]. unfold substituteVariables. by rewrite Hsyntax.
    - by rewrite Hsyntax.
    - intros n [Hn Hocc]%Hextract. by apply Hnames. }
  split.
  - rewrite Hrender, RenderingFacts.replace_variables_returns. split.
    + intros Hall n Hn (pre & post & ->).
      destruct (scan_reaches_placeholder pre n post 0 0 Hn ltac:(lia)) as (before & after & Hs).
      apply (Hall (placeholder_of n) [n] (0 + String.length pre)%nat).
      rewrite Hs. apply in_app_iff. right. by left.
    + intros Hall matched captures at_ Hseg.
      destruct (scan_default_matches _ _ _ _ _ _ Hseg) as (n & -> & Hn & _ & Hocc).
      by apply Hall.
  - intros out n allow. rewrite Hrender. intros Hout Hn (pre & post & ->) Hdef.
    destruct (scan_reaches_placeholder pre n post 0 0 Hn ltac:(lia)) as (before & after & Hs).
    rewrite Hs, replace_variables_app in Hout.
    destruct (replace_variables variables allow before) as [x| |]; try done.
    cbn [mbind outcome_bind replace_variables callback_name] in Hout.
    rewrite Hdef in Hout. cbn [mbind outcome_bind] in Hout.
    destruct (replace_variables variables allow after) as [y| |]; try done.
    cbn [mbind outcome_bind] in Hout. injection Hout as <-.
    by exists x, y.
Qed.

Lemma default_syntax_variables_are_the_placeholders_witness :
  Str.occurs "Ada" "Hello Ada!".
Proof.
  destruct (default_syntax_variables_are_the_placeholders
              default_engine "Hello {{name}}!" {["name" := JString "Ada"]} eq_refl)
    as (Hextract & Hrender & _).
  assert (forall n, is_name n = true -> Str.occurs (placeholder_of n) "Hello {{name}}!" ->
                    ~ In n ObjectPrototype.names) as Hnames.
  { intros n Hn Hocc. assert (In n (extractVariables default_engine "Hello {{name}}!")) as Hin
      by (by apply Hextract).
    vm_compute in Hin. destruct Hin as [<-|[]]. intros Hmember. vm_compute in Hmember.
    repeat (destruct Hmember as [Hmember|Hmember]; [discriminate|]). done. }
  destruct (Hrender Hnames) as [_ Hvalue].
  refine (Hvalue "Hello Ada!" "name" false _ eq_refl _ eq_refl).
  - vm_compute. reflexivity.
  - by exists "Hello ", "!".
Defined.

End DefaultSyntaxFacts.

(** ** What the validation of the variables accepts *)

Module VariableFacts.

Import TemplateEngine.

Lemma validateType_Ok (name : string) (value : jsvalue) (type : string) :
  validateType name value type = Returns tt <-> has_type type value = true.
Proof.
  unfold validateType, has_type.
  destruct (String.eqb type "string"); [by destruct value|].
  destruct (String.eqb type "number"); [by destruct value|].
  destruct (String.eqb type "boolean"); [by destruct value|].
  destruct (String.eqb type "object"); [by destruct value|].
  destruct (String.eqb type "array"); [by destruct value|].
  done.
Qed.

Lemma validateType_cases (name : string) (value : jsvalue) (type : string) :
  validateType name value type = Returns tt
  \/ exists article,
       validateType name value type
       = Throws (ValidationError ("Variable '" +:+ name +:+ "' must be " +:+ article
                                  +:+ ", got " +:+ Js.typeof value)).
Proof.
  unfold validateType.
  destruct (String.eqb type "string"); [destruct value; eauto|].
  destruct (String.eqb type "number"); [destruct value; eauto|].
  destruct (String.eqb type "boolean"); [destruct value; eauto|].
  destruct (String.eqb type "object"); [destruct value; eauto|].
  destruct (String.eqb type "array"); [destruct value; eauto|].
  by left.
Qed.

Lemma validateStringRules_Ok (name s : string) (rules : VariableValidation) :
  validateStringRules name s rules = Returns tt
  <-> (forall p, Validators.truthy_string (pattern rules) = Some p ->
                 RegExp.test p EmptyString s = Returns true)
      /\ (forall n, min_length rules = Some n -> n <= Z.of_nat (String.length s))
      /\ (forall n, max_length rules = Some n -> Z.of_nat (String.length s) <= n).
Proof.
  unfold validateStringRules.
  assert ((match Validators.truthy_string (pattern rules) with
           | Some p =>
               matches ← RegExp.test p EmptyString s;
               if negb matches
               then Throws (ValidationError
                              ("Variable '" +:+ name +:+ "' does not match pattern " +:+ p))
               else Returns tt
           | None => Returns tt
           end = Returns tt)
          <-> forall p, Validators.truthy_string (pattern rules) = Some p ->
                        RegExp.test p EmptyString s = Returns true) as Hpattern.
  { destruct (Validators.truthy_string (pattern rules)) as [p|]; [|by split].
    destruct (RegExp.test p EmptyString s) as [[|]| |] eqn:Ht; cbn [mbind outcome_bind negb].
    - split; [|done]. by intros _ p' [= <-].
    - split; [done|]. intros H. specialize (H p eq_refl). congruence.
    - split; [done|]. intros H. specialize (H p eq_refl). congruence.
    - split; [done|]. intros H. specialize (H p eq_refl). congruence. }
  destruct (match Validators.truthy_string (pattern rules) with
            | Some p => _
            | None => _
            end) as [[]|e|]; cbn [mbind outcome_bind].
  2, 3: split; [done|]; intros [H _]; by apply Hpattern in H.
  assert ((match max_length rules with
           | Some hi =>
               if hi <? Z.of_nat (String.length s) then
                 Throws (ValidationError
                           ("Variable '" +:+ name +:+ "' must be at most " +:+ Str.of_Z hi
                            +:+ " characters, got " +:+ Str.of_Z (Z.of_nat (String.length s))))
               else Returns tt
           | None => Returns tt
           end = Returns tt)
          <-> forall n, max_length rules = Some n -> Z.of_nat (String.length s) <= n) as Hmax.
  { destruct (max_length rules) as [hi|]; [|by split].
    destruct (Z.ltb_spec hi (Z.of_nat (String.length s))) as [Hlt|Hge].
    - split; [done|]. intros H. specialize (H hi eq_refl). lia.
    - split; [|done]. intros _ n [= <-]. lia. }
  destruct (min_length rules) as [lo|].
  - destruct (Z.ltb_spec (Z.of_nat (String.length s)) lo) as [Hlt|Hge]; cbn [mbind outcome_bind].
    + split; [done|]. intros (_ & H & _). specialize (H lo eq_refl). lia.
    + rewrite Hmax. split.
      * intros H. split; [by apply Hpattern|]. split; [|done]. intros n [= <-]. lia.
      * by intros (_ & _ & H).
  - cbn [mbind outcome_bind]. rewrite Hmax. split.
    + intros H. split; [by apply Hpattern|]. by split.
    + by intros (_ & _ & H).
Qed.

Lemma validateNumberRules_Ok (name : string) (value : jsvalue) (rules : VariableValidation) :
  validateNumberRules name value rules = Returns tt
  <-> forall x, value = JNumber x ->
        (forall n, minimum rules = Some n -> n <= x)
        /\ (forall n, maximum rules = Some n -> x <= n).
Proof.
  unfold validateNumberRules, Js.gt.
  destruct value as [| |b|x| |s|r items|r fields|f|];
    try (cbn [Js.lt]; split; [by intros _ x [=]|];
         intros _; destruct (minimum rules); by destruct (maximum rules)).
  cbn [Js.lt].
  assert ((match maximum rules with
           | Some hi =>
               if hi <? x then
                 Throws (ValidationError
                           ("Variable '" +:+ name +:+ "' must be at most " +:+ Str.of_Z hi
                            +:+ ", got " +:+ Js.toString (JNumber x)))
               else Returns tt
           | None => Returns tt
           end = Returns tt)
          <-> forall n, maximum rules = Some n -> x <= n) as Hmax.
  { destruct (maximum rules) as [hi|]; [|by split].
    destruct (Z.ltb_spec hi x) as [Hlt|Hge].
    - split; [done|]. intros H. specialize (H hi eq_refl). lia.
    - split; [|done]. intros _ n [= <-]. lia. }
  destruct (minimum rules) as [lo|].
  - destruct (Z.ltb_spec x lo) as [Hlt|Hge]; cbn [mbind outcome_bind].
    + split; [done|]. intros H. destruct (H x eq_refl) as [Hlo _].
      specialize (Hlo lo eq_refl). lia.
    + rewrite Hmax. split.
      * intros H x' [= <-]. split; [|done]. intros n [= <-]. lia.
      * intros H. by destruct (H x eq_refl).
  - cbn [mbind outcome_bind]. rewrite Hmax. split.
    + intros H x' [= <-]. by split.
    + intros H. by destruct (H x eq_refl).
Qed.

Lemma validateEnumRule_Ok (name : string) (value : jsvalue) (allowed : list jsvalue) :
  validateEnumRule name value allowed = Returns tt <-> Js.array_includes allowed value = true.
Proof. unfold validateEnumRule. by destruct (Js.array_includes allowed value). Qed.

Lemma validateRules_Ok (name : string) (value : jsvalue) (rules : VariableValidation)
    (declared : string) :
  validateRules name value rules declared = Returns tt <-> satisfies rules declared value.
Proof.
  unfold validateRules, satisfies.
  set (strings := match value with
                  | JString s =>
                      if String.eqb declared "string" then validateStringRules name s rules
                      else Returns tt
                  | _ => Returns tt
                  end).
  set (numbers := match value with
                  | JNumber _ | JNaN =>
                      if String.eqb declared "number" then validateNumberRules name value rules
                      else Returns tt
                  | _ => Returns tt
                  end).
  set (enums := match enum rules with
                | Some enumValues => validateEnumRule name value enumValues
                | None => Returns tt
                end).
  assert (strings = Returns tt <->
          forall s, declared = "string" -> value = JString s ->
            (forall p, Validators.truthy_string (pattern rules) = Some p ->
                       RegExp.test p EmptyString s = Returns true)
            /\ (forall n, min_length rules = Some n -> n <= Z.of_nat (String.length s))
            /\ (forall n, max_length rules = Some n -> Z.of_nat (String.length s) <= n))
    as Hstrings.
  { unfold strings.
    destruct value as [| |b|x| |s|r items|r fields|f|];
      try (split; [by intros _ s' ? [=]|done]).
    destruct (String.eqb_spec declared "string") as [Heq|Hne].
    - rewrite validateStringRules_Ok. split.
      + by intros H s' _ [= <-].
      + intros H. by apply H.
    - split; [|done]. by intros _ s' Ht. }
  assert (numbers = Returns tt <->
          forall x, declared = "number" -> value = JNumber x ->
            (forall n, minimum rules = Some n -> n <= x)
            /\ (forall n, maximum rules = Some n -> x <= n)) as Hnumbers.
  { unfold numbers.
    destruct value as [| |b|x| |s|r items|r fields|f|];
      try (split; [by intros _ x' ? [=]|done]).
    - destruct (String.eqb_spec declared "number") as [Heq|Hne].
      + rewrite validateNumberRules_Ok. split.
        * intros H x' _ Hx. by apply H.
        * intros H x' Hx. by apply H.
      + split; [|done]. by intros _ x' Ht.
    - destruct (String.eqb declared "number"); [|by split].
      rewrite validateNumberRules_Ok. by split. }
  assert (enums = Returns tt <->
          forall allowed, enum rules = Some allowed -> Js.array_includes allowed value = true)
    as Henums.
  { unfold enums. destruct (enum rules) as [allowed|]; [|by split].
    rewrite validateEnumRule_Ok. split.
    - by intros H allowed' [= <-].
    - intros H. by apply H. }
  destruct strings as [[]|e|]; cbn [mbind outcome_bind].
  2, 3: split; [done|]; intros (H & _ & _); by apply Hstrings in H.
  destruct numbers as [[]|e|]; cbn [mbind outcome_bind].
  2, 3: split; [done|]; intros (_ & H & _); by apply Hnumbers in H.
  rewrite Henums. split.
  - intros H. split; [by apply Hstrings|]. split; [by apply Hnumbers|done].
  - by intros (_ & _ & H).
Qed.

Lemma checkVariable_Ok (varDef : VariableDefinition) (values : gmap string jsvalue) :
  checkVariable varDef values = Returns tt
  <-> if is_undefined (get values (name varDef))
      then required varDef = false
      else has_type (type varDef) (get values (name varDef)) = true
           /\ forall rules, validation varDef = Some rules ->
                satisfies rules (type varDef) (get values (name varDef)).
Proof.
  unfold checkVariable.
  destruct (is_undefined (get values (name varDef))).
  - by destruct (required varDef).
  - rewrite andb_false_r.
    pose proof (validateType_Ok (name varDef) (get values (name varDef)) (type varDef))
      as Htype.
    destruct (validateType (name varDef) (get values (name varDef)) (type varDef))
      as [[]|e|]; cbn [mbind outcome_bind].
    2, 3: split; [done|]; intros [H _]; by apply Htype in H.
    destruct (validation varDef) as [rules|].
    + rewrite validateRules_Ok. split.
      * intros H. split; [by apply Htype|]. by intros rules' [= <-].
      * intros [_ H]. by apply H.
    + split; [|done]. intros _. split; [by apply Htype|done].
Qed.

(** *** The first failing check *)





(** What [validateVariables] accepts: for each definition, either
    [values[name]] is [undefined] and the variable is not required, or
    that value is of the declared type and keeps the rules of the
    definition.  With the declared type [object], [null] and arrays
    are refused, and a declared type that is not one of the five
    admits every value; the error of a value of the wrong type reports
    the [typeof] of the value.  Two consequences of the way the code
    reads and compares: [NaN] is a number that keeps every bound, and
    a variable with the name of a member of [Object.prototype] has
    that member for its value when the values own no property of that
    name, so that it is never missing. *)
Theorem validateVariables_accepts_iff
    (defs : list VariableDefinition) (values : gmap string jsvalue) :
  (validateVariables (Some defs) values = Returns tt
   <-> forall varDef, In varDef defs ->
         if is_undefined (get values (name varDef))
         then required varDef = false
         else has_type (type varDef) (get values (name varDef)) = true
              /\ forall rules, validation varDef = Some rules ->
                   satisfies rules (type varDef) (get values (name varDef)))
  /\ validateVariables None values = Returns tt
  /\ (forall name value type,
        validateType name value type = Returns tt <-> has_type type value = true)
  /\ (forall name value type,
        has_type type value = false ->
        exists article,
          validateType name value type
          = Throws (ValidationError ("Variable '" +:+ name +:+ "' must be " +:+ article
                                     +:+ ", got " +:+ Js.typeof value)))
  /\ (forall name items ref,
        has_type "object" JNull = false /\ has_type "object" (JArray ref items) = false
        /\ validateType name JNull "object"
           = Throws (ValidationError ("Variable '" +:+ name +:+ "' must be an object, got object")))
  /\ (forall name rules,
        enum rules = None ->
        validateType name JNaN "number" = Returns tt
        /\ validateRules name JNaN rules "number" = Returns tt)
  /\ (forall key,
        values !! key = None -> In key ObjectPrototype.names ->
        exists member,
          ObjectPrototype.member key = Some member /\ get values key = member
          /\ is_undefined (get values key) = false)
  /\ (forall key,
        values !! key = None -> ~ In key ObjectPrototype.names ->
        get values key = JUndefined).
Proof.
  split; [|split; [done|split; [|split; [|split; [|split; [|split]]]]]].
  - unfold validateVariables. induction defs as [|varDef defs IH]; [by split|].
    cbn [validateVariables_from].
    pose proof (checkVariable_Ok varDef values) as Hcheck.
    destruct (checkVariable varDef values) as [[]|e|]; cbn [mbind outcome_bind].
    + rewrite IH. split.
      * intros H v [<-|Hin]; [by apply Hcheck|by apply H].
      * intros H v Hin. apply H. by right.
    + split; [done|]. intros H. specialize (H varDef (or_introl eq_refl)).
      by apply Hcheck in H.
    + split; [done|]. intros H. specialize (H varDef (or_introl eq_refl)).
      by apply Hcheck in H.
  - apply validateType_Ok.
  - intros name value type Hno.
    destruct (validateType_cases name value type) as [Hok|Herr]; [|done].
    apply validateType_Ok in Hok. congruence.
  - intros name items ref. done.
  - intros name rules Henum. split; [done|].
    apply validateRules_Ok. unfold satisfies. split; [done|]. split; [done|].
    intros allowed Hallowed. congruence.
  - intros key Hown (member & Hm)%ObjectPrototypeFacts.member_Some.
    exists member. unfold get. rewrite Hown. cbn [ObjectPrototype.read]. rewrite Hm.
    split; [done|]. split; [done|].
    by destruct (ObjectPrototypeFacts.member_cases _ _ Hm) as [->|[f ->]].
  - intros key Hown Hother. unfold get. rewrite Hown.
    by apply ObjectPrototypeFacts.read_other.
Qed.

End VariableFacts.

(** ** The structure check of a pack *)

Module ValidatePackFacts.

Import Registry.

Lemma validatePrompts_Ok (prompts : list (string * jsvalue)) :
  validatePrompts prompts = Returns tt
  <-> forall key prompt, In (key, prompt) prompts -> complete_prompt prompt.
Proof.
  induction prompts as [|[key prompt] prompts IH]; [by split|].
  cbn [validatePrompts].
  assert ((id ← read prompt "id";
           if negb (Multimodal.truthy id) then Throws (missing_fields key)
           else
             name ← read prompt "name";
             if negb (Multimodal.truthy name) then Throws (missing_fields key)
             else
               version ← read prompt "version";
               if negb (Multimodal.truthy version) then Throws (missing_fields key)
               else
                 system_template ← read prompt "system_template";
                 if negb (Multimodal.truthy system_template) then Throws (missing_fields key)
                 else validatePrompts prompts) = Returns tt
          <-> complete_prompt prompt /\ validatePrompts prompts = Returns tt) as ->.
  { unfold complete_prompt.
    destruct prompt as [| |b|n| |s|ref items|ref fields|f|];
      try (split; [done|by intros [(r & f' & [=] & _) _]]).
    cbn [read mbind outcome_bind]. fold (field fields "id") (field fields "name")
      (field fields "version") (field fields "system_template").
    destruct (Multimodal.truthy (field fields "id")) eqn:H1; cbn [negb].
    2: { split; [done|]. intros [(r & f & [= <- <-] & H & _) _]. congruence. }
    destruct (Multimodal.truthy (field fields "name")) eqn:H2; cbn [negb].
    2: { split; [done|]. intros [(r & f & [= <- <-] & _ & H & _) _]. congruence. }
    destruct (Multimodal.truthy (field fields "version")) eqn:H3; cbn [negb].
    2: { split; [done|]. intros [(r & f & [= <- <-] & _ & _ & H & _) _]. congruence. }
    destruct (Multimodal.truthy (field fields "system_template")) eqn:H4; cbn [negb].
    2: { split; [done|]. intros [(r & f & [= <- <-] & _ & _ & _ & H) _]. congruence. }
    split; [|by intros [_ H]]. intros H. split; [|done]. by exists ref, fields. }
  rewrite IH. split.
  - intros [Hfirst Hrest] k p [[= <- <-]|Hin]; [done|by apply (Hrest k p)].
  - intros H. split; [by apply (H key prompt); left|].
    intros k p Hin. apply (H k p). by right.
Qed.

(** [validatePack] accepts exactly the objects that have a non-empty
    string as [id], [name] and [version], an object (or an array) as
    [template_engine], and as [prompts] an object (or an array) with
    at least one entry, each an object whose [id], [name], [version]
    and [system_template] are truthy.  The types of the fields of a
    prompt are not looked at, nor whether a prompt stands under its
    own identifier.  A value that is [null] makes the check raise a
    [TypeError]; any other value that is not an object is refused for
    its [id]. *)
Theorem validatePack_accepts_iff (pack : jsvalue) :
  (validatePack pack = Returns tt
   <-> exists ref fields,
         pack = JObject ref fields
         /\ valid_string (field fields "id") = true
         /\ valid_string (field fields "name") = true
         /\ valid_string (field fields "version") = true
         /\ valid_object (field fields "template_engine") = true
         /\ valid_object (field fields "prompts") = true
         /\ entries (field fields "prompts") <> []
         /\ forall key prompt,
              In (key, prompt) (entries (field fields "prompts")) -> complete_prompt prompt)
  /\ validatePack JNull
     = Throws (JsTypeError "Cannot read properties of null (reading 'id')")
  /\ (pack <> JNull -> pack <> JUndefined ->
      (forall ref fields, pack <> JObject ref fields) ->
      validatePack pack = Throws (Error "PromptPack must have a valid id")).
Proof.
  split; [|split; [done|]].
  - destruct pack as [| |b|n| |s|ref items|ref fields|f|];
      try (split; [done|by intros (r & f' & [=] & _)]).
    unfold validatePack. cbn [read mbind outcome_bind].
    fold (field fields "id") (field fields "name") (field fields "version")
      (field fields "template_engine") (field fields "prompts").
    destruct (valid_string (field fields "id")) eqn:H1; cbn [negb].
    2: { split; [done|]. intros (r & f & [= <- <-] & H & _). congruence. }
    destruct (valid_string (field fields "name")) eqn:H2; cbn [negb].
    2: { split; [done|]. intros (r & f & [= <- <-] & _ & H & _). congruence. }
    destruct (valid_string (field fields "version")) eqn:H3; cbn [negb].
    2: { split; [done|]. intros (r & f & [= <- <-] & _ & _ & H & _). congruence. }
    destruct (valid_object (field fields "template_engine")) eqn:H4; cbn [negb].
    2: { split; [done|]. intros (r & f & [= <- <-] & _ & _ & _ & H & _). congruence. }
    destruct (valid_object (field fields "prompts")) eqn:H5; cbn [negb].
    2: { split; [done|]. intros (r & f & [= <- <-] & _ & _ & _ & _ & H & _). congruence. }
    destruct (entries (field fields "prompts")) as [|entry rest] eqn:He.
    { split; [done|]. intros (r & f & [= <- <-] & _ & _ & _ & _ & _ & H & _).
      by rewrite He in H. }
    cbn [length Nat.eqb]. rewrite validatePrompts_Ok. split.
    + intros H. exists ref, fields. rewrite He. done.
    + intros (r & f & [= <- <-] & _ & _ & _ & _ & _ & _ & H). by rewrite He in H.
  - intros Hnull Hundef Hobj.
    destruct pack as [| |b|n| |s|r items|r f|f|]; try done.
    by destruct (Hobj r f).
Qed.

End ValidatePackFacts.

(** ** Runnables that only report *)

Module ReportOnlyFacts.

Import Validators ValidationRunnable.








End ReportOnlyFacts.

(** ** The runnable of a prompt and the text it validates *)

Module PromptRunnableFacts.

Import Validators ValidationRunnable.






End PromptRunnableFacts.
